(** * Contingency analysis over batched categorical data

    A shallow embedding of [data_processing.py] (cleaning, by-key and
    sliding-window batching) and [analysis.py] (cross-tabulation, chi-square,
    Fisher, Cramer's V, pairwise post-hoc, one-way ANOVA) and of
    [summarize_batch] of [reporting.py], with the properties the
    specification states about them and further properties of the code.

    Conventions of the embedding.
    - A pandas [DataFrame] of records is a list of column names and a list of
      rows; a row maps column names to cells ([gmap string value]), and a cell
      that a row does not bind reads as NaN, as pandas fills it.
    - A Python [str] is a [string] whose characters are the code points below
      256.
    - Python integers are [Z].  Counts in a contingency table are [Z] too: the
      library checks for negative cells, so the sign is kept.
    - Python floats that the code returns ([chi2], [p], Cramer's V) are
      binary64 primitive floats.  The numerical kernels of scipy (the Pearson
      statistic with its tail probability, the hypergeometric p-value, the
      F test) and the CSV reader of pandas are parameters of the
      development; the expected frequencies, on which the control flow of
      [chi2_contingency] depends, are exact rationals, with one extra value
      for the result of a division by zero.
    - A call either returns or raises: [outcome].  The one loop that may
      fail to terminate runs on fuel and answers [None] when it is used up.
    - Cells are strings, integers, NaN or [None]; float cells other than NaN
      are left out, as no statement below needs them. *)

From Stdlib Require Import ZArith QArith String Ascii List Lia.
From Stdlib Require Import Floats.PrimFloat Numbers.Cyclic.Int63.Uint63.
From Stdlib Require Floats.SpecFloat Floats.FloatOps Floats.FloatAxioms.
From stdpp Require Import gmap strings list sorting pretty.

Open Scope Z_scope.

(** ** Exceptions and outcomes *)

Inductive exn : Type := KeyError | ValueError | TypeError.

Inductive outcome (A : Type) : Type :=
| Returned (a : A)
| Raised (e : exn).
Arguments Returned {A} a.
Arguments Raised {A} e.

Global Instance outcome_ret : MRet outcome := fun A a => Returned a.

Global Instance outcome_bind : MBind outcome := fun A B k m =>
  match m with
  | Returned a => k a
  | Raised e => Raised e
  end.

(** ** Cells, rows and data frames *)

Inductive value : Type :=
| VStr (s : string)
| VNum (z : Z)
| VNaN
| VNone.

Global Instance value_eq_dec : EqDecision value.
Proof. solve_decision. Defined.

Definition is_null (v : value) : bool :=
  match v with
  | VNaN | VNone => true
  | _ => false
  end.

Record DataFrame : Type := mkDataFrame {
  columns : list string;
  rows : list (gmap string value)
}.

(** [row[c]]: a name the row does not bind reads as NaN. *)
Definition cell (r : gmap string value) (c : string) : value :=
  default VNaN (r !! c).

(** [df[c]], the series of a column. *)
Definition series (df : DataFrame) (c : string) : list value :=
  map (fun r => cell r c) (rows df).

(** [len(df)] *)
Definition len (df : DataFrame) : Z := Z.of_nat (length (rows df)).

(** [c in df.columns] *)
Definition has_column (df : DataFrame) (c : string) : bool :=
  bool_decide (c ∈ columns df).

(** ** Strings: [str(x)] and [str.strip] *)

(** [str.isspace] on the code points below 256. *)
Definition isspace (c : ascii) : bool :=
  let n := N_of_ascii c in
  ((9 <=? n) && (n <=? 13) || (28 <=? n) && (n <=? 32)
   || (n =? 133) || (n =? 160))%N.

Fixpoint lstrip (s : string) : string :=
  match s with
  | EmptyString => EmptyString
  | String c s' => if isspace c then lstrip s' else s
  end.

Fixpoint rstrip (s : string) : string :=
  match s with
  | EmptyString => EmptyString
  | String c s' =>
      match rstrip s' with
      | EmptyString => if isspace c then EmptyString else String c EmptyString
      | r => String c r
      end
  end.

Definition strip (s : string) : string := lstrip (rstrip s).

(** [str(x)] of a cell, as [astype(str)] applies it. *)
Definition py_str (v : value) : string :=
  match v with
  | VStr s => s
  | VNum z => pretty z
  | VNaN => "nan"
  | VNone => "None"
  end.

(** ** Cleaning: [clean_categorical_columns] *)

Definition astype_str (v : value) : value := VStr (py_str v).

(** [.str.strip()]: an element that is no string becomes NaN. *)
Definition str_strip (v : value) : value :=
  match v with
  | VStr s => VStr (strip s)
  | _ => VNaN
  end.

(** [.replace({"": "Missing", "nan": "Missing", "None": "Missing"})] *)
Definition replace_missing (v : value) : value :=
  match v with
  | VStr s =>
      if (String.eqb s "" || String.eqb s "nan" || String.eqb s "None")%bool
      then VStr "Missing" else v
  | _ => v
  end.

(** [.fillna("Missing")] *)
Definition fillna_missing (v : value) : value :=
  if is_null v then VStr "Missing" else v.

Definition clean_value (v : value) : value :=
  fillna_missing (replace_missing (str_strip (astype_str v))).

(** The three assignments to [df[c]] of one turn of the loop. *)
Definition clean_column (c : string) (df : DataFrame) : DataFrame :=
  {| columns := columns df;
     rows := map (fun r => <[c := clean_value (cell r c)]> r) (rows df) |}.

Fixpoint clean_categorical_columns (df : DataFrame) (categorical_cols : list string)
  : outcome DataFrame :=
  match categorical_cols with
  | [] => Returned df
  | c :: cs =>
      if has_column df c
      then clean_categorical_columns (clean_column c df) cs
      else Raised KeyError
  end.

(** ** Ordering of cells *)

(** The order pandas sorts group keys and table labels in: numbers by value,
    strings by code points, numbers before strings, nulls last. *)
Definition value_leb (a b : value) : bool :=
  match a, b with
  | VNum x, VNum y => x <=? y
  | VNum _, VStr _ => true
  | VStr _, VNum _ => false
  | VStr s, VStr t => String.leb s t
  | _, (VNaN | VNone) => true
  | (VNaN | VNone), _ => false
  end.

Definition value_le (a b : value) : Prop := value_leb a b = true.

Global Instance value_le_dec : RelDecision value_le.
Proof. intros a b. unfold value_le. apply _. Defined.

(** The distinct values of a list, in ascending order. *)
Definition unique_sorted (l : list value) : list value :=
  merge_sort value_le (remove_dups l).

(** The values in order of first occurrence (what a [groupby(sort=False)]
    would iterate over). *)
Definition first_occurrences (l : list value) : list value :=
  reverse (remove_dups (reverse l)).

(** ** By-key batching: [define_batches_by_column] *)

Definition notnull (l : list value) : list value :=
  filter (fun v => is_null v = false) l.

Definition rows_with (c : string) (k : value) (rs : list (gmap string value))
  : list (gmap string value) :=
  filter (fun r => cell r c = k) rs.

(** [df.groupby(c)] with its defaults [sort=True], [dropna=True]: one group
    per non-null key, keys ascending, the rows of a group in their order in
    [df]. *)
Definition groupby (df : DataFrame) (c : string) : list (value * DataFrame) :=
  map (fun k => (k, {| columns := columns df; rows := rows_with c k (rows df) |}))
      (unique_sorted (notnull (series df c))).

(** [reset_index(drop=True)] renumbers the positions, which a list has
    implicitly. *)
Definition reset_index (df : DataFrame) : DataFrame := df.

Definition define_batches_by_column (df : DataFrame) (batch_col : string)
  : outcome (list DataFrame) :=
  if has_column df batch_col
  then Returned (map (fun vg => reset_index (snd vg)) (groupby df batch_col))
  else Raised KeyError.

(** ** Sliding-window batching: [sliding_window_batches] *)

(** The order of [sort_values] on a key: nulls last in both directions. *)
Definition key_leb (ascending : bool) (a b : value) : bool :=
  if is_null b then true
  else if is_null a then false
  else if ascending then value_leb a b else value_leb b a.

Definition row_le (by_col : string) (ascending : bool) (r1 r2 : gmap string value) : Prop :=
  key_leb ascending (cell r1 by_col) (cell r2 by_col) = true.

Global Instance row_le_dec by_col ascending : RelDecision (row_le by_col ascending).
Proof. intros a b. unfold row_le. apply _. Defined.

Definition is_str (v : value) : bool := if v is VStr _ then true else false.
Definition is_num (v : value) : bool := if v is VNum _ then true else false.

(** A column holding both strings and numbers cannot be compared. *)
Definition mixed (l : list value) : bool :=
  existsb is_str l && existsb is_num l.

(** [df.sort_values(by=c, ascending=a)]: a missing column is a [KeyError],
    a column that mixes strings and numbers a [TypeError]; otherwise the rows
    come back ordered by the key.  The sort here is a stable merge sort;
    pandas' default algorithm may order rows with equal keys differently, and
    no statement below depends on the order of ties. *)
Definition sort_values (df : DataFrame) (by_col : string) (ascending : bool)
  : outcome DataFrame :=
  if has_column df by_col then
    if mixed (series df by_col) then Raised TypeError
    else Returned {| columns := columns df;
                     rows := merge_sort (row_le by_col ascending) (rows df) |}
  else Raised KeyError.

(** A bound of a Python slice over [n] positions: negative bounds count from
    the end, and both are clamped. *)
Definition slice_bound (n i : Z) : Z :=
  if i <? 0 then Z.max (i + n) 0 else Z.min i n.

(** [df.iloc[start:stop]] *)
Definition iloc (df : DataFrame) (start stop : Z) : DataFrame :=
  let n := len df in
  let s := slice_bound n start in
  let e := slice_bound n stop in
  {| columns := columns df;
     rows := take (Z.to_nat (e - s)) (drop (Z.to_nat s) (rows df)) |}.

(** The [while start < n] loop; the batches it appends from [start] on.
    [None]: the fuel ran out. *)
Fixpoint sliding_loop (fuel : nat) (df : DataFrame) (n window_size step start : Z)
  : option (list DataFrame) :=
  match fuel with
  | O => None
  | S fuel' =>
      if start <? n then
        let stop := Z.min (start + window_size) n in
        let batch := reset_index (iloc df start stop) in
        if stop =? n then Some [batch]
        else rest ← sliding_loop fuel' df n window_size step (start + step);
             Some (batch :: rest)
      else Some []
  end.

Definition sliding_window_batches (fuel : nat) (df : DataFrame) (time_col : string)
    (window_size step : Z) (sort_ascending : bool)
  : option (outcome (list DataFrame)) :=
  match sort_values df time_col sort_ascending with
  | Raised e => Some (Raised e)
  | Returned sorted =>
      batches ← sliding_loop fuel (reset_index sorted) (len sorted) window_size step 0;
      Some (Returned batches)
  end.

(** ** Contingency tables: [build_contingency_table] *)

(** A table of counts with labelled rows and columns (the frame that
    [pd.crosstab] returns). *)
Record Table : Type := mkTable {
  index : list value;
  labels : list value;
  counts : list (list Z)
}.

(** [table.shape] and [table.size] *)
Definition shape (t : Table) : nat * nat := (length (index t), length (labels t)).
Definition size (t : Table) : Z :=
  Z.of_nat (length (index t)) * Z.of_nat (length (labels t)).

(** The frame is rectangular: one row of counts per index label, one count
    per column label in each. *)
Definition wf_table (t : Table) : Prop :=
  length (counts t) = length (index t) /\
  Forall (fun r => length r = length (labels t)) (counts t).

Definition zsum (l : list Z) : Z := foldr Z.add 0 l.

(** [table.to_numpy().sum()] *)
Definition table_sum (t : Table) : Z := zsum (map zsum (counts t)).

Definition both_notnull (p : value * value) : Prop :=
  is_null (fst p) = false /\ is_null (snd p) = false.

Global Instance both_notnull_dec p : Decision (both_notnull p).
Proof. unfold both_notnull. apply _. Defined.

Definition count_pair (r c : value) (ps : list (value * value)) : Z :=
  Z.of_nat (length (filter (fun p => p = (r, c)) ps)).

(** The pairs of labels [pd.crosstab] counts: a record with a null in either
    series is left out ([dropna=True]). *)
Definition kept_pairs (rs cs : list value) : list (value * value) :=
  filter both_notnull (zip rs cs).

(** [pd.crosstab(rs, cs)]: the labels are the values observed in the kept
    records, ascending; a cell counts the records with its two labels. *)
Definition crosstab (rs cs : list value) : Table :=
  let ps := kept_pairs rs cs in
  let idx := unique_sorted (map fst ps) in
  let cols := unique_sorted (map snd ps) in
  {| index := idx;
     labels := cols;
     counts := map (fun r => map (fun c => count_pair r c ps) cols) idx |}.

Definition build_contingency_table (df : DataFrame) (row col : string)
  : outcome Table :=
  if negb (has_column df row) || negb (has_column df col)
  then Raised KeyError
  else Returned (crosstab (series df row) (series df col)).

(** ** The statistical tests *)

(** An expected frequency: an exact rational, or the value of a division by
    zero (NaN or an infinity). *)
Inductive freq : Type :=
| Freq (q : Q)
| FUndef.

Definition freq_div (a b : Z) : freq :=
  if b =? 0 then FUndef else Freq (inject_Z a / inject_Z b)%Q.

(** [x == 0] on an expected frequency: false on NaN and infinities. *)
Definition freq_is_zero (x : freq) : bool :=
  match x with
  | Freq q => Qeq_bool q 0
  | FUndef => false
  end.

Definition row_margins (t : Table) : list Z := map zsum (counts t).

Definition col_margins (t : Table) : list Z :=
  map (fun j => zsum (map (fun r => nth j r 0) (counts t)))
      (seq 0 (length (labels t))).

(** [scipy.stats.contingency.expected_freq]: row margin times column margin
    over the total. *)
Definition expected_freq (t : Table) : list (list freq) :=
  map (fun ri => map (fun cj => freq_div (ri * cj) (table_sum t)) (col_margins t))
      (row_margins t).

Definition any_negative (t : Table) : bool :=
  existsb (existsb (fun x => x <? 0)) (counts t).

Definition any_zero (e : list (list freq)) : bool :=
  existsb (existsb freq_is_zero) e.

(** An [int] as a [float]; exact below 2^53, where counts live. *)
Definition float_of_int (z : Z) : float := PrimFloat.of_uint63 (Uint63.of_Z z).

(** [min(a, b)] of Python: [b] when [b < a], else [a]. *)
Definition py_min (a b : float) : float := if PrimFloat.ltb b a then b else a.

(** [math.sqrt]: a negative argument is a domain error. *)
Definition math_sqrt (x : float) : outcome float :=
  if PrimFloat.ltb x PrimFloat.zero then Raised ValueError
  else Returned (PrimFloat.sqrt x).

(** What [chi2_contingency] returns: [(chi2, p, dof, expected)]. *)
Record Chi2Result : Type := mkChi2Result {
  chi2 : float;
  p_value : float;
  dof : Z;
  expected : list (list freq)
}.

Record FisherResult : Type := mkFisherResult {
  oddsratio : float;
  fisher_p_value : float
}.

Record PosthocRow : Type := mkPosthocRow {
  row1 : value;
  row2 : value;
  ph_chi2 : float;
  p : float;
  p_adj : float;
  significant : bool
}.

Section Tests.

(** The numerical kernel of [chi2_contingency]: from the observed counts,
    the expected frequencies, the degrees of freedom and whether Yates'
    correction applies, the Pearson statistic and its upper-tail
    probability ([power_divergence] and [chi2.sf]). *)
Variable pearson : bool -> list (list Z) -> list (list freq) -> Z -> float * float.

(** The numerical kernel of [fisher_exact] on [[a, b], [c, d]]: the odds
    ratio and the two-sided hypergeometric p-value. *)
Variable hypergeom : Z -> Z -> Z -> Z -> float * float.

(** [scipy.stats.chi2_contingency(observed, correction)] *)
Definition chi2_contingency (correction : bool) (observed : Table)
  : outcome Chi2Result :=
  if any_negative observed then Raised ValueError
  else if size observed =? 0 then Raised ValueError
  else
    let e := expected_freq observed in
    if any_zero e then Raised ValueError
    else
      let R := Z.of_nat (length (index observed)) in
      let C := Z.of_nat (length (labels observed)) in
      let d := R * C - (R + C) + 2 - 1 in
      if d =? 0 then Returned (mkChi2Result PrimFloat.zero PrimFloat.one d e)
      else
        let '(stat, pv) := pearson ((d =? 1) && correction) (counts observed) e d in
        Returned (mkChi2Result stat pv d e).

(** [chi_square_test(table, correction)] *)
Definition chi_square_test (table : Table) (correction : bool) : outcome Chi2Result :=
  if size table =? 0 then Raised ValueError
  else
    r ← chi2_contingency correction table;
    Returned (mkChi2Result (chi2 r) (p_value r) (dof r) (expected r)).

(** [scipy.stats.fisher_exact(table)] *)
Definition fisher_exact (c : list (list Z)) : outcome (float * float) :=
  match c with
  | [[a; b]; [c'; d]] =>
      if (a <? 0) || (b <? 0) || (c' <? 0) || (d <? 0) then Raised ValueError
      else if (a + c' =? 0) || (b + d =? 0) || (a + b =? 0) || (c' + d =? 0)
      then Returned (PrimFloat.nan, PrimFloat.one)
      else Returned (hypergeom a b c' d)
  | _ => Raised ValueError
  end.

(** [fisher_test_if_applicable(table)] *)
Definition fisher_test_if_applicable (table : Table) : outcome (option FisherResult) :=
  if bool_decide (shape table = (2%nat, 2%nat)) then
    '(o, pv) ← fisher_exact (counts table);
    Returned (Some (mkFisherResult o pv))
  else Returned None.

(** [cramers_v(table)] *)
Definition cramers_v (table : Table) : outcome float :=
  r ← chi2_contingency true table;
  let n := table_sum table in
  if n =? 0 then Returned PrimFloat.nan
  else
    let k := Z.min (Z.of_nat (length (index table))) (Z.of_nat (length (labels table))) in
    if k =? 1 then Returned PrimFloat.zero
    else math_sqrt (PrimFloat.div (chi2 r) (float_of_int (n * (k - 1)))).

(** [table.loc[ls, :]]: for each label in turn, the rows that carry it. *)
Definition loc_rows (t : Table) (ls : list value) : Table :=
  let sel := flat_map (fun l => List.filter (fun ir => bool_decide (fst ir = l))
                                            (zip (index t) (counts t))) ls in
  {| index := map fst sel; labels := labels t; counts := map snd sel |}.

(** The pairs [(rows[i], rows[j])], [i < j], in the order the two nested
    loops visit them. *)
Fixpoint row_pairs (rs : list value) : list (value * value) :=
  match rs with
  | [] => []
  | r :: rs' => map (fun r' => (r, r')) rs' ++ row_pairs rs'
  end.

(** One turn of the inner loop: the test on the two-row sub-table. *)
Definition pair_test (table : Table) (ij : value * value)
  : outcome (value * value * float * float) :=
  let sub := loc_rows table [fst ij; snd ij] in
  r ← chi2_contingency true sub;
  Returned (fst ij, snd ij, chi2 r, p_value r).

(** The Bonferroni loop over the collected results. *)
Definition bonferroni (alpha : float) (m : Z) (r : value * value * float * float)
  : PosthocRow :=
  let '(r1, r2, stat, pv) := r in
  let pa := if 0 <? m then py_min PrimFloat.one (PrimFloat.mul pv (float_of_int m))
            else pv in
  mkPosthocRow r1 r2 stat pv pa (PrimFloat.ltb pa alpha).

(** [pairwise_chi2_posthoc(table, alpha)] *)
Definition pairwise_chi2_posthoc (table : Table) (alpha : float)
  : outcome (list PosthocRow) :=
  results ← mapM (pair_test table) (row_pairs (index table));
  let m := Z.of_nat (length results) in
  Returned (map (bonferroni alpha m) results).

End Tests.

(** * Notions the statements use *)

(** ** Trimmed strings *)

(** The string starts with a whitespace character. *)
Definition first_space (s : string) : bool :=
  match s with
  | EmptyString => false
  | String c _ => isspace c
  end.

(** The string ends with a whitespace character. *)
Fixpoint last_space (s : string) : bool :=
  match s with
  | EmptyString => false
  | String c EmptyString => isspace c
  | String _ s' => last_space s'
  end.

(** The string holds whitespace only. *)
Fixpoint all_space (s : string) : bool :=
  match s with
  | EmptyString => true
  | String c s' => isspace c && all_space s'
  end.

Definition trimmed (s : string) : Prop :=
  first_space s = false /\ last_space s = false.

(** ** Cleaned cells *)

(** The strings that stand for a missing value once trimmed. *)
Definition missing_token (s : string) : bool :=
  bool_decide (s = "" \/ s = "nan" \/ s = "None").

(** The cleaned form of a cell, in the words of the specification: the string
    form of the raw value, trimmed, with the missing tokens replaced. *)
Definition cleaned (raw : value) : value :=
  let s := strip (py_str raw) in
  VStr (if missing_token s then "Missing" else s).

(** One row after the loop over [categorical_cols]. *)
Definition clean_row (cols : list string) (r : gmap string value) : gmap string value :=
  foldl (fun r c => <[c := clean_value (cell r c)]> r) r cols.

(** ** Batches *)

(** The batch of a key: the records of [df] whose cell in column [c] is [k]. *)
Definition keyed_batch (df : DataFrame) (c : string) (k : value) : DataFrame :=
  {| columns := columns df; rows := rows_with c k (rows df) |}.

(** The key of a batch: the key cell of its first record. *)
Definition batch_key (c : string) (b : DataFrame) : value :=
  match rows b with
  | r :: _ => cell r c
  | [] => VNaN
  end.

(** ** Tables of counts *)

(** [1] when the proposition holds, [0] otherwise. *)
Definition indicator (P : Prop) `{Decision P} : Z := if decide P then 1 else 0.

(** No count is negative. *)
Definition nonneg_table (t : Table) : Prop :=
  Forall (Forall (fun x => 0 <= x)) (counts t).

(** No count is zero or negative. *)
Definition positive_table (t : Table) : Prop :=
  Forall (Forall (fun x => 0 < x)) (counts t).

(** The invariant of the data model: a rectangular table of counts whose
    labels were all observed, so that no row and no column adds up to zero. *)
Definition valid_table (t : Table) : Prop :=
  wf_table t /\ nonneg_table t /\
  Forall (fun m => 0 < m) (row_margins t) /\
  Forall (fun m => 0 < m) (col_margins t).

(** The tables on which [chi2_contingency] goes through: no negative count,
    at least one cell, no expected frequency equal to zero. *)
Definition testable (t : Table) : Prop :=
  any_negative t = false /\ size t <> 0 /\ any_zero (expected_freq t) = false.

Global Instance testable_dec t : Decision (testable t).
Proof. unfold testable. apply _. Defined.

(** [C(n, 2)], the number of unordered pairs. *)
Definition choose2 (n : Z) : Z := n * (n - 1) / 2.

(** ** Sums of expected frequencies *)

(** The sum of two frequencies; an undefined term makes the sum undefined, as
    NaN does. *)
Definition freq_add (x y : freq) : freq :=
  match x, y with
  | Freq a, Freq b => Freq (a + b)
  | _, _ => FUndef
  end.

Definition freq_sum (l : list freq) : freq := foldr freq_add (Freq 0) l.

(** Equality of two defined frequencies as numbers. *)
Definition freq_eq (x y : freq) : Prop :=
  match x, y with
  | Freq a, Freq b => (a == b)%Q
  | _, _ => False
  end.

Definition freq_of_int (z : Z) : freq := Freq (inject_Z z).

(** * Example data *)

Definition example_raw : DataFrame :=
  {| columns := ["city"; "n"];
     rows := [ {[ "city" := VStr "  Pune " ; "n" := VNum 3 ]};
               {[ "city" := VStr "nan" ; "n" := VNum 42 ]};
               {[ "city" := VNaN ; "n" := VNone ]} ] |}.

Definition example_keys : DataFrame :=
  {| columns := ["key"; "x"];
     rows := [ {[ "key" := VStr "A" ; "x" := VNum 1 ]};
               {[ "key" := VStr "A" ; "x" := VNum 2 ]};
               {[ "key" := VStr "B" ; "x" := VNum 3 ]};
               {[ "key" := VStr "B" ; "x" := VNum 4 ]};
               {[ "key" := VStr "B" ; "x" := VNum 5 ]} ] |}.

Definition example_keys_BA : DataFrame :=
  {| columns := ["key"];
     rows := [ {[ "key" := VStr "B" ]}; {[ "key" := VStr "A" ]} ] |}.

Definition example_times : DataFrame :=
  {| columns := ["t"];
     rows := [ {[ "t" := VNum 30 ]}; {[ "t" := VNum 10 ]}; {[ "t" := VNum 20 ]} ] |}.

Definition example_times_sorted : DataFrame :=
  {| columns := ["t"];
     rows := [ {[ "t" := VNum 10 ]}; {[ "t" := VNum 20 ]}; {[ "t" := VNum 30 ]} ] |}.

Definition example_with_null : DataFrame :=
  {| columns := ["region"; "mood"];
     rows := [ {[ "region" := VStr "North" ; "mood" := VStr "Positive" ]};
               {[ "region" := VNaN ; "mood" := VStr "Negative" ]} ] |}.

Definition example_survey : DataFrame :=
  {| columns := ["region"; "mood"];
     rows := [ {[ "region" := VStr "North" ; "mood" := VStr "Positive" ]};
               {[ "region" := VStr "South" ; "mood" := VStr "Negative" ]};
               {[ "region" := VStr "North" ; "mood" := VStr "Negative" ]} ] |}.

(** The table [[10, 20], [30, 15]] of the specification. *)
Definition table_2x2 : Table :=
  {| index := [VStr "a"; VStr "b"];
     labels := [VStr "x"; VStr "y"];
     counts := [[10; 20]; [30; 15]] |}.

(** A table whose second column was never observed. *)
Definition sparse_column : Table :=
  {| index := [VStr "a"; VStr "b"];
     labels := [VStr "x"; VStr "y"];
     counts := [[1; 0]; [2; 0]] |}.

(** The cross-tabulation of a batch without complete records. *)
Definition empty_table : Table := {| index := []; labels := []; counts := [] |}.

Definition zero_row_table : Table :=
  {| index := [VStr "a"]; labels := [VStr "x"; VStr "y"]; counts := [[0; 0]] |}.

Definition single_row_table : Table :=
  {| index := [VStr "a"]; labels := [VStr "x"; VStr "y"]; counts := [[4; 6]] |}.

(** Every label is observed, yet rows [a] and [b] are both zero in column
    [y]. *)
Definition sparse_rows : Table :=
  {| index := [VStr "a"; VStr "b"; VStr "c"];
     labels := [VStr "x"; VStr "y"];
     counts := [[1; 0]; [2; 0]; [0; 3]] |}.

Definition dense_rows : Table :=
  {| index := [VStr "a"; VStr "b"; VStr "c"];
     labels := [VStr "x"; VStr "y"];
     counts := [[1; 4]; [2; 5]; [6; 3]] |}.

(** Stand-ins for the numerical kernels, to run the tests on examples. *)
Definition sample_pearson (yates : bool) (obs : list (list Z)) (e : list (list freq))
    (d : Z) : float * float :=
  (float_of_int d, 0.0078125%float).

Definition sample_hypergeom (a b c d : Z) : float * float :=
  (PrimFloat.div (float_of_int (a * d)) (float_of_int (b * c)), 0.25%float).

(** The default threshold [alpha = 0.05], as the binary64 value Python reads. *)
Definition default_alpha : float := 0x1.999999999999ap-5%float.

(** * The rest of the pipeline *)

(** ** Loading: [load_csv] *)

(** [df.empty]: no row or no column. *)
Definition df_empty (df : DataFrame) : bool :=
  bool_decide (rows df = []) || bool_decide (columns df = []).

Section Loading.

(** [pd.read_csv(path, encoding=encoding)]: the parsed file, or the error of
    the reader. *)
Variable read_csv : string -> option string -> outcome DataFrame.

(** [load_csv(path, encoding)] *)
Definition load_csv (path : string) (encoding : option string) : outcome DataFrame :=
  df ← read_csv path encoding;
  if df_empty df then Raised ValueError else Returned df.

End Loading.

(** ** One-way ANOVA: [anova_numeric_by_category] *)

(** [series.dropna().values] *)
Definition dropna (l : list value) : list value := notnull l.

Section Anova.

(** [scipy.stats.f_oneway] on the groups: the F statistic and its p-value, or the
    error it raises on samples it cannot read. *)
Variable f_oneway : list (list value) -> outcome (float * float).

(** The list comprehension over [df.groupby(category_col)]: the non-null
    values of [numeric_col] in each group; a group that lacks the column is a
    [KeyError]. *)
Definition anova_groups (df : DataFrame) (numeric_col category_col : string)
  : outcome (list (list value)) :=
  mapM (fun vg : value * DataFrame =>
          if has_column (snd vg) numeric_col
          then Returned (dropna (series (snd vg) numeric_col))
          else Raised KeyError)
       (groupby df category_col).

(** [[g for g in groups if len(g) > 0]] *)
Definition nonempty_groups (groups : list (list value)) : list (list value) :=
  filter (fun g => g <> []) groups.

(** [anova_numeric_by_category(df, numeric_col, category_col)]; the result is
    the pair [(F, p)]. *)
Definition anova_numeric_by_category (df : DataFrame) (numeric_col category_col : string)
  : outcome (float * float) :=
  if has_column df category_col then
    groups ← anova_groups df numeric_col category_col;
    if Z.of_nat (length (nonempty_groups groups)) <? 2
    then Returned (PrimFloat.nan, PrimFloat.nan)
    else
      '(stat, pv) ← f_oneway (nonempty_groups groups);
      Returned (stat, pv)
  else Raised KeyError.

End Anova.

(** ** The summary of a batch: [summarize_batch] *)

(** The dictionary [summarize_batch] returns. *)
Record Summary : Type := mkSummary {
  sm_table : Table;
  sm_chi2 : Chi2Result;
  sm_fisher : option FisherResult;
  sm_cramers_v : float;
  sm_posthoc : list PosthocRow
}.

(** [df[c]]: the series of a column, or a [KeyError]. *)
Definition getitem (df : DataFrame) (c : string) : outcome (list value) :=
  if has_column df c then Returned (series df c) else Raised KeyError.

Section Reporting.

Variable pearson : bool -> list (list Z) -> list (list freq) -> Z -> float * float.
Variable hypergeom : Z -> Z -> Z -> Z -> float * float.

(** [summarize_batch(df_batch, row, col)]; the tests run with their defaults
    ([correction=True], [alpha=0.05]). *)
Definition summarize_batch (df_batch : DataFrame) (row col : string) : outcome Summary :=
  rs ← getitem df_batch row;
  cs ← getitem df_batch col;
  let table := crosstab rs cs in
  test ← chi_square_test pearson table true;
  fisher ← fisher_test_if_applicable hypergeom table;
  v ← cramers_v pearson table;
  posthoc ← pairwise_chi2_posthoc pearson table default_alpha;
  Returned (mkSummary table test fisher v posthoc).

End Reporting.

(** ** Further notions *)

(** A record is complete for two columns when neither cell is null. *)
Definition complete (row col : string) (r : gmap string value) : Prop :=
  is_null (cell r row) = false /\ is_null (cell r col) = false.

Global Instance complete_dec row col r : Decision (complete row col r).
Proof. unfold complete. apply _. Defined.

(** The table with rows and columns exchanged ([table.T]). *)
Definition transpose_table (t : Table) : Table :=
  {| index := labels t;
     labels := index t;
     counts := map (fun j => map (fun r => nth j r 0) (counts t))
                   (seq 0 (length (labels t))) |}.

(** The batches laid end to end, of each batch but the last only its first
    [step] records (what the next window does not repeat). *)
Fixpoint without_overlap (step : Z) (batches : list DataFrame)
  : list (gmap string value) :=
  match batches with
  | [] => []
  | [b] => rows b
  | b :: bs => take (Z.to_nat step) (rows b) ++ without_overlap step bs
  end.

(** A kernel whose statistic is never negative. *)
Definition const_pearson (yates : bool) (obs : list (list Z)) (e : list (list freq))
    (d : Z) : float * float :=
  (2%float, 0.25%float).

(** A reader and an F test, to run the code on examples. *)
Definition sample_read_csv (path : string) (encoding : option string)
  : outcome DataFrame :=
  if String.eqb path "survey.csv" then Returned example_survey
  else if String.eqb path "empty.csv" then Returned {| columns := ["region"]; rows := [] |}
  else Raised KeyError.

Definition sample_f_oneway (groups : list (list value)) : outcome (float * float) :=
  Returned (float_of_int (Z.of_nat (length groups)), 0.5%float).

Definition example_prices : DataFrame :=
  {| columns := ["kind"; "price"];
     rows := [ {[ "kind" := VStr "Villa" ; "price" := VNum 90 ]};
               {[ "kind" := VStr "Studio" ; "price" := VNum 30 ]};
               {[ "kind" := VStr "Villa" ; "price" := VNaN ]};
               {[ "kind" := VNaN ; "price" := VNum 50 ]};
               {[ "kind" := VStr "Studio" ; "price" := VNum 40 ]} ] |}.

Definition example_one_kind : DataFrame :=
  {| columns := ["kind"; "price"];
     rows := [ {[ "kind" := VStr "Villa" ; "price" := VNum 90 ]};
               {[ "kind" := VStr "Studio" ; "price" := VNaN ]};
               {[ "kind" := VStr "Villa" ; "price" := VNum 70 ]} ] |}.

(** [example_raw] once cleaned. *)
Definition example_cleaned : DataFrame :=
  {| columns := ["city"; "n"];
     rows := [ {[ "city" := VStr "Pune" ; "n" := VStr "3" ]};
               {[ "city" := VStr "Missing" ; "n" := VStr "42" ]};
               {[ "city" := VStr "Missing" ; "n" := VStr "Missing" ]} ] |}.

(** ** The sign of a binary64 value *)

(** The value is below zero: a negative number or minus infinity. *)
Definition sf_negative (f : SpecFloat.spec_float) : bool :=
  match f with
  | SpecFloat.S754_infinity s | SpecFloat.S754_finite s _ _ => s
  | _ => false
  end.

(** The sign bit, with NaN counted as unsigned. *)
Definition sf_sign (f : SpecFloat.spec_float) : bool :=
  match f with
  | SpecFloat.S754_zero s | SpecFloat.S754_infinity s | SpecFloat.S754_finite s _ _ => s
  | SpecFloat.S754_nan => false
  end.

(** ** Rows that share an empty column *)

(** Two rows of the table are both zero in some column. *)
Definition shared_zero (t : Table) : Prop :=
  exists (i j c : nat) (r1 r2 : list Z),
    (i < j)%nat /\ counts t !! i = Some r1 /\ counts t !! j = Some r2 /\
    r1 !! c = Some 0 /\ r2 !! c = Some 0.

(** ** Groups of a one-way ANOVA *)

(** The values of [numeric_col] in the records of category [k] that have
    one, in the order of the records. *)
Definition anova_values (df : DataFrame) (numeric_col category_col : string) (k : value)
  : list value :=
  map (fun r => cell r numeric_col)
      (filter (fun r => cell r category_col = k /\ is_null (cell r numeric_col) = false)
              (rows df)).

(** The categories that have at least one value, in ascending order. *)
Definition anova_categories (df : DataFrame) (numeric_col category_col : string)
  : list value :=
  filter (fun k => anova_values df numeric_col category_col k <> [])
         (unique_sorted (notnull (series df category_col))).

(** ** Tables on which Cramer's V is asked for a special case *)

(** A batch without a complete record: its cross-tabulation is the empty
    table. *)
Definition example_no_complete : DataFrame :=
  {| columns := ["region"; "mood"];
     rows := [ {[ "region" := VNaN ; "mood" := VStr "Positive" ]};
               {[ "region" := VStr "North" ; "mood" := VNone ]} ] |}.

(** A single row with a cell that is zero. *)
Definition zero_cell_row : Table :=
  {| index := [VStr "a"]; labels := [VStr "x"; VStr "y"]; counts := [[3; 0]] |}.

(** * Properties *)

(** ** Facts about [strip] *)

Lemma append_cons c s t : String c s +:+ t = String c (s +:+ t).
Proof. reflexivity. Qed.

Lemma append_nil t : EmptyString +:+ t = t.
Proof. reflexivity. Qed.

Lemma lstrip_first s : first_space (lstrip s) = false.
Proof.
  induction s as [|c s IH]; simpl; [done|].
  destruct (isspace c) eqn:E; [done|]. simpl. by rewrite E.
Qed.

Lemma lstrip_split s : exists l, s = (l +:+ lstrip s) /\ all_space l = true.
Proof.
  induction s as [|c s (l & Hl & Hs)]; simpl.
  - by exists EmptyString.
  - destruct (isspace c) eqn:E.
    + exists (String c l). simpl. rewrite E, Hs, append_cons. split; [by f_equal|done].
    + by exists EmptyString.
Qed.

Lemma rstrip_last s : last_space (rstrip s) = false.
Proof.
  induction s as [|c s IH]; simpl; [done|].
  destruct (rstrip s) as [|c' r] eqn:E.
  - destruct (isspace c) eqn:Ec; simpl; [done|by rewrite Ec].
  - simpl in *. done.
Qed.

Lemma rstrip_split s : exists r, s = (rstrip s +:+ r) /\ all_space r = true.
Proof.
  induction s as [|c s (r & Hr & Hs)]; simpl.
  - by exists EmptyString.
  - destruct (rstrip s) as [|c' t] eqn:E.
    + destruct (isspace c) eqn:Ec.
      * exists (String c r). simpl. rewrite append_nil in *. rewrite Ec, Hs.
        split; [by f_equal|done].
      * exists r. rewrite append_cons. split; [by f_equal|done].
    + exists r. split; [|done]. rewrite append_cons. by f_equal.
Qed.

Lemma lstrip_last s : last_space s = false -> last_space (lstrip s) = false.
Proof.
  induction s as [|c s IH]; [done|].
  intros H. cbn [lstrip]. destruct (isspace c) eqn:E; [|done].
  destruct s; [done|]. by apply IH.
Qed.

Lemma strip_trimmed s : trimmed (strip s).
Proof.
  split; [apply lstrip_first|apply lstrip_last, rstrip_last].
Qed.

Lemma lstrip_id s : first_space s = false -> lstrip s = s.
Proof. destruct s; simpl; [done|]. by intros ->. Qed.

Lemma rstrip_id s : last_space s = false -> rstrip s = s.
Proof.
  induction s as [|c s IH]; simpl; [done|].
  destruct s as [|c' s'].
  - simpl. by intros ->.
  - intros H. rewrite (IH H). done.
Qed.

Lemma strip_id s : trimmed s -> strip s = s.
Proof. intros [H1 H2]. unfold strip. by rewrite (rstrip_id _ H2), lstrip_id. Qed.

Lemma strip_split s :
  exists l r, s = (l +:+ strip s +:+ r) /\ all_space l = true /\ all_space r = true.
Proof.
  destruct (rstrip_split s) as (r & Hr & Hsr).
  destruct (lstrip_split (rstrip s)) as (l & Hl & Hsl).
  exists l, r. split; [|done].
  unfold strip. rewrite Hr at 1. rewrite Hl at 1.
  clear. induction l as [|a l IH]; [done|]. rewrite !append_cons. by f_equal.
Qed.

(** ** Cleaning *)

Lemma clean_value_cleaned v : clean_value v = cleaned v.
Proof.
  unfold clean_value, cleaned, astype_str, str_strip, replace_missing, missing_token.
  set (s := strip (py_str v)).
  destruct (String.eqb_spec s ""); simpl.
  { rewrite bool_decide_eq_true_2; [done|auto]. }
  destruct (String.eqb_spec s "nan"); simpl.
  { rewrite bool_decide_eq_true_2; [done|auto]. }
  destruct (String.eqb_spec s "None"); simpl.
  { rewrite bool_decide_eq_true_2; [done|auto]. }
  rewrite bool_decide_eq_false_2; [done|]. intuition.
Qed.

Lemma cleaned_idem v : cleaned (cleaned v) = cleaned v.
Proof.
  unfold cleaned. simpl.
  destruct (missing_token (strip (py_str v))) eqn:E; [done|].
  rewrite strip_id by apply strip_trimmed. by rewrite E.
Qed.

Lemma clean_categorical_columns_rows df cols :
  Forall (fun c => c ∈ columns df) cols ->
  clean_categorical_columns df cols =
    Returned {| columns := columns df; rows := map (clean_row cols) (rows df) |}.
Proof.
  revert df. induction cols as [|c cols IH]; intros df Hin; simpl.
  - destruct df. simpl. by rewrite map_id.
  - apply Forall_cons in Hin as [Hc Hin].
    unfold has_column. rewrite bool_decide_eq_true_2 by done.
    rewrite IH by done. simpl. by rewrite map_map.
Qed.

Lemma cell_insert_eq (r : gmap string value) c v : cell (<[c := v]> r) c = v.
Proof. unfold cell. by rewrite lookup_insert_eq. Qed.

Lemma cell_insert_ne (r : gmap string value) c c' v :
  c <> c' -> cell (<[c := v]> r) c' = cell r c'.
Proof. intros H. unfold cell. by rewrite lookup_insert_ne. Qed.

Lemma clean_row_cell cols r c :
  cell (clean_row cols r) c = if bool_decide (c ∈ cols) then cleaned (cell r c) else cell r c.
Proof.
  revert r. induction cols as [|c' cols IH]; intros r; simpl; [done|].
  unfold clean_row in *. simpl. rewrite IH.
  destruct (decide (c = c')) as [->|Hne].
  - rewrite (bool_decide_eq_true_2 (c' ∈ c' :: cols)) by left.
    rewrite cell_insert_eq, clean_value_cleaned.
    destruct (bool_decide (c' ∈ cols)); [apply cleaned_idem|done].
  - rewrite cell_insert_ne by done.
    rewrite (bool_decide_ext (c ∈ c' :: cols) (c ∈ cols)); [done|].
    rewrite elem_of_cons. intuition congruence.
Qed.

Lemma clean_row_other cols r c :
  c ∉ cols -> clean_row cols r !! c = r !! c.
Proof.
  revert r. induction cols as [|c' cols IH]; intros r Hc; simpl; [done|].
  apply not_elem_of_cons in Hc as [Hne Hc].
  unfold clean_row in *. simpl. rewrite IH by done. by rewrite lookup_insert_ne.
Qed.

(** C9.  When every named column exists, cleaning returns a frame with the
    same columns and as many rows, in which every cell of a named column is
    [cleaned raw]: the string form of the raw cell, trimmed, and replaced by
    ["Missing"] when that trimmed string is [""], ["nan"] or ["None"]; the
    other cells are untouched.  So the text ["nan"] (or ["None"], or blanks)
    ends up equal to a genuinely missing cell, and a number ends up as the
    string of its digits. *)
Theorem clean_categorical_columns_spec (df : DataFrame) (cols : list string) :
  Forall (fun c => c ∈ columns df) cols ->
  exists df',
    clean_categorical_columns df cols = Returned df' /\
    columns df' = columns df /\
    length (rows df') = length (rows df) /\
    (forall i r, rows df !! i = Some r ->
       exists r', rows df' !! i = Some r' /\
         (forall c, c ∈ cols -> cell r' c = cleaned (cell r c)) /\
         (forall c, c ∉ cols -> r' !! c = r !! c)) /\
    (forall raw, exists s, cleaned raw = VStr s /\ trimmed s) /\
    cleaned (VStr "nan") = cleaned VNaN /\
    cleaned (VStr "None") = cleaned VNone /\
    cleaned (VStr " ") = cleaned VNaN /\
    cleaned VNaN = VStr "Missing" /\ cleaned VNone = VStr "Missing" /\
    cleaned (VNum 42) = VStr "42".
Proof.
  intros Hin. eexists. split; [by apply clean_categorical_columns_rows|].
  simpl. split; [done|]. split; [by rewrite length_map|].
  split.
  { intros i r Hi. exists (clean_row cols r). split.
    - by rewrite list_lookup_fmap, Hi.
    - split.
      + intros c Hc. rewrite clean_row_cell. by rewrite bool_decide_eq_true_2.
      + intros c Hc. by apply clean_row_other. }
  split.
  { intros raw. unfold cleaned. destruct (missing_token _).
    - exists "Missing". split; [done|]. by vm_compute.
    - eexists. split; [done|]. apply strip_trimmed. }
  by vm_compute.
Qed.

(** C9 at a frame with padded text, the text ["nan"], nulls and numbers. *)
Lemma clean_categorical_columns_spec_witness :
  exists df',
    clean_categorical_columns example_raw ["city"; "n"] = Returned df' /\
    columns df' = columns example_raw /\
    length (rows df') = length (rows example_raw) /\
    (forall i r, rows example_raw !! i = Some r ->
       exists r', rows df' !! i = Some r' /\
         (forall c, c ∈ ["city"; "n"] -> cell r' c = cleaned (cell r c)) /\
         (forall c, c ∉ ["city"; "n"] -> r' !! c = r !! c)) /\
    (forall raw, exists s, cleaned raw = VStr s /\ trimmed s) /\
    cleaned (VStr "nan") = cleaned VNaN /\
    cleaned (VStr "None") = cleaned VNone /\
    cleaned (VStr " ") = cleaned VNaN /\
    cleaned VNaN = VStr "Missing" /\ cleaned VNone = VStr "Missing" /\
    cleaned (VNum 42) = VStr "42".
Proof.
  apply (clean_categorical_columns_spec example_raw ["city"; "n"]).
  repeat constructor.
Defined.

(** The cleaned frame of the example, cell by cell. *)
Example clean_example :
  clean_categorical_columns example_raw ["city"; "n"] =
  Returned {| columns := ["city"; "n"];
     rows := [ {[ "city" := VStr "Pune" ; "n" := VStr "3" ]};
               {[ "city" := VStr "Missing" ; "n" := VStr "42" ]};
               {[ "city" := VStr "Missing" ; "n" := VStr "Missing" ]} ] |}.
Proof. vm_compute. reflexivity. Qed.

(** ** Ordering *)

Global Instance value_le_total : Total value_le.
Proof.
  intros a b. unfold value_le.
  destruct a as [s|x| |], b as [t|y| |]; simpl; auto.
  - apply String.leb_total.
  - destruct (Z.leb_spec x y); [by left|right]. apply Z.leb_le. lia.
Qed.

Lemma unique_sorted_NoDup l : NoDup (unique_sorted l).
Proof.
  unfold unique_sorted. rewrite merge_sort_Permutation. apply NoDup_remove_dups.
Qed.

Lemma elem_of_unique_sorted l v : v ∈ unique_sorted l <-> v ∈ l.
Proof.
  unfold unique_sorted. rewrite merge_sort_Permutation. apply elem_of_remove_dups.
Qed.

Lemma unique_sorted_Sorted l : Sorted value_le (unique_sorted l).
Proof. apply Sorted_merge_sort, _. Qed.

Lemma elem_of_notnull l v : v ∈ notnull l <-> v ∈ l /\ is_null v = false.
Proof. unfold notnull. rewrite list_elem_of_filter. tauto. Qed.

(** ** By-key batching *)

Lemma rows_with_nonempty c k rs :
  k ∈ map (fun r => cell r c) rs -> rows_with c k rs <> [].
Proof.
  intros Hk Hnil. apply list_elem_of_fmap in Hk as (r & -> & Hr).
  assert (r ∈ rows_with c (cell r c) rs) as Hin.
  { unfold rows_with. by apply list_elem_of_filter. }
  rewrite Hnil in Hin. by apply not_elem_of_nil in Hin.
Qed.

(** C4, as amended.  The by-key partitioner returns one batch per distinct
    non-null value of the key column, the keys in ascending order (not in
    order of first occurrence); no batch is empty, and a batch holds exactly
    the records of its key.  On five records with keys [A, A, B, B, B] it
    returns two batches, of sizes 2 and 3, for [A] then [B]. *)
Theorem define_batches_by_column_sorted_keys (df : DataFrame) (c : string) :
  c ∈ columns df ->
  (exists keys,
    define_batches_by_column df c = Returned (map (keyed_batch df c) keys) /\
    NoDup keys /\
    Sorted value_le keys /\
    (forall k, k ∈ keys <-> k ∈ series df c /\ is_null k = false) /\
    (forall k, k ∈ keys -> rows (keyed_batch df c k) <> []) /\
    (forall k r, r ∈ rows (keyed_batch df c k) <-> r ∈ rows df /\ cell r c = k)) /\
  (exists bA bB,
    define_batches_by_column example_keys "key" = Returned [bA; bB] /\
    length (rows bA) = 2%nat /\ length (rows bB) = 3%nat /\
    batch_key "key" bA = VStr "A" /\ batch_key "key" bB = VStr "B").
Proof.
  intros Hc. split; [|do 2 eexists; by vm_compute].
  exists (unique_sorted (notnull (series df c))).
  split.
  { unfold define_batches_by_column, has_column, groupby, reset_index.
    rewrite bool_decide_eq_true_2 by done. by rewrite map_map. }
  split; [apply unique_sorted_NoDup|].
  split; [apply unique_sorted_Sorted|].
  split.
  { intros k. by rewrite elem_of_unique_sorted, elem_of_notnull. }
  split.
  { intros k Hk. apply elem_of_unique_sorted, elem_of_notnull in Hk as [Hk _].
    by apply rows_with_nonempty. }
  intros k r. simpl. unfold rows_with. by rewrite list_elem_of_filter, (comm and).
Qed.

(** C4 at the frame whose keys are [B, A]. *)
Lemma define_batches_by_column_sorted_keys_witness :
  (exists keys,
    define_batches_by_column example_keys_BA "key" =
      Returned (map (keyed_batch example_keys_BA "key") keys) /\
    NoDup keys /\
    Sorted value_le keys /\
    (forall k, k ∈ keys <-> k ∈ series example_keys_BA "key" /\ is_null k = false) /\
    (forall k, k ∈ keys -> rows (keyed_batch example_keys_BA "key" k) <> []) /\
    (forall k r, r ∈ rows (keyed_batch example_keys_BA "key" k) <->
                 r ∈ rows example_keys_BA /\ cell r "key" = k)) /\
  (exists bA bB,
    define_batches_by_column example_keys "key" = Returned [bA; bB] /\
    length (rows bA) = 2%nat /\ length (rows bB) = 3%nat /\
    batch_key "key" bA = VStr "A" /\ batch_key "key" bB = VStr "B").
Proof.
  apply (define_batches_by_column_sorted_keys example_keys_BA "key").
  repeat constructor.
Defined.

(** C4 as stated fails: on keys [B, A] the batches come out for [A] then
    [B], while the order of first occurrence is [B, A]. *)
Lemma define_batches_not_first_occurrence :
  first_occurrences (series example_keys_BA "key") = [VStr "B"; VStr "A"] /\
  exists bs,
    define_batches_by_column example_keys_BA "key" = Returned bs /\
    map (batch_key "key") bs = [VStr "A"; VStr "B"] /\
    map (batch_key "key") bs <> first_occurrences (series example_keys_BA "key").
Proof. split; [by vm_compute|]. eexists. by vm_compute. Qed.

(** ** Sorting *)

Global Instance row_le_total by_col ascending : Total (row_le by_col ascending).
Proof.
  intros r1 r2. unfold row_le, key_leb.
  destruct (is_null (cell r2 by_col)) eqn:E2; [by left|].
  destruct (is_null (cell r1 by_col)) eqn:E1; [by right|].
  destruct ascending; apply (total value_le).
Qed.

Lemma sort_values_returns df by_col ascending :
  by_col ∈ columns df -> mixed (series df by_col) = false ->
  sort_values df by_col ascending =
    Returned {| columns := columns df;
                rows := merge_sort (row_le by_col ascending) (rows df) |}.
Proof.
  intros Hc Hm. unfold sort_values, has_column.
  by rewrite bool_decide_eq_true_2, Hm.
Qed.

Lemma sort_values_sorted df by_col ascending sorted :
  sort_values df by_col ascending = Returned sorted ->
  columns sorted = columns df /\
  rows sorted ≡ₚ rows df /\
  Sorted (row_le by_col ascending) (rows sorted) /\
  len sorted = len df.
Proof.
  unfold sort_values. destruct (has_column df by_col); [|done].
  destruct (mixed _); [done|]. intros [= <-]. simpl.
  split; [done|]. split; [apply merge_sort_Permutation|].
  split; [apply Sorted_merge_sort, _|].
  unfold len. simpl. by rewrite merge_sort_Permutation.
Qed.

(** ** Slices *)

Lemma slice_bound_id n i : 0 <= i <= n -> slice_bound n i = i.
Proof. intros H. unfold slice_bound. destruct (Z.ltb_spec i 0); lia. Qed.

Lemma iloc_rows df s e :
  0 <= s <= e -> e <= len df ->
  rows (iloc df s e) = take (Z.to_nat (e - s)) (drop (Z.to_nat s) (rows df)).
Proof.
  intros Hs He. unfold iloc. simpl.
  by rewrite !slice_bound_id by lia.
Qed.

Lemma iloc_whole df : iloc df 0 (len df) = df.
Proof.
  destruct df as [cs rs]. unfold iloc, len. simpl.
  rewrite !slice_bound_id by lia. simpl.
  rewrite Z.sub_0_r, Nat2Z.id, firstn_all. done.
Qed.

Lemma iloc_lookup df s e (j : nat) :
  0 <= s <= e -> e <= len df -> s + Z.of_nat j < e ->
  rows (iloc df s e) !! j = rows df !! (Z.to_nat s + j)%nat.
Proof.
  intros Hs He Hj. rewrite iloc_rows by done.
  rewrite lookup_take_lt by lia. by rewrite lookup_drop.
Qed.

Lemma iloc_length df s e :
  0 <= s <= e -> e <= len df -> len (iloc df s e) = e - s.
Proof.
  intros Hs He. unfold len at 1. rewrite iloc_rows by done.
  rewrite length_take, length_drop. unfold len in He. lia.
Qed.

(** ** The sliding-window loop *)

Lemma sliding_loop_spec df ws step :
  1 <= step -> 1 <= ws ->
  forall fuel start,
    0 <= start -> (Z.to_nat (len df - start) < fuel)%nat ->
    exists bs,
      sliding_loop fuel df (len df) ws step start = Some bs /\
      (start < len df -> bs <> []) /\
      (forall (k : nat) b, bs !! k = Some b ->
         let s := start + Z.of_nat k * step in
         s < len df /\
         b = iloc df s (Z.min (s + ws) (len df)) /\
         ((S k < length bs)%nat -> s + ws < len df)) /\
      (step <= ws ->
         (forall (k : nat), S k = length bs ->
            len df <= start + Z.of_nat k * step + ws) /\
         (forall i, start <= i < len df ->
            exists k : nat, (k < length bs)%nat /\
              start + Z.of_nat k * step <= i < start + Z.of_nat k * step + ws)).
Proof.
  intros Hstep Hws. induction fuel as [|fuel IH]; intros start Hstart Hfuel; [lia|].
  simpl. destruct (Z.ltb_spec start (len df)) as [Hlt|Hge].
  2:{ exists []. split; [done|]. split; [lia|]. split; [by intros k b ?|].
      intros _. split; [by intros k ?|]. intros i ?. lia. }
  unfold reset_index.
  destruct (Z.eqb_spec (Z.min (start + ws) (len df)) (len df)) as [Heq|Hne].
  - eexists. split; [done|]. split; [done|]. split.
    + intros [|k] b Hk; [|done]. injection Hk as <-. simpl.
      rewrite Z.add_0_r. split; [done|]. split; [done|]. lia.
    + intros _. split.
      * intros k [= ->]. lia.
      * intros i Hi. exists 0%nat. simpl. lia.
  - destruct (IH (start + step)) as (bs & -> & Hne' & Hk & Hcov); [lia|lia|].
    simpl. eexists. split; [done|]. split; [done|]. split.
    + intros [|k] b Hb.
      * injection Hb as <-. simpl. rewrite Z.add_0_r.
        split; [done|]. split; [done|]. lia.
      * simpl in Hb. destruct (Hk k b Hb) as (H1 & H2 & H3).
        simpl. replace (start + Z.of_nat (S k) * step)
          with (start + step + Z.of_nat k * step) by lia.
        split; [done|]. split; [done|]. intros ?. apply H3. simpl in *. lia.
    + intros Hsw. destruct (Hcov Hsw) as [Hlast Hc]. split.
      * intros [|k] Hlen; simpl in Hlen.
        -- destruct bs; [|done]. exfalso. apply Hne'; [lia|done].
        -- specialize (Hlast k). lia.
      * intros i Hi. destruct (Z.lt_ge_cases i (start + step)) as [Hi'|Hi'].
        -- exists 0%nat. simpl. lia.
        -- destruct (Hc i) as (k & Hk1 & Hk2); [lia|].
           exists (S k). simpl. lia.
Qed.

(** Which batches the loop emits: batch [k] exists exactly when its start
    lies in the dataset and the batch before it stopped short of the end. *)
Lemma sliding_loop_count df ws step :
  1 <= step -> 1 <= ws ->
  forall fuel start bs,
    sliding_loop fuel df (len df) ws step start = Some bs ->
    forall k : nat,
      (k < length bs)%nat <->
      start + Z.of_nat k * step < len df /\
      (k = 0%nat \/ start + (Z.of_nat k - 1) * step + ws < len df).
Proof.
  intros Hstep Hws. induction fuel as [|fuel IH]; intros start bs Hbs k; [done|].
  simpl in Hbs. destruct (Z.ltb_spec start (len df)) as [Hlt|Hge].
  2:{ injection Hbs as <-. simpl. split; [lia|]. intros [H _]. nia. }
  destruct (Z.eqb_spec (Z.min (start + ws) (len df)) (len df)) as [Heq|Hne].
  - injection Hbs as <-. simpl. split.
    + intros Hk. assert (k = 0%nat) as -> by lia. split; [lia|by left].
    + intros [_ [->|H]]; [lia|]. nia.
  - destruct (sliding_loop fuel df (len df) ws step (start + step)) as [rest|] eqn:E;
      [|done].
    simpl in Hbs. injection Hbs as <-. destruct k as [|k].
    + simpl. split; [|lia]. intros _. split; [lia|by left].
    + specialize (IH _ _ E k). simpl. split.
      * intros Hk. assert (k < length rest)%nat as Hk' by lia.
        apply IH in Hk' as [H1 [->|H2]]; (split; [lia|right; lia]).
      * intros [H1 [?|H2]]; [done|]. assert (k < length rest)%nat; [|lia].
        apply IH. split; [lia|]. destruct k as [|k]; [by left|right; lia].
Qed.

(** C1 as stated fails: with [step = 0] and a window that holds the whole
    dataset the call returns one batch; nothing is raised. *)
Lemma sliding_window_step0_returns :
  sliding_window_batches 1 example_times "t" 5 0 true =
    Some (Returned [example_times_sorted]).
Proof. by vm_compute. Qed.

(** C1, as amended.  The partitioner does not look at [step] before it
    starts: whatever [step] is (0 and negative values included), once the
    sort has succeeded the call never raises; on an empty dataset it returns
    no batch, and when the first window already holds the whole dataset it
    returns that one batch.  Rejecting [step < 1] is left to the caller. *)
Theorem sliding_window_step_not_validated
    (df : DataFrame) (time_col : string) (window_size step : Z)
    (sort_ascending : bool) (sorted : DataFrame) :
  sort_values df time_col sort_ascending = Returned sorted ->
  (forall fuel e,
     sliding_window_batches fuel df time_col window_size step sort_ascending
       <> Some (Raised e)) /\
  (len sorted = 0 ->
   forall fuel,
     sliding_window_batches (S fuel) df time_col window_size step sort_ascending
       = Some (Returned [])) /\
  (0 < len sorted <= window_size ->
   forall fuel,
     sliding_window_batches (S fuel) df time_col window_size step sort_ascending
       = Some (Returned [sorted])).
Proof.
  intros Hsort. unfold sliding_window_batches. rewrite Hsort. unfold reset_index.
  split; [|split].
  - intros fuel e. by destruct (sliding_loop _ _ _ _ _ _).
  - intros Hn fuel. simpl. rewrite Hn. done.
  - intros Hn fuel. simpl.
    destruct (Z.ltb_spec 0 (len sorted)); [|lia].
    rewrite Z.min_r by lia. rewrite Z.eqb_refl. simpl.
    by rewrite iloc_whole.
Qed.

(** C1 at three records, a window of 5 and [step = 0]. *)
Lemma sliding_window_step_not_validated_witness :
  (forall fuel e,
     sliding_window_batches fuel example_times "t" 5 0 true <> Some (Raised e)) /\
  (len example_times_sorted = 0 ->
   forall fuel,
     sliding_window_batches (S fuel) example_times "t" 5 0 true = Some (Returned [])) /\
  (0 < len example_times_sorted <= 5 ->
   forall fuel,
     sliding_window_batches (S fuel) example_times "t" 5 0 true
       = Some (Returned [example_times_sorted])).
Proof.
  apply (sliding_window_step_not_validated example_times "t" 5 0 true example_times_sorted).
  by vm_compute.
Defined.

Lemma sliding_loop_step0_stuck df ws fuel :
  0 < len df -> ws < len df ->
  sliding_loop fuel df (len df) ws 0 0 = None.
Proof.
  intros Hn Hws. generalize dependent (len df). intros n Hn Hws.
  induction fuel as [|fuel IH]; [done|].
  simpl. rewrite !Z.add_0_l. destruct (Z.ltb_spec 0 n); [|lia].
  destruct (Z.eqb_spec (Z.min ws n) n); [lia|].
  by rewrite IH.
Qed.

(** X7.  With [step = 0] and a window shorter than a non-empty dataset the loop
    never ends: whatever the fuel, the call has not returned. *)
Theorem sliding_window_step0_diverges
    (df : DataFrame) (time_col : string) (window_size : Z)
    (sort_ascending : bool) (sorted : DataFrame) :
  sort_values df time_col sort_ascending = Returned sorted ->
  0 < len sorted -> window_size < len sorted ->
  forall fuel,
    sliding_window_batches fuel df time_col window_size 0 sort_ascending = None.
Proof.
  intros Hsort Hn Hws fuel. unfold sliding_window_batches. rewrite Hsort.
  unfold reset_index. by rewrite sliding_loop_step0_stuck.
Qed.

(** The divergence at three records, a window of 2 and [step = 0]. *)
Lemma sliding_window_step0_diverges_witness :
  sliding_window_batches 1000 example_times "t" 2 0 true = None.
Proof.
  apply (sliding_window_step0_diverges example_times "t" 2 true example_times_sorted).
  - by vm_compute.
  - by vm_compute.
  - by vm_compute.
Defined.

(** C8, as amended.  For [step >= 1] and [window_size >= 1], once the sort
    has succeeded: the sorted frame is a permutation of the dataset, ordered
    by the column in the direction of the flag; with enough fuel the call
    returns.  Batch [k] is emitted exactly when [k * step < n] and the batch
    before it stopped short of the end, so a dataset with a record gives at
    least one batch; batch [k] is the slice of the sorted frame from
    [k * step] to [min (k * step + window_size) n], is not empty and has at
    most [window_size] records; every batch but the last has exactly
    [window_size] records and stops short of the end, and the last batch
    reaches the end unless the next window would start past it.  When
    moreover [step <= window_size], the last batch ends at the end of the
    dataset and every record of the sorted frame lies in some batch. *)
Theorem sliding_window_batches_spec
    (df : DataFrame) (time_col : string) (window_size step : Z)
    (sort_ascending : bool) (sorted : DataFrame) :
  sort_values df time_col sort_ascending = Returned sorted ->
  1 <= step -> 1 <= window_size ->
  columns sorted = columns df /\
  rows sorted ≡ₚ rows df /\
  Sorted (row_le time_col sort_ascending) (rows sorted) /\
  exists batches,
    (forall fuel, (Z.to_nat (len sorted) < fuel)%nat ->
       sliding_window_batches fuel df time_col window_size step sort_ascending
         = Some (Returned batches)) /\
    (forall k : nat,
       (k < length batches)%nat <->
       Z.of_nat k * step < len sorted /\
       (k = 0%nat \/ (Z.of_nat k - 1) * step + window_size < len sorted)) /\
    (0 < len sorted -> batches <> []) /\
    (forall (k : nat) b, batches !! k = Some b ->
       let s := Z.of_nat k * step in
       s < len sorted /\
       b = iloc sorted s (Z.min (s + window_size) (len sorted)) /\
       0 < len b <= window_size /\
       ((S k < length batches)%nat ->
          len b = window_size /\ s + window_size < len sorted) /\
       (S k = length batches ->
          s + len b = len sorted \/ len sorted <= s + step)) /\
    (step <= window_size ->
       (forall (k : nat) b, batches !! k = Some b -> S k = length batches ->
          Z.of_nat k * step + len b = len sorted) /\
       (forall (i : nat) r, rows sorted !! i = Some r ->
          exists (k : nat) b (j : nat),
            batches !! k = Some b /\ rows b !! j = Some r /\
            Z.of_nat i = Z.of_nat k * step + Z.of_nat j)).
Proof.
  intros Hsort Hstep Hws.
  destruct (sort_values_sorted _ _ _ _ Hsort) as (Hcols & Hperm & Hsorted & _).
  do 3 (split; [done|]).
  assert (0 <= len sorted) as Hn0 by (unfold len; lia).
  destruct (sliding_loop_spec sorted window_size step Hstep Hws
              (S (Z.to_nat (len sorted))) 0) as (bs & Hbs & Hne & Hk & Hcov);
    [lia|lia|].
  pose proof (sliding_loop_count sorted window_size step Hstep Hws _ _ _ Hbs) as Hcount.
  exists bs.
  assert (forall (k : nat) b, bs !! k = Some b ->
            let s := Z.of_nat k * step in
            0 <= s /\ s < len sorted /\
            b = iloc sorted s (Z.min (s + window_size) (len sorted)) /\
            len b = Z.min (s + window_size) (len sorted) - s) as Hb.
  { intros k b Hkb s. destruct (Hk k b Hkb) as (H1 & H2 & _).
    rewrite Z.add_0_l in H1, H2. fold s in H1, H2.
    assert (0 <= s) by (unfold s; nia).
    do 3 (split; [done|]). rewrite H2. apply iloc_length; lia. }
  split; [|split; [|split; [|split]]].
  - intros fuel Hfuel. unfold sliding_window_batches. rewrite Hsort.
    unfold reset_index.
    destruct (sliding_loop_spec sorted window_size step Hstep Hws fuel 0)
      as (bs' & Hbs' & _); [lia|lia|].
    rewrite Hbs'. simpl.
    destruct fuel as [|fuel]; [lia|].
    assert (bs' = bs) as ->; [|done].
    clear -Hbs Hbs' Hfuel Hstep Hws Hn0.
    assert (forall f1 f2 start l1 l2,
              sliding_loop f1 sorted (len sorted) window_size step start = Some l1 ->
              sliding_loop f2 sorted (len sorted) window_size step start = Some l2 ->
              l1 = l2) as Hdet.
    { clear. induction f1 as [|f1 IH]; intros [|f2] start l1 l2; simpl; try done.
      destruct (_ <? _); [|congruence].
      destruct (_ =? _); [congruence|].
      destruct (sliding_loop f1 _ _ _ _ _) as [r1|] eqn:E1; [|done].
      destruct (sliding_loop f2 _ _ _ _ _) as [r2|] eqn:E2; [|done].
      simpl. intros [= <-] [= <-]. f_equal. eapply IH; eauto. }
    eapply Hdet; eauto.
  - intros k. rewrite (Hcount k), !Z.add_0_l. done.
  - exact Hne.
  - intros k b Hkb s. destruct (Hb k b Hkb) as (H0 & H1 & H2 & H3). fold s in H3.
    split; [done|]. split; [done|]. split; [lia|]. split.
    + intros Hlast. destruct (Hk k b Hkb) as (_ & _ & H4).
      specialize (H4 Hlast). rewrite Z.add_0_l in H4. fold s in H4. lia.
    + intros Hlast.
      destruct (Z.lt_ge_cases (s + window_size) (len sorted)) as [Hshort|Hend]; [|lia].
      destruct (Z.lt_ge_cases (s + step) (len sorted)) as [Hnext|Hpast]; [|by right].
      exfalso. assert (S k < length bs)%nat; [|lia].
      apply Hcount. rewrite !Z.add_0_l. unfold s in *. split; [lia|right; lia].
  - intros Hsw. destruct (Hcov Hsw) as [Hlast Hc]. split.
    + intros k b Hkb Hlen. destruct (Hb k b Hkb) as (H0 & H1 & H2 & H3).
      specialize (Hlast k Hlen). lia.
    + intros i r Hi.
      assert (Z.of_nat i < len sorted) as Hilt.
      { apply lookup_lt_Some in Hi. unfold len. lia. }
      destruct (Hc (Z.of_nat i)) as (k & Hklt & Hki); [lia|].
      destruct (lookup_lt_is_Some_2 bs k Hklt) as [b Hkb].
      destruct (Hb k b Hkb) as (H0 & H1 & H2 & H3).
      rewrite Z.add_0_l in Hki.
      exists k, b, (Z.to_nat (Z.of_nat i - Z.of_nat k * step)).
      split; [done|]. split; [|lia].
      rewrite H2, iloc_lookup by lia. rewrite <- Hi. f_equal. lia.
Qed.

(** C8 at three records, a window of 2 and a step of 1. *)
Lemma sliding_window_batches_spec_witness :
  columns example_times_sorted = columns example_times /\
  rows example_times_sorted ≡ₚ rows example_times /\
  Sorted (row_le "t" true) (rows example_times_sorted) /\
  exists batches,
    (forall fuel, (Z.to_nat (len example_times_sorted) < fuel)%nat ->
       sliding_window_batches fuel example_times "t" 2 1 true
         = Some (Returned batches)) /\
    (forall k : nat,
       (k < length batches)%nat <->
       Z.of_nat k * 1 < len example_times_sorted /\
       (k = 0%nat \/ (Z.of_nat k - 1) * 1 + 2 < len example_times_sorted)) /\
    (0 < len example_times_sorted -> batches <> []) /\
    (forall (k : nat) b, batches !! k = Some b ->
       let s := Z.of_nat k * 1 in
       s < len example_times_sorted /\
       b = iloc example_times_sorted s (Z.min (s + 2) (len example_times_sorted)) /\
       0 < len b <= 2 /\
       ((S k < length batches)%nat ->
          len b = 2 /\ s + 2 < len example_times_sorted) /\
       (S k = length batches ->
          s + len b = len example_times_sorted \/ len example_times_sorted <= s + 1)) /\
    (1 <= 2 ->
       (forall (k : nat) b, batches !! k = Some b -> S k = length batches ->
          Z.of_nat k * 1 + len b = len example_times_sorted) /\
       (forall (i : nat) r, rows example_times_sorted !! i = Some r ->
          exists (k : nat) b (j : nat),
            batches !! k = Some b /\ rows b !! j = Some r /\
            Z.of_nat i = Z.of_nat k * 1 + Z.of_nat j)).
Proof.
  apply (sliding_window_batches_spec example_times "t" 2 1 true example_times_sorted).
  - by vm_compute.
  - lia.
  - lia.
Defined.

(** Overlapping windows, ascending. *)
Example sliding_window_2_1 :
  sliding_window_batches 4 example_times "t" 2 1 true =
  Some (Returned
    [ {| columns := ["t"]; rows := [ {[ "t" := VNum 10 ]}; {[ "t" := VNum 20 ]} ] |};
      {| columns := ["t"]; rows := [ {[ "t" := VNum 20 ]}; {[ "t" := VNum 30 ]} ] |} ]).
Proof. by vm_compute. Qed.

(** Disjoint windows, descending; the last one is shorter. *)
Example sliding_window_descending :
  sliding_window_batches 4 example_times "t" 2 2 false =
  Some (Returned
    [ {| columns := ["t"]; rows := [ {[ "t" := VNum 30 ]}; {[ "t" := VNum 20 ]} ] |};
      {| columns := ["t"]; rows := [ {[ "t" := VNum 10 ]} ] |} ]).
Proof. by vm_compute. Qed.

(** C8 as stated fails: with [step = 2] and a window of 1 the middle record
    of three is in no batch; and with [step = 1] and a window of 0 every
    batch is empty. *)
Lemma sliding_window_skips_records :
  sort_values example_times "t" true = Returned example_times_sorted /\
  (exists batches r,
     sliding_window_batches 4 example_times "t" 1 2 true = Some (Returned batches) /\
     r ∈ rows example_times_sorted /\
     forall b, b ∈ batches -> r ∉ rows b) /\
  (exists batches,
     sliding_window_batches 4 example_times "t" 0 1 true = Some (Returned batches) /\
     length batches = 3%nat /\
     Forall (fun b => rows b = []) batches).
Proof.
  split; [by vm_compute|]. split.
  2:{ eexists. split; [by vm_compute|]. split; [done|]. by repeat constructor. }
  eexists _, ({[ "t" := VNum 20 ]} : gmap string value).
  split; [by vm_compute|]. split.
  - apply list_elem_of_lookup. exists 1%nat. by vm_compute.
  - intros b Hb Hr.
    repeat (apply elem_of_cons in Hb as [->|Hb]);
      [| |by apply not_elem_of_nil in Hb].
    + simpl in Hr. apply list_elem_of_singleton in Hr.
      apply (f_equal (fun m : gmap string value => m !! "t")) in Hr.
      by vm_compute in Hr.
    + simpl in Hr. apply list_elem_of_singleton in Hr.
      apply (f_equal (fun m : gmap string value => m !! "t")) in Hr.
      by vm_compute in Hr.
Qed.

(** ** Sums of counts *)

Lemma zsum_map_plus {A} (f g : A -> Z) l :
  zsum (map (fun x => f x + g x) l) = zsum (map f l) + zsum (map g l).
Proof. induction l as [|x l IH]; simpl; lia. Qed.

Lemma zsum_map_zero {A} (l : list A) : zsum (map (fun _ => 0) l) = 0.
Proof. induction l as [|x l IH]; simpl; lia. Qed.

Lemma zsum_map_ext {A} (f g : A -> Z) l :
  (forall x, x ∈ l -> f x = g x) -> zsum (map f l) = zsum (map g l).
Proof.
  induction l as [|x l IH]; intros H; simpl; [done|].
  rewrite H by left. rewrite IH; [done|]. intros y Hy. apply H. by right.
Qed.

Lemma zsum_nonneg l : Forall (fun x => 0 <= x) l -> 0 <= zsum l.
Proof. induction 1; simpl; lia. Qed.

Lemma length_filter_cons {A} (P : A -> Prop) `{forall x, Decision (P x)} x l :
  Z.of_nat (length (filter P (x :: l))) = indicator (P x) + Z.of_nat (length (filter P l)).
Proof.
  rewrite filter_cons. unfold indicator. destruct (decide (P x)); simpl; lia.
Qed.

Lemma zsum_indicator {A B} `{EqDecision B} (key : A -> B) (Q : A -> Prop)
    `{forall x, Decision (Q x)} (p : A) (L : list B) :
  NoDup L ->
  zsum (map (fun k => indicator (key p = k /\ Q p)) L) = indicator (key p ∈ L /\ Q p).
Proof.
  induction 1 as [|k L Hk Hnd IH]; simpl.
  - unfold indicator. destruct (decide _) as [[H' _]|]; [|done].
    by apply not_elem_of_nil in H'.
  - rewrite IH. unfold indicator.
    repeat destruct (decide _); try lia; exfalso;
      repeat match goal with
             | H : _ /\ _ |- _ => destruct H
             | H : _ ∈ _ :: _ |- _ => apply elem_of_cons in H as [?|?]
             end; subst;
      rewrite ?elem_of_cons in *; intuition.
Qed.

(** Counting by key: the counts of the keys of a duplicate-free list add up
    to the count of the elements whose key is in the list. *)
Lemma zsum_count_by {A B} `{EqDecision B} (key : A -> B) (Q : A -> Prop)
    `{forall x, Decision (Q x)} (L : list B) (ps : list A) :
  NoDup L ->
  zsum (map (fun k => Z.of_nat (length (filter (fun p => key p = k /\ Q p) ps))) L)
  = Z.of_nat (length (filter (fun p => key p ∈ L /\ Q p) ps)).
Proof.
  intros Hnd. induction ps as [|p ps IH].
  - simpl. apply zsum_map_zero.
  - transitivity
      (zsum (map (fun k => indicator (key p = k /\ Q p)
                           + Z.of_nat (length (filter (fun p => key p = k /\ Q p) ps))) L)).
    { apply zsum_map_ext. intros k _. rewrite filter_cons. unfold indicator.
      destruct (decide _); simpl; lia. }
    rewrite zsum_map_plus, IH, (zsum_indicator key Q p L Hnd).
    rewrite filter_cons. unfold indicator. destruct (decide _); simpl; lia.
Qed.

Lemma filter_all {A} (P : A -> Prop) `{forall x, Decision (P x)} (l : list A) :
  Forall P l -> filter P l = l.
Proof.
  induction 1 as [|x l Hx Hl IH]; [done|].
  rewrite filter_cons, decide_True by done. by rewrite IH.
Qed.

Lemma length_filter_ext {A} (P Q : A -> Prop) `{forall x, Decision (P x)}
    `{forall x, Decision (Q x)} (l : list A) :
  (forall x, x ∈ l -> P x <-> Q x) -> length (filter P l) = length (filter Q l).
Proof.
  induction l as [|x l IH]; intros HPQ; [done|].
  rewrite !filter_cons.
  assert (length (filter P l) = length (filter Q l)) as IH'.
  { apply IH. intros y Hy. apply HPQ. by right. }
  destruct (decide (P x)) as [HP|HP], (decide (Q x)) as [HQ|HQ]; simpl; try lia.
  - exfalso. apply HQ, HPQ; [left|done].
  - exfalso. apply HP, HPQ; [left|done].
Qed.

(** ** The cross-tabulation *)

Lemma row_sum_count r cols ps :
  NoDup cols ->
  zsum (map (fun c => count_pair r c ps) cols)
  = Z.of_nat (length (filter (fun p => snd p ∈ cols /\ fst p = r) ps)).
Proof.
  intros Hnd. rewrite <- (zsum_count_by snd (fun p => fst p = r) cols ps Hnd).
  apply zsum_map_ext. intros c _. unfold count_pair. f_equal.
  apply length_filter_ext. intros [a b] _. simpl. split.
  - by intros [= -> ->].
  - by intros [-> ->].
Qed.

Lemma crosstab_sum_pairs idx cols ps :
  NoDup idx -> NoDup cols ->
  zsum (map zsum (map (fun r => map (fun c => count_pair r c ps) cols) idx))
  = Z.of_nat (length (filter (fun p => fst p ∈ idx /\ snd p ∈ cols) ps)).
Proof.
  intros Hi Hc. rewrite map_map.
  rewrite <- (zsum_count_by fst (fun p => snd p ∈ cols) idx ps Hi).
  apply zsum_map_ext. intros r _. rewrite row_sum_count by done.
  f_equal. apply length_filter_ext. intros p _. tauto.
Qed.

Lemma crosstab_sum rs cs :
  table_sum (crosstab rs cs) = Z.of_nat (length (kept_pairs rs cs)).
Proof.
  unfold table_sum, crosstab. simpl.
  rewrite crosstab_sum_pairs by apply unique_sorted_NoDup.
  f_equal. f_equal. apply filter_all, Forall_forall. intros p Hp.
  rewrite !elem_of_unique_sorted. split.
  - apply list_elem_of_fmap. by exists p.
  - apply list_elem_of_fmap. by exists p.
Qed.

Lemma kept_pairs_series df row col :
  length (kept_pairs (series df row) (series df col))
  = length (filter (fun r => is_null (cell r row) = false /\ is_null (cell r col) = false)
                   (rows df)).
Proof.
  unfold kept_pairs, series. induction (rows df) as [|r l IH]; [done|].
  simpl. rewrite !filter_cons. unfold both_notnull at 1. simpl.
  destruct (decide _); simpl; by rewrite IH.
Qed.

(** C3 as stated fails: of two records, the one whose row label is null is
    not counted, and the cells add up to 1. *)
Lemma crosstab_drops_null_records :
  len example_with_null = 2 /\
  exists t,
    build_contingency_table example_with_null "region" "mood" = Returned t /\
    table_sum t = 1.
Proof. split; [done|]. eexists. by vm_compute. Qed.

(** C3, as amended.  When both columns exist, the cells of the table add up
    to the number of records in which neither of the two cells is null; so
    they add up to the number of records of the batch when the two columns
    hold no null, as after cleaning. *)
Theorem build_contingency_table_sum (df : DataFrame) (row col : string) :
  row ∈ columns df -> col ∈ columns df ->
  exists t,
    build_contingency_table df row col = Returned t /\
    table_sum t =
      Z.of_nat (length (filter (fun r => is_null (cell r row) = false /\
                                         is_null (cell r col) = false) (rows df))) /\
    ((forall r, r ∈ rows df ->
        is_null (cell r row) = false /\ is_null (cell r col) = false) ->
     table_sum t = len df).
Proof.
  intros Hrow Hcol. eexists. split.
  { unfold build_contingency_table, has_column.
    by rewrite !bool_decide_eq_true_2 by done. }
  rewrite crosstab_sum, kept_pairs_series. split; [done|].
  intros Hnn. unfold len. f_equal. f_equal.
  apply filter_all, Forall_forall. exact Hnn.
Qed.

(** C3 at a batch of three complete records. *)
Lemma build_contingency_table_sum_witness :
  exists t,
    build_contingency_table example_survey "region" "mood" = Returned t /\
    table_sum t =
      Z.of_nat (length (filter (fun r => is_null (cell r "region") = false /\
                                         is_null (cell r "mood") = false)
                               (rows example_survey))) /\
    ((forall r, r ∈ rows example_survey ->
        is_null (cell r "region") = false /\ is_null (cell r "mood") = false) ->
     table_sum t = len example_survey).
Proof.
  apply (build_contingency_table_sum example_survey "region" "mood").
  - repeat constructor.
  - repeat constructor.
Defined.

(** The table of the example: labels ascending, one count per pair. *)
Example build_contingency_table_survey :
  build_contingency_table example_survey "region" "mood" =
  Returned {| index := [VStr "North"; VStr "South"];
              labels := [VStr "Negative"; VStr "Positive"];
              counts := [[1; 1]; [1; 0]] |}.
Proof. by vm_compute. Qed.

(** ** Every cross-tabulation is a valid contingency table *)

Lemma col_sum_count c idx ps :
  NoDup idx ->
  zsum (map (fun r => count_pair r c ps) idx)
  = Z.of_nat (length (filter (fun p => fst p ∈ idx /\ snd p = c) ps)).
Proof.
  intros Hnd. rewrite <- (zsum_count_by fst (fun p => snd p = c) idx ps Hnd).
  apply zsum_map_ext. intros r _. unfold count_pair. f_equal.
  apply length_filter_ext. intros [a b] _. simpl. split.
  - by intros [= -> ->].
  - by intros [-> ->].
Qed.

Lemma length_filter_pos {A} (P : A -> Prop) `{forall x, Decision (P x)} (l : list A) x :
  x ∈ l -> P x -> 0 < Z.of_nat (length (filter P l)).
Proof.
  intros Hx HP. assert (x ∈ filter P l) as Hin by by apply list_elem_of_filter.
  destruct (filter P l); [by apply not_elem_of_nil in Hin|simpl; lia].
Qed.

(** Whatever the two series, the cross-tabulation is rectangular, has no
    negative count and no row or column that adds up to zero. *)
Theorem crosstab_valid (rs cs : list value) : valid_table (crosstab rs cs).
Proof.
  set (ps := kept_pairs rs cs).
  assert (forall p, p ∈ ps ->
            fst p ∈ unique_sorted (map fst ps) /\ snd p ∈ unique_sorted (map snd ps)) as Hin.
  { intros p Hp. rewrite !elem_of_unique_sorted.
    split; apply list_elem_of_fmap; by exists p. }
  unfold valid_table, wf_table, nonneg_table, row_margins, col_margins, crosstab.
  fold ps. simpl. repeat split.
  - by rewrite length_map.
  - apply Forall_forall. intros r Hr. apply list_elem_of_fmap in Hr as (x & -> & _).
    by rewrite length_map.
  - apply Forall_forall. intros r Hr. apply list_elem_of_fmap in Hr as (x & -> & _).
    apply Forall_forall. intros n Hn. apply list_elem_of_fmap in Hn as (c & -> & _).
    unfold count_pair. lia.
  - rewrite map_map. apply Forall_forall. intros m Hm.
    apply list_elem_of_fmap in Hm as (r & -> & Hr).
    rewrite row_sum_count by apply unique_sorted_NoDup.
    apply elem_of_unique_sorted, list_elem_of_fmap in Hr as (p & -> & Hp).
    apply (length_filter_pos _ _ p); [done|]. split; [by apply Hin|done].
  - apply Forall_forall. intros m Hm.
    apply list_elem_of_fmap in Hm as (j & -> & Hj).
    apply elem_of_seq in Hj as [_ Hj]. simpl in Hj.
    destruct (lookup_lt_is_Some_2 (unique_sorted (map snd ps)) j Hj) as [c Hc].
    rewrite map_map.
    rewrite (zsum_map_ext _ (fun r => count_pair r c ps)).
    2:{ intros r _. apply nth_lookup_Some. by rewrite list_lookup_fmap, Hc. }
    rewrite col_sum_count by apply unique_sorted_NoDup.
    apply list_elem_of_lookup_2, elem_of_unique_sorted, list_elem_of_fmap in Hc
      as (p & -> & Hp).
    apply (length_filter_pos _ _ p); [done|]. split; [by apply Hin|done].
Qed.

(** ** Expected frequencies *)

Lemma freq_is_zero_div a b :
  freq_is_zero (freq_div a b) = true <-> b <> 0 /\ a = 0.
Proof.
  unfold freq_div. destruct (Z.eqb_spec b 0) as [->|Hb]; simpl.
  - split; [done|]. by intros [? _].
  - rewrite Qeq_bool_iff. split.
    + intros H. split; [done|].
      assert (inject_Z a == 0)%Q as Ha.
      { rewrite <- (Qmult_div_r (inject_Z a) (inject_Z b)).
        - rewrite H. ring.
        - intros Hq. apply Hb. by apply (inject_Z_injective b 0). }
      by apply (inject_Z_injective a 0).
    + intros [_ ->]. unfold Qdiv. ring.
Qed.

Lemma existsb_false {A} (f : A -> bool) l :
  existsb f l = false <-> Forall (fun x => f x = false) l.
Proof.
  induction l as [|x l IH]; simpl.
  - split; [constructor|done].
  - rewrite orb_false_iff, IH, Forall_cons. tauto.
Qed.

Lemma nonneg_not_negative t : nonneg_table t -> any_negative t = false.
Proof.
  unfold nonneg_table, any_negative. intros H.
  apply existsb_false. eapply Forall_impl; [exact H|]. intros r Hr. simpl.
  apply existsb_false. eapply Forall_impl; [exact Hr|]. intros x Hx. simpl.
  apply Z.ltb_ge. done.
Qed.

Lemma any_zero_false t :
  table_sum t <> 0 ->
  Forall (fun m => m <> 0) (row_margins t) ->
  Forall (fun m => m <> 0) (col_margins t) ->
  any_zero (expected_freq t) = false.
Proof.
  intros Hn Hr Hc. unfold any_zero, expected_freq.
  apply existsb_false, Forall_fmap. eapply Forall_impl; [exact Hr|].
  intros ri Hri. simpl.
  apply existsb_false, Forall_fmap. eapply Forall_impl; [exact Hc|].
  intros cj Hcj. simpl.
  destruct (freq_is_zero (freq_div (ri * cj) (table_sum t))) eqn:E; [|done].
  apply freq_is_zero_div in E as [_ E]. apply Z.mul_eq_0 in E.
  simpl in Hri, Hcj. lia.
Qed.

Lemma zsum_pos l : l <> [] -> Forall (fun m => 0 < m) l -> 0 < zsum l.
Proof.
  intros Hne H. destruct H as [|x l Hx Hl]; [done|]. simpl.
  assert (0 <= zsum l); [|lia].
  apply zsum_nonneg. eapply Forall_impl; [exact Hl|]. simpl. lia.
Qed.

Lemma valid_table_sum_pos t : valid_table t -> size t <> 0 -> 0 < table_sum t.
Proof.
  intros ([Hlen _] & _ & Hr & _) Hsz. unfold table_sum. apply zsum_pos; [|exact Hr].
  unfold size in Hsz. intros Hnil. apply (f_equal length) in Hnil.
  rewrite length_map, Hlen in Hnil. simpl in Hnil. lia.
Qed.

Lemma valid_testable t : valid_table t -> size t <> 0 -> testable t.
Proof.
  intros Hv Hsz. pose proof (valid_table_sum_pos t Hv Hsz) as Hn.
  destruct Hv as (Hwf & Hnn & Hr & Hc).
  split; [by apply nonneg_not_negative|]. split; [done|].
  apply any_zero_false; [lia| |].
  - eapply Forall_impl; [exact Hr|]. simpl. lia.
  - eapply Forall_impl; [exact Hc|]. simpl. lia.
Qed.

(** ** Tables without zeros *)

Lemma loc_rows_counts t ls r :
  r ∈ counts (loc_rows t ls) -> r ∈ counts t.
Proof.
  unfold loc_rows. simpl. intros Hr.
  apply list_elem_of_fmap in Hr as ([l r'] & -> & Hin).
  apply list_elem_of_In, in_flat_map in Hin as (l' & _ & Hin).
  apply filter_In in Hin as [Hin _]. apply list_elem_of_In in Hin.
  apply elem_of_zip_r in Hin. done.
Qed.

Lemma loc_rows_nonempty t a ls :
  length (counts t) = length (index t) -> a ∈ index t ->
  counts (loc_rows t (a :: ls)) <> [].
Proof.
  intros Hlen Ha Hnil. apply list_elem_of_lookup in Ha as [i Hi].
  destruct (lookup_lt_is_Some_2 (counts t) i) as [r Hr].
  { rewrite Hlen. by eapply lookup_lt_Some. }
  assert ((a, r) ∈ zip (index t) (counts t)) as Hin.
  { apply list_elem_of_lookup. exists i. rewrite lookup_zip_with, Hi. simpl. by rewrite Hr. }
  assert (r ∈ counts (loc_rows t (a :: ls))) as Hr'.
  { unfold loc_rows. simpl. apply list_elem_of_fmap. exists (a, r). split; [done|].
    apply elem_of_app. left. apply list_elem_of_In, filter_In.
    split; [by apply list_elem_of_In|]. simpl. by apply bool_decide_eq_true_2. }
  rewrite Hnil in Hr'. by apply not_elem_of_nil in Hr'.
Qed.

(** On a rectangular table with at least one column and no zero, the
    sub-table of any two rows is testable. *)
Lemma positive_table_pairs_testable (t : Table) :
  wf_table t -> positive_table t -> labels t <> [] ->
  Forall (fun ab => testable (loc_rows t [fst ab; snd ab])) (row_pairs (index t)).
Proof.
  intros [Hlen Hw] Hpos Hlab. apply Forall_forall. intros [a b] Hab. simpl.
  assert (a ∈ index t) as Ha.
  { clear -Hab. induction (index t) as [|x l IH]; simpl in Hab.
    - by apply not_elem_of_nil in Hab.
    - apply elem_of_app in Hab as [Hab|Hab].
      + apply list_elem_of_fmap in Hab as (y & [= -> ->] & _). left.
      + right. by apply IH. }
  set (sub := loc_rows t [a; b]).
  assert (forall r, r ∈ counts sub ->
            length r = length (labels t) /\ Forall (fun x => 0 < x) r) as Hrows.
  { intros r Hr. apply loc_rows_counts in Hr. split.
    - by eapply (proj1 (Forall_forall _ _) Hw).
    - by eapply (proj1 (Forall_forall _ _) Hpos). }
  assert (counts sub <> []) as Hne by by apply loc_rows_nonempty.
  apply valid_testable.
  - unfold valid_table, wf_table, nonneg_table, row_margins, col_margins.
    assert (labels sub = labels t) as -> by done.
    repeat split.
    + unfold sub, loc_rows. simpl. by rewrite !length_map.
    + apply Forall_forall. intros r Hr. by apply Hrows.
    + apply Forall_forall. intros r Hr. destruct (Hrows r Hr) as [_ H].
      eapply Forall_impl; [exact H|]. simpl. lia.
    + apply Forall_forall. intros m Hm. apply list_elem_of_fmap in Hm as (r & -> & Hr).
      destruct (Hrows r Hr) as [Hl H]. apply zsum_pos; [|done].
      intros ->. simpl in Hl. by destruct (labels t).
    + apply Forall_forall. intros m Hm. apply list_elem_of_fmap in Hm as (j & -> & Hj).
      apply elem_of_seq in Hj as [_ Hj]. simpl in Hj.
      apply zsum_pos.
      * intros Hnil. apply Hne. by apply fmap_nil_inv in Hnil.
      * apply Forall_fmap, Forall_forall. intros r Hr. simpl.
        destruct (Hrows r Hr) as [Hl H].
        destruct (lookup_lt_is_Some_2 r j) as [x Hx]; [lia|].
        rewrite (nth_lookup_Some _ _ _ _ Hx).
        by eapply (proj1 (Forall_forall _ _) H), list_elem_of_lookup_2.
  - unfold size. assert (labels sub = labels t) as -> by done.
    assert (index sub <> []) as Hidx.
    { unfold sub, loc_rows in *. simpl in *. intros Hnil. apply Hne.
      apply fmap_nil_inv in Hnil. by rewrite Hnil. }
    destruct (index sub); [done|]. destruct (labels t); [done|]. simpl. lia.
Qed.

Section TestFacts.

Variable pearson : bool -> list (list Z) -> list (list freq) -> Z -> float * float.
Variable hypergeom : Z -> Z -> Z -> Z -> float * float.

Lemma chi2_contingency_returns correction t :
  testable t ->
  exists r,
    chi2_contingency pearson correction t = Returned r /\
    dof r = (Z.of_nat (length (index t)) - 1) * (Z.of_nat (length (labels t)) - 1) /\
    expected r = expected_freq t /\
    (dof r = 0 -> chi2 r = PrimFloat.zero /\ p_value r = PrimFloat.one).
Proof.
  intros (Hneg & Hsz & Hz). unfold chi2_contingency. rewrite Hneg.
  destruct (Z.eqb_spec (size t) 0); [done|]. rewrite Hz.
  set (R := Z.of_nat (length (index t))). set (C := Z.of_nat (length (labels t))).
  destruct (Z.eqb_spec (R * C - (R + C) + 2 - 1) 0) as [Hd|Hd].
  - eexists. split; [done|]. simpl. split; [lia|]. done.
  - destruct (pearson _ _ _ _) as [stat pv]. eexists. split; [done|]. simpl.
    split; [lia|]. split; [done|]. lia.
Qed.

Lemma chi2_contingency_raises correction t :
  ~ testable t -> chi2_contingency pearson correction t = Raised ValueError.
Proof.
  intros Hnt. unfold chi2_contingency.
  destruct (any_negative t) eqn:Hneg; [done|].
  destruct (Z.eqb_spec (size t) 0); [done|].
  destruct (any_zero (expected_freq t)) eqn:Hz; [done|].
  by destruct Hnt.
Qed.

(** ** Margins of the expected frequencies *)

Lemma zsum_nth_seq (row : list Z) :
  zsum (map (fun j => nth j row 0) (seq 0 (length row))) = zsum row.
Proof.
  induction row as [|x row IH]; [done|].
  simpl. rewrite <- seq_shift, map_map. simpl. by rewrite IH.
Qed.

Lemma col_margins_sum t : wf_table t -> zsum (col_margins t) = table_sum t.
Proof.
  intros [_ Hw]. unfold col_margins, table_sum.
  induction Hw as [|row rs Hrow Hrs IH]; simpl.
  - apply zsum_map_zero.
  - rewrite zsum_map_plus, IH. f_equal. rewrite <- Hrow. apply zsum_nth_seq.
Qed.

Lemma inject_Z_nonzero n : n <> 0 -> ~ (inject_Z n == 0)%Q.
Proof. intros Hn Hq. apply Hn. by apply (inject_Z_injective n 0). Qed.

(** The sum of [r * c / n] over a list of [c] is [r * sum / n]. *)
Lemma freq_sum_div r n (L : list Z) :
  n <> 0 ->
  freq_eq (freq_sum (map (fun c => freq_div (r * c) n) L))
          (Freq (inject_Z (r * zsum L) / inject_Z n)).
Proof.
  intros Hn. pose proof (inject_Z_nonzero n Hn) as Hq.
  induction L as [|c L IH]; simpl.
  - rewrite Z.mul_0_r. unfold Qdiv. ring.
  - unfold freq_div at 1. destruct (Z.eqb_spec n 0); [done|].
    destruct (freq_sum _) as [q|]; [|done]. simpl in *.
    rewrite IH, !inject_Z_mult, inject_Z_plus. by field.
Qed.

Lemma freq_sum_margin r n (L : list Z) :
  n <> 0 -> zsum L = n ->
  freq_eq (freq_sum (map (fun c => freq_div (r * c) n) L)) (freq_of_int r).
Proof.
  intros Hn HL. pose proof (freq_sum_div r n L Hn) as H. rewrite HL in H.
  destruct (freq_sum _) as [q|]; [|done]. simpl in *.
  rewrite H, inject_Z_mult. field. by apply inject_Z_nonzero.
Qed.

Lemma freq_sum_total (xs : list freq) (ms : list Z) :
  Forall2 (fun x m => freq_eq x (freq_of_int m)) xs ms ->
  freq_eq (freq_sum xs) (freq_of_int (zsum ms)).
Proof.
  induction 1 as [|x m xs ms Hx Hxs IH]; simpl; [done|].
  destruct x as [q|]; [|done]. destruct (freq_sum xs) as [q'|]; [|done].
  simpl in *. rewrite inject_Z_plus, Hx, IH. done.
Qed.

Lemma expected_freq_rows t :
  wf_table t -> table_sum t <> 0 ->
  Forall2 (fun row m => freq_eq (freq_sum row) (freq_of_int m))
          (expected_freq t) (row_margins t).
Proof.
  intros Hwf Hn. unfold expected_freq. apply Forall2_fmap_l, Forall_Forall2_diag.
  apply Forall_forall. intros r _.
  apply freq_sum_margin; [done|]. by apply col_margins_sum.
Qed.

Lemma expected_freq_cols t :
  wf_table t -> table_sum t <> 0 ->
  Forall2 (fun j m => freq_eq (freq_sum (map (fun row => nth j row FUndef)
                                             (expected_freq t)))
                              (freq_of_int m))
          (seq 0 (length (labels t))) (col_margins t).
Proof.
  intros Hwf Hn.
  assert (length (col_margins t) = length (labels t)) as Hlen.
  { unfold col_margins. by rewrite length_map, length_seq. }
  apply Forall2_same_length_lookup. split.
  { by rewrite length_seq. }
  intros i j cj Hj Hcj. apply lookup_seq in Hj as [-> _]. simpl.
  unfold expected_freq. rewrite map_map.
  rewrite (map_ext _ (fun ri => freq_div (cj * ri) (table_sum t))).
  2:{ intros ri. rewrite (Z.mul_comm cj ri).
      apply nth_lookup_Some. by rewrite list_lookup_fmap, Hcj. }
  apply freq_sum_margin; [done|]. done.
Qed.

Lemma expected_freq_shape t :
  wf_table t ->
  length (expected_freq t) = length (index t) /\
  Forall (fun row => length row = length (labels t)) (expected_freq t).
Proof.
  intros [Hlen _]. unfold expected_freq, row_margins, col_margins. split.
  - by rewrite !length_map.
  - apply Forall_fmap, Forall_forall. intros r _. simpl.
    by rewrite !length_map, length_seq.
Qed.

(** C7, as amended.  On a table with at least one cell, no negative
    count and no row or column that adds up to zero, [chi_square_test]
    returns; [dof] is [(R - 1) * (C - 1)]; the expected frequencies have
    the shape of the table, add up to its total, and each of their rows
    and columns adds up to the margin of the observed row or column (in
    exact arithmetic). *)
Theorem chi_square_test_spec (t : Table) (correction : bool) :
  valid_table t -> size t <> 0 ->
  exists r,
    chi_square_test pearson t correction = Returned r /\
    dof r = (Z.of_nat (length (index t)) - 1) * (Z.of_nat (length (labels t)) - 1) /\
    length (expected r) = length (index t) /\
    Forall (fun row => length row = length (labels t)) (expected r) /\
    freq_eq (freq_sum (map freq_sum (expected r))) (freq_of_int (table_sum t)) /\
    Forall2 (fun row m => freq_eq (freq_sum row) (freq_of_int m))
            (expected r) (row_margins t) /\
    Forall2 (fun j m => freq_eq (freq_sum (map (fun row => nth j row FUndef)
                                               (expected r)))
                                (freq_of_int m))
            (seq 0 (length (labels t))) (col_margins t).
Proof.
  intros Hv Hsz.
  pose proof (valid_table_sum_pos t Hv Hsz) as Hn.
  destruct (chi2_contingency_returns correction t (valid_testable t Hv Hsz))
    as (r & Hr & Hdof & Hexp & _).
  destruct Hv as (Hwf & _).
  unfold chi_square_test. destruct (Z.eqb_spec (size t) 0); [done|].
  rewrite Hr. simpl. eexists. split; [done|]. simpl. rewrite Hexp.
  split; [done|].
  destruct (expected_freq_shape t Hwf) as [H1 H2].
  do 2 (split; [done|]).
  pose proof (expected_freq_rows t Hwf ltac:(lia)) as Hrows.
  split; [|split; [done|apply expected_freq_cols; [done|lia]]].
  unfold table_sum. fold (row_margins t).
  apply freq_sum_total, Forall2_fmap_l.
  eapply Forall2_impl; [exact Hrows|]. done.
Qed.

Lemma row_pairs_length (l : list value) :
  Z.of_nat (length (row_pairs l)) = choose2 (Z.of_nat (length l)).
Proof.
  unfold choose2. induction l as [|x l IH]; [done|].
  cbn [row_pairs]. rewrite length_app, length_map, Nat2Z.inj_add, IH. simpl length.
  set (n := Z.of_nat (length l)).
  replace (Z.of_nat (S (length l))) with (n + 1) by lia.
  replace ((n + 1) * (n + 1 - 1)) with (n * (n - 1) + n * 2) by lia.
  rewrite Z.div_add by lia. lia.
Qed.

Lemma mapM_returns {A B} (f : A -> outcome B) (l : list A) :
  Forall (fun x => exists y, f x = Returned y) l ->
  exists ys, mapM f l = Returned ys /\ Forall2 (fun x y => f x = Returned y) l ys.
Proof.
  induction 1 as [|x l [y Hy] Hl (ys & Hys & IH)]; simpl.
  - by exists [].
  - exists (y :: ys). rewrite Hy. simpl. rewrite Hys. simpl. split; [done|].
    by constructor.
Qed.

Lemma mapM_raises {A B} (f : A -> outcome B) (e : exn) (l : list A) :
  Forall (fun x => (exists y, f x = Returned y) \/ f x = Raised e) l ->
  Exists (fun x => f x = Raised e) l ->
  mapM f l = Raised e.
Proof.
  induction 1 as [|x l Hx Hl IH]; intros Hex; [by apply Exists_nil in Hex|].
  simpl. destruct Hx as [[y Hy]|Hx]; [|by rewrite Hx].
  rewrite Hy. simpl. apply Exists_cons in Hex as [Hex|Hex]; [congruence|].
  by rewrite IH.
Qed.

Lemma nan_not_zero : PrimFloat.nan <> PrimFloat.zero.
Proof.
  intros H. apply (f_equal PrimFloat.is_nan) in H. by vm_compute in H.
Qed.

(** *** Fisher *)

(** C6.  On a table of counts, [fisher_test_if_applicable] returns a
    result (odds ratio and p-value) exactly when the shape is [(2, 2)];
    for every other shape it returns [None], and returning [None] is not
    raising. *)
Theorem fisher_test_if_applicable_iff (t : Table) :
  wf_table t -> nonneg_table t ->
  (shape t = (2%nat, 2%nat) ->
     exists r, fisher_test_if_applicable hypergeom t = Returned (Some r)) /\
  (shape t <> (2%nat, 2%nat) ->
     fisher_test_if_applicable hypergeom t = Returned None) /\
  ((exists r, fisher_test_if_applicable hypergeom t = Returned (Some r))
     <-> shape t = (2%nat, 2%nat)).
Proof.
  intros [Hlen Hw] Hnn.
  assert (shape t = (2%nat, 2%nat) ->
          exists r, fisher_test_if_applicable hypergeom t = Returned (Some r)) as H22.
  { unfold shape. intros [= HR HC]. unfold fisher_test_if_applicable, shape.
    rewrite HR, HC. rewrite bool_decide_eq_true_2 by done.
    rewrite HR in Hlen. rewrite HC in Hw. unfold nonneg_table in Hnn.
    destruct (counts t) as [|r1 [|r2 [|? ?]]]; try done.
    apply Forall_cons in Hw as [H1 Hw]. apply Forall_cons in Hw as [H2 _].
    apply Forall_cons in Hnn as [N1 Hnn]. apply Forall_cons in Hnn as [N2 _].
    destruct r1 as [|a [|b [|? ?]]]; try done.
    destruct r2 as [|c [|d [|? ?]]]; try done.
    apply Forall_cons in N1 as [Ha N1]. apply Forall_cons in N1 as [Hb _].
    apply Forall_cons in N2 as [Hc N2]. apply Forall_cons in N2 as [Hd _].
    unfold fisher_exact.
    destruct (Z.ltb_spec a 0); [lia|]. destruct (Z.ltb_spec b 0); [lia|].
    destruct (Z.ltb_spec c 0); [lia|]. destruct (Z.ltb_spec d 0); [lia|].
    simpl. destruct (_ || _)%bool; simpl; [by eexists|].
    destruct (hypergeom a b c d). by eexists. }
  assert (shape t <> (2%nat, 2%nat) ->
          fisher_test_if_applicable hypergeom t = Returned None) as Hn22.
  { intros Hs. unfold fisher_test_if_applicable.
    by rewrite bool_decide_eq_false_2. }
  split; [done|]. split; [done|]. split; [|done].
  intros [r Hr]. destruct (decide (shape t = (2%nat, 2%nat))) as [|Hs]; [done|].
  rewrite (Hn22 Hs) in Hr. done.
Qed.

(** *** Cramer's V *)

(** Where the two guards of [cramers_v] are reached.  On a table without
    negative counts the call returns NaN when the counts add up to 0 and the
    table has at least one cell; it returns exactly [0.0] when
    [min(R, C) = 1] and no row or column adds up to zero. *)
Theorem cramers_v_special_cases (t : Table) :
  nonneg_table t ->
  (size t <> 0 -> table_sum t = 0 ->
     cramers_v pearson t = Returned PrimFloat.nan) /\
  (valid_table t ->
   Z.min (Z.of_nat (length (index t))) (Z.of_nat (length (labels t))) = 1 ->
     cramers_v pearson t = Returned PrimFloat.zero).
Proof.
  intros Hnn. split.
  - intros Hsz Hn.
    assert (testable t) as Ht.
    { split; [by apply nonneg_not_negative|]. split; [done|].
      unfold any_zero, expected_freq. rewrite Hn.
      apply existsb_false, Forall_fmap, Forall_forall. intros ri _. simpl.
      apply existsb_false, Forall_fmap, Forall_forall. intros cj _. done. }
    destruct (chi2_contingency_returns true t Ht) as (r & Hr & _).
    unfold cramers_v. rewrite Hr. simpl. by rewrite Hn.
  - intros Hv Hk.
    assert (size t <> 0) as Hsz by (unfold size; lia).
    pose proof (valid_table_sum_pos t Hv Hsz) as Hn.
    destruct (chi2_contingency_returns true t (valid_testable t Hv Hsz))
      as (r & Hr & _).
    unfold cramers_v. rewrite Hr. simpl.
    destruct (Z.eqb_spec (table_sum t) 0); [lia|]. by rewrite Hk.
Qed.

(** *** Pairwise post-hoc *)

Lemma sparse_rows_valid : valid_table sparse_rows.
Proof.
  unfold valid_table, wf_table, nonneg_table. simpl.
  repeat split; repeat constructor; lia.
Qed.

Lemma pair_test_outcome t ab :
  (exists y, pair_test pearson t ab = Returned y) \/
  pair_test pearson t ab = Raised ValueError.
Proof.
  unfold pair_test.
  destruct (decide (testable (loc_rows t [fst ab; snd ab]))) as [Ht|Ht].
  - destruct (chi2_contingency_returns true _ Ht) as (r & -> & _).
    left. by eexists.
  - right. by rewrite (chi2_contingency_raises true _ Ht).
Qed.

(** The call raises as soon as one pair of rows is not testable. *)
Lemma pairwise_chi2_posthoc_raises t alpha :
  Exists (fun ab => ~ testable (loc_rows t [fst ab; snd ab])) (row_pairs (index t)) ->
  pairwise_chi2_posthoc pearson t alpha = Raised ValueError.
Proof.
  intros Hex. unfold pairwise_chi2_posthoc.
  rewrite (mapM_raises (pair_test pearson t) ValueError); [done| |].
  - apply Forall_forall. intros ab _. apply pair_test_outcome.
  - eapply Exists_impl; [exact Hex|]. intros ab Hab. simpl in Hab.
    unfold pair_test. by rewrite (chi2_contingency_raises true _ Hab).
Qed.

(** When every pair of rows is testable, the first loop collects one raw
    result per pair. *)
Lemma pair_tests_return t :
  Forall (fun ab => testable (loc_rows t [fst ab; snd ab])) (row_pairs (index t)) ->
  exists raw,
    mapM (pair_test pearson t) (row_pairs (index t)) = Returned raw /\
    Forall2 (fun ab y => pair_test pearson t ab = Returned y) (row_pairs (index t)) raw.
Proof.
  intros Hok. apply mapM_returns.
  eapply Forall_impl; [exact Hok|]. intros ab Hab. simpl in Hab.
  destruct (chi2_contingency_returns true _ Hab) as (r & Hr & _).
  unfold pair_test. rewrite Hr. by eexists.
Qed.

Lemma bonferroni_fields alpha m r :
  0 < m ->
  let row := bonferroni alpha m r in
  (row1 row, row2 row, ph_chi2 row, p row) = r /\
  p_adj row = py_min PrimFloat.one (PrimFloat.mul (p row) (float_of_int m)) /\
  significant row = PrimFloat.ltb (p_adj row) alpha.
Proof.
  intros Hm. destruct r as [[[r1 r2] stat] pv]. unfold bonferroni.
  destruct (Z.ltb_spec 0 m); [|lia]. done.
Qed.


End TestFacts.

(** ** The theorems at concrete tables *)

(** C7 as stated fails: this table has four cells and a total of 3, and the
    test raises, because its second column adds up to zero. *)
Lemma chi_square_test_zero_margin :
  size sparse_column = 4 /\ table_sum sparse_column = 3 /\
  forall pearson correction,
    chi_square_test pearson sparse_column correction = Raised ValueError.
Proof. by vm_compute. Qed.

(** C7 at the table [[10, 20], [30, 15]]. *)
Lemma chi_square_test_spec_witness :
  exists r,
    chi_square_test sample_pearson table_2x2 true = Returned r /\
    dof r = (Z.of_nat (length (index table_2x2)) - 1)
            * (Z.of_nat (length (labels table_2x2)) - 1) /\
    length (expected r) = length (index table_2x2) /\
    Forall (fun row => length row = length (labels table_2x2)) (expected r) /\
    freq_eq (freq_sum (map freq_sum (expected r))) (freq_of_int (table_sum table_2x2)) /\
    Forall2 (fun row m => freq_eq (freq_sum row) (freq_of_int m))
            (expected r) (row_margins table_2x2) /\
    Forall2 (fun j m => freq_eq (freq_sum (map (fun row => nth j row FUndef)
                                               (expected r)))
                                (freq_of_int m))
            (seq 0 (length (labels table_2x2))) (col_margins table_2x2).
Proof.
  apply (chi_square_test_spec sample_pearson table_2x2 true).
  - unfold valid_table, wf_table, nonneg_table. simpl.
    repeat split; repeat constructor; lia.
  - by vm_compute.
Defined.

(** The example of the specification: one degree of freedom, and the
    expected frequencies row margin times column margin over the total. *)
Example chi_square_test_2x2 :
  exists r, chi_square_test sample_pearson table_2x2 true = Returned r /\ dof r = 1 /\
    expected r = [[Freq (1200 # 75); Freq (1050 # 75)];
                  [Freq (1800 # 75); Freq (1575 # 75)]].
Proof. eexists. by vm_compute. Qed.

(** C6 at the table [[10, 20], [30, 15]]. *)
Lemma fisher_test_if_applicable_iff_witness :
  (shape table_2x2 = (2%nat, 2%nat) ->
     exists r, fisher_test_if_applicable sample_hypergeom table_2x2 = Returned (Some r)) /\
  (shape table_2x2 <> (2%nat, 2%nat) ->
     fisher_test_if_applicable sample_hypergeom table_2x2 = Returned None) /\
  ((exists r, fisher_test_if_applicable sample_hypergeom table_2x2 = Returned (Some r))
     <-> shape table_2x2 = (2%nat, 2%nat)).
Proof.
  apply (fisher_test_if_applicable_iff sample_hypergeom table_2x2).
  - split; [done|]. repeat constructor.
  - repeat constructor; lia.
Defined.

(** The example of the specification: Fisher applies to the 2x2 table. *)
Example fisher_2x2_applicable :
  exists r, fisher_test_if_applicable sample_hypergeom table_2x2 = Returned (Some r).
Proof. eexists. by vm_compute. Qed.

(** A 3x2 table and the empty table: not applicable, and no error. *)
Example fisher_not_applicable :
  fisher_test_if_applicable sample_hypergeom dense_rows = Returned None /\
  fisher_test_if_applicable sample_hypergeom empty_table = Returned None.
Proof. by vm_compute. Qed.

(** On the empty table the counts add up to 0 and the call raises; on a row
    of zeros [min(R, C) = 1] and the call returns NaN, not [0.0]. *)
Lemma cramers_v_counterexamples :
  (table_sum empty_table = 0 /\
   forall pearson, cramers_v pearson empty_table = Raised ValueError) /\
  (Z.min (Z.of_nat (length (index zero_row_table)))
         (Z.of_nat (length (labels zero_row_table))) = 1 /\
   forall pearson,
     cramers_v pearson zero_row_table = Returned PrimFloat.nan /\
     cramers_v pearson zero_row_table <> Returned PrimFloat.zero).
Proof.
  split; [by vm_compute|]. split; [by vm_compute|]. intros pearson.
  assert (cramers_v pearson zero_row_table = Returned PrimFloat.nan) as ->
    by by vm_compute.
  split; [done|]. intros H.
  apply (f_equal (fun o => if o is Returned x then PrimFloat.is_nan x else false)) in H.
  by vm_compute in H.
Qed.

(** The guards at a single row without zeros. *)
Lemma cramers_v_special_cases_witness :
  (size single_row_table <> 0 -> table_sum single_row_table = 0 ->
     cramers_v sample_pearson single_row_table = Returned PrimFloat.nan) /\
  (valid_table single_row_table ->
   Z.min (Z.of_nat (length (index single_row_table)))
         (Z.of_nat (length (labels single_row_table))) = 1 ->
     cramers_v sample_pearson single_row_table = Returned PrimFloat.zero).
Proof.
  apply (cramers_v_special_cases sample_pearson single_row_table).
  repeat constructor; lia.
Defined.

(** C2.  [cramers_v] tests [n == 0] and [k == 1] only after it has called
    [chi2_contingency], and that call raises first.  The table that
    [build_contingency_table] returns on a batch without a complete record
    has no cell: its counts add up to 0, and [cramers_v] raises [ValueError]
    on it instead of returning NaN.  On the single row [[3, 0]], where
    [min(R, C) = 1], it raises [ValueError] instead of returning [0.0]. *)
Theorem cramers_v_guards_after_test :
  build_contingency_table example_no_complete "region" "mood" = Returned empty_table /\
  table_sum empty_table = 0 /\
  (forall pearson, cramers_v pearson empty_table = Raised ValueError) /\
  Z.min (Z.of_nat (length (index zero_cell_row)))
        (Z.of_nat (length (labels zero_cell_row))) = 1 /\
  0 < table_sum zero_cell_row /\
  (forall pearson, cramers_v pearson zero_cell_row = Raised ValueError).
Proof.
  split; [by vm_compute|]. split; [by vm_compute|]. split; [by intros pearson|].
  split; [by vm_compute|]. split; [by vm_compute|]. by intros pearson.
Qed.

(** One row without zeros, one row of zeros, one row with a zero. *)
Example cramers_v_examples :
  cramers_v sample_pearson single_row_table = Returned PrimFloat.zero /\
  cramers_v sample_pearson zero_row_table = Returned PrimFloat.nan /\
  cramers_v sample_pearson
    {| index := [VStr "a"]; labels := [VStr "x"; VStr "y"]; counts := [[3; 0]] |}
    = Raised ValueError.
Proof. by vm_compute. Qed.

(** The sub-tables of a table without zeros are testable; here, at a table
    of three rows. *)
Lemma dense_rows_pairs_testable :
  Forall (fun ab => testable (loc_rows dense_rows [fst ab; snd ab]))
         (row_pairs (index dense_rows)).
Proof.
  apply (positive_table_pairs_testable dense_rows).
  - split; [done|]. repeat constructor.
  - repeat constructor; lia.
  - done.
Defined.



(** Three pairs, each p-value multiplied by 3 and compared with [alpha]. *)
Example pairwise_chi2_posthoc_dense :
  pairwise_chi2_posthoc sample_pearson dense_rows default_alpha =
  Returned [ mkPosthocRow (VStr "a") (VStr "b") 1%float 0.0078125%float 0.0234375%float true;
             mkPosthocRow (VStr "a") (VStr "c") 1%float 0.0078125%float 0.0234375%float true;
             mkPosthocRow (VStr "b") (VStr "c") 1%float 0.0078125%float 0.0234375%float true ].
Proof. by vm_compute. Qed.

(** Fewer than two rows: an empty result, no error. *)
Example pairwise_chi2_posthoc_single_row :
  pairwise_chi2_posthoc sample_pearson single_row_table default_alpha = Returned [] /\
  pairwise_chi2_posthoc sample_pearson empty_table default_alpha = Returned [].
Proof. by vm_compute. Qed.

(** C10.  [pairwise_chi2_posthoc] is not total on valid tables: there is a
    table with no negative count, no empty row or column, at least two rows
    and a positive total, in which one column is zero in both rows of a pair,
    and on which the call raises whatever [alpha] is. *)
Theorem pairwise_chi2_posthoc_not_total :
  exists t a b,
    valid_table t /\ NoDup (index t) /\
    2 <= Z.of_nat (length (index t)) /\ 0 < table_sum t /\
    (a, b) ∈ row_pairs (index t) /\
    0 ∈ col_margins (loc_rows t [a; b]) /\
    forall pearson alpha, pairwise_chi2_posthoc pearson t alpha = Raised ValueError.
Proof.
  exists sparse_rows, (VStr "a"), (VStr "b").
  split; [apply sparse_rows_valid|]. split.
  { simpl. repeat (apply NoDup_cons; split;
      [rewrite ?elem_of_cons, ?elem_of_nil; intuition congruence|]).
    apply NoDup_nil_2. }
  split; [simpl; lia|]. split; [by vm_compute|].
  split; [left|]. split.
  - apply list_elem_of_lookup. exists 1%nat. by vm_compute.
  - intros pearson alpha. apply pairwise_chi2_posthoc_raises. left.
    intros (_ & _ & H). by vm_compute in H.
Qed.

(** ** When the tests return *)

Section Totality.

Variable pearson : bool -> list (list Z) -> list (list freq) -> Z -> float * float.

(** [chi2_contingency] returns exactly on the testable tables, and raises
    [ValueError] on the others. *)
Theorem chi2_contingency_returns_iff (correction : bool) (t : Table) :
  ((exists r, chi2_contingency pearson correction t = Returned r) <-> testable t) /\
  (chi2_contingency pearson correction t = Raised ValueError <-> ~ testable t).
Proof.
  destruct (decide (testable t)) as [Ht|Ht].
  - destruct (chi2_contingency_returns pearson correction t Ht) as (r & Hr & _).
    rewrite Hr. split; split; try done.
    by exists r.
  - rewrite (chi2_contingency_raises pearson correction t Ht). split; split; try done.
    by intros [r Hr].
Qed.

(** X16.  [pairwise_chi2_posthoc] returns exactly when the sub-table of every pair
    of rows is testable. *)
Theorem pairwise_chi2_posthoc_returns_iff (t : Table) (alpha : float) :
  (exists res, pairwise_chi2_posthoc pearson t alpha = Returned res) <->
  Forall (fun ab => testable (loc_rows t [fst ab; snd ab])) (row_pairs (index t)).
Proof.
  split.
  - intros [res Hres].
    destruct (decide (Forall (fun ab => testable (loc_rows t [fst ab; snd ab]))
                             (row_pairs (index t)))) as [|Hn]; [done|].
    apply not_Forall_Exists in Hn; [|apply _].
    rewrite (pairwise_chi2_posthoc_raises pearson t alpha) in Hres; [done|].
    exact Hn.
  - intros Hall.
    destruct (pair_tests_return pearson t Hall) as (raw & Hraw & _).
    unfold pairwise_chi2_posthoc. rewrite Hraw. by eexists.
Qed.

End Totality.

(** * The rest of the code: properties *)

(** ** Cleaning: errors and idempotence *)

Lemma clean_column_columns c df : columns (clean_column c df) = columns df.
Proof. done. Qed.

Lemma clean_categorical_columns_missing df cols :
  Exists (fun c => c ∉ columns df) cols ->
  clean_categorical_columns df cols = Raised KeyError.
Proof.
  revert df. induction cols as [|c cols IH]; intros df Hex.
  - by apply Exists_nil in Hex.
  - simpl. unfold has_column. case_bool_decide as Hc; [|done].
    apply IH. rewrite clean_column_columns.
    apply Exists_cons in Hex as [Hex|Hex]; [done|exact Hex].
Qed.

(** X1.  Cleaning returns exactly when every named column exists; when one is
    missing it raises [KeyError], and it raises nothing else. *)
Theorem clean_categorical_columns_returns_iff (df : DataFrame) (cols : list string) :
  ((exists df', clean_categorical_columns df cols = Returned df')
     <-> Forall (fun c => c ∈ columns df) cols) /\
  (clean_categorical_columns df cols = Raised KeyError
     <-> Exists (fun c => c ∉ columns df) cols) /\
  (forall e, clean_categorical_columns df cols = Raised e -> e = KeyError).
Proof.
  destruct (decide (Forall (fun c => c ∈ columns df) cols)) as [Hall|Hnot].
  - rewrite (clean_categorical_columns_rows df cols Hall).
    split; [split; [done|by eexists]|]. split; [|done].
    split; [done|]. intros Hex. exfalso.
    apply Exists_exists in Hex as (c & Hc & Hn).
    by apply Hn, (proj1 (Forall_forall _ _) Hall).
  - assert (Exists (fun c => c ∉ columns df) cols) as Hex.
    { apply not_Forall_Exists in Hnot; [done|apply _]. }
    rewrite (clean_categorical_columns_missing df cols Hex).
    split; [split; [by intros [? ?]|done]|]. split; [done|]. by intros e [= <-].
Qed.

Lemma clean_row_is_Some cols r c :
  c ∈ cols -> is_Some (clean_row cols r !! c).
Proof.
  revert r. induction cols as [|c' cols IH]; intros r Hc.
  - by apply elem_of_nil in Hc.
  - change (clean_row (c' :: cols) r)
      with (clean_row cols (<[c':=clean_value (cell r c')]> r)).
    destruct (decide (c ∈ cols)) as [Hin|Hnin]; [by apply IH|].
    apply elem_of_cons in Hc as [->|Hc]; [|done].
    rewrite clean_row_other by done. rewrite lookup_insert_eq. by eexists.
Qed.

Lemma clean_row_lookup cols r c :
  c ∈ cols -> clean_row cols r !! c = Some (cleaned (cell r c)).
Proof.
  intros Hc. destruct (clean_row_is_Some cols r c Hc) as [v Hv].
  pose proof (clean_row_cell cols r c) as Hcell.
  rewrite bool_decide_eq_true_2 in Hcell by done.
  unfold cell at 1 in Hcell. rewrite Hv in Hcell. simpl in Hcell. by rewrite Hv, Hcell.
Qed.

Lemma clean_row_idem cols r : clean_row cols (clean_row cols r) = clean_row cols r.
Proof.
  apply map_eq. intros c. destruct (decide (c ∈ cols)) as [Hc|Hc].
  - rewrite !clean_row_lookup by done. f_equal.
    rewrite clean_row_cell, bool_decide_eq_true_2 by done. apply cleaned_idem.
  - by rewrite !clean_row_other.
Qed.

(** X2.  Cleaning is idempotent: cleaning a cleaned frame again, for the same
    columns, returns it unchanged. *)
Theorem clean_categorical_columns_idempotent
    (df df' : DataFrame) (cols : list string) :
  clean_categorical_columns df cols = Returned df' ->
  clean_categorical_columns df' cols = Returned df'.
Proof.
  intros Hclean.
  assert (Forall (fun c => c ∈ columns df) cols) as Hall.
  { destruct (decide (Forall (fun c => c ∈ columns df) cols)) as [|Hnot]; [done|].
    apply not_Forall_Exists in Hnot; [|apply _].
    by rewrite (clean_categorical_columns_missing df cols Hnot) in Hclean. }
  rewrite clean_categorical_columns_rows in Hclean by done.
  injection Hclean as <-. simpl.
  rewrite clean_categorical_columns_rows by done. simpl. f_equal. f_equal.
  rewrite map_map. apply map_ext. intros r. apply clean_row_idem.
Qed.

(** Idempotence at the example frame. *)
Lemma clean_categorical_columns_idempotent_witness :
  clean_categorical_columns example_cleaned ["city"; "n"] = Returned example_cleaned.
Proof.
  apply (clean_categorical_columns_idempotent example_raw example_cleaned ["city"; "n"]).
  by vm_compute.
Defined.

(** ** By-key batching: a partition of the records with a key *)

Lemma zsum_count_keys {A B} `{EqDecision B} (key : A -> B) (L : list B) (ps : list A) :
  NoDup L ->
  zsum (map (fun k => Z.of_nat (length (filter (fun p => key p = k) ps))) L)
  = Z.of_nat (length (filter (fun p => key p ∈ L) ps)).
Proof.
  intros Hnd.
  pose proof (zsum_count_by key (fun _ => True) L ps Hnd) as H.
  rewrite (zsum_map_ext _ (fun k => Z.of_nat (length (filter (fun p => key p = k /\ True) ps)))).
  2:{ intros k _. f_equal. apply length_filter_ext. intros p _. tauto. }
  rewrite H. f_equal. apply length_filter_ext. intros p _. tauto.
Qed.

(** X3.  The by-key batches partition the records that have a key: a record with
    a non-null key lies in some batch, no record lies in two batches, the
    records of a batch share their key and keep the order they had, and the
    sizes add up to the number of records with a key (to the size of the
    dataset when no key is null). *)
Theorem define_batches_by_column_partition (df : DataFrame) (c : string) :
  c ∈ columns df ->
  exists batches,
    define_batches_by_column df c = Returned batches /\
    (forall r, r ∈ rows df -> is_null (cell r c) = false ->
       exists b, b ∈ batches /\ r ∈ rows b) /\
    (forall (i j : nat) b1 b2 r,
       batches !! i = Some b1 -> batches !! j = Some b2 ->
       r ∈ rows b1 -> r ∈ rows b2 -> i = j) /\
    (forall b, b ∈ batches ->
       columns b = columns df /\ sublist (rows b) (rows df) /\
       forall r r', r ∈ rows b -> r' ∈ rows b -> cell r c = cell r' c) /\
    zsum (map len batches)
      = Z.of_nat (length (filter (fun r => is_null (cell r c) = false) (rows df))) /\
    ((forall r, r ∈ rows df -> is_null (cell r c) = false) ->
     zsum (map len batches) = len df).
Proof.
  intros Hc. set (keys := unique_sorted (notnull (series df c))).
  assert (define_batches_by_column df c = Returned (map (keyed_batch df c) keys)) as Hdef.
  { unfold define_batches_by_column, has_column, groupby, reset_index.
    rewrite bool_decide_eq_true_2 by done. by rewrite map_map. }
  assert (forall k, k ∈ keys <-> k ∈ series df c /\ is_null k = false) as Hkeys.
  { intros k. unfold keys. by rewrite elem_of_unique_sorted, elem_of_notnull. }
  assert (zsum (map len (map (keyed_batch df c) keys))
          = Z.of_nat (length (filter (fun r => is_null (cell r c) = false) (rows df))))
    as Hsum.
  { rewrite map_map. unfold len, keyed_batch, rows_with. simpl.
    rewrite (zsum_count_keys (fun r => cell r c) keys (rows df))
      by apply unique_sorted_NoDup.
    f_equal. apply length_filter_ext. intros r Hr. rewrite Hkeys. split; [tauto|].
    intros Hnn. split; [|done]. apply list_elem_of_fmap. by exists r. }
  exists (map (keyed_batch df c) keys). split; [done|]. split; [|split; [|split; [|split]]].
  - intros r Hr Hnn. exists (keyed_batch df c (cell r c)). split.
    + apply list_elem_of_fmap. exists (cell r c). split; [done|].
      apply Hkeys. split; [|done]. apply list_elem_of_fmap. by exists r.
    + simpl. unfold rows_with. by apply list_elem_of_filter.
  - intros i j b1 b2 r Hi Hj H1 H2.
    rewrite list_lookup_fmap in Hi, Hj.
    destruct (keys !! i) as [k1|] eqn:Ei; [|done].
    destruct (keys !! j) as [k2|] eqn:Ej; [|done].
    simpl in Hi, Hj. injection Hi as <-. injection Hj as <-.
    simpl in H1, H2. unfold rows_with in H1, H2.
    apply list_elem_of_filter in H1 as [H1 _]. apply list_elem_of_filter in H2 as [H2 _].
    eapply NoDup_lookup; [apply unique_sorted_NoDup|exact Ei|]. fold keys. congruence.
  - intros b Hb. apply list_elem_of_fmap in Hb as (k & -> & _). split; [done|]. split.
    + simpl. unfold rows_with. apply sublist_filter.
    + intros r r' Hr Hr'. simpl in Hr, Hr'. unfold rows_with in Hr, Hr'.
      apply list_elem_of_filter in Hr as [-> _]. by apply list_elem_of_filter in Hr' as [-> _].
  - done.
  - intros Hnn. rewrite Hsum. unfold len. f_equal. f_equal.
    apply filter_all, Forall_forall. exact Hnn.
Qed.

(** The partition at the frame with keys [A, A, B, B, B]. *)
Lemma define_batches_by_column_partition_witness :
  exists batches,
    define_batches_by_column example_keys "key" = Returned batches /\
    (forall r, r ∈ rows example_keys -> is_null (cell r "key") = false ->
       exists b, b ∈ batches /\ r ∈ rows b) /\
    (forall (i j : nat) b1 b2 r,
       batches !! i = Some b1 -> batches !! j = Some b2 ->
       r ∈ rows b1 -> r ∈ rows b2 -> i = j) /\
    (forall b, b ∈ batches ->
       columns b = columns example_keys /\ sublist (rows b) (rows example_keys) /\
       forall r r', r ∈ rows b -> r' ∈ rows b -> cell r "key" = cell r' "key") /\
    zsum (map len batches)
      = Z.of_nat (length (filter (fun r => is_null (cell r "key") = false)
                                 (rows example_keys))) /\
    ((forall r, r ∈ rows example_keys -> is_null (cell r "key") = false) ->
     zsum (map len batches) = len example_keys).
Proof.
  apply (define_batches_by_column_partition example_keys "key").
  repeat constructor.
Defined.

(** ** Sliding windows: overlap, windows that are not positive *)

Lemma sliding_loop_nonempty fuel df n ws step start bs :
  start < n -> sliding_loop fuel df n ws step start = Some bs -> bs <> [].
Proof.
  intros Hlt. destruct fuel as [|fuel]; [done|]. simpl.
  destruct (Z.ltb_spec start n); [|lia].
  destruct (_ =? _); [by intros [= <-]|].
  destruct (sliding_loop fuel _ _ _ _ _); simpl; [by intros [= <-]|done].
Qed.

Lemma sliding_loop_terminates df n ws step :
  1 <= step ->
  forall fuel start, (Z.to_nat (n - start) < fuel)%nat ->
    exists bs, sliding_loop fuel df n ws step start = Some bs.
Proof.
  intros Hstep. induction fuel as [|fuel IH]; intros start Hfuel; [lia|].
  simpl. destruct (Z.ltb_spec start n); [|by eexists].
  destruct (_ =? _); [by eexists|].
  destruct (IH (start + step)) as [bs ->]; [lia|]. by eexists.
Qed.

Lemma sliding_loop_fuel_irrelevant df n ws step f1 f2 start l1 l2 :
  sliding_loop f1 df n ws step start = Some l1 ->
  sliding_loop f2 df n ws step start = Some l2 ->
  l1 = l2.
Proof.
  revert f2 start l1 l2. induction f1 as [|f1 IH]; intros [|f2] start l1 l2; simpl; try done.
  destruct (_ <? _); [|congruence].
  destruct (_ =? _); [congruence|].
  destruct (sliding_loop f1 _ _ _ _ _) as [r1|] eqn:E1; [|done].
  destruct (sliding_loop f2 _ _ _ _ _) as [r2|] eqn:E2; [|done].
  simpl. intros [= <-] [= <-]. f_equal. eapply IH; eauto.
Qed.

Lemma without_overlap_cons step b bs :
  bs <> [] ->
  without_overlap step (b :: bs) = take (Z.to_nat step) (rows b) ++ without_overlap step bs.
Proof. by destruct bs. Qed.

Lemma sliding_loop_without_overlap df ws step :
  1 <= step <= ws ->
  forall fuel start bs,
    0 <= start ->
    sliding_loop fuel df (len df) ws step start = Some bs ->
    without_overlap step bs = drop (Z.to_nat start) (rows df).
Proof.
  intros Hsw. induction fuel as [|fuel IH]; intros start bs Hstart; [done|].
  simpl. destruct (Z.ltb_spec start (len df)) as [Hlt|Hge].
  2:{ intros [= <-]. simpl. rewrite drop_ge; [done|]. unfold len in Hge. lia. }
  unfold reset_index.
  destruct (Z.eqb_spec (Z.min (start + ws) (len df)) (len df)) as [Heq|Hne].
  - intros [= <-]. cbn [without_overlap]. rewrite Heq, iloc_rows by lia.
    apply take_ge. rewrite length_drop. unfold len. lia.
  - destruct (sliding_loop fuel df (len df) ws step (start + step)) as [rest|] eqn:Hrest;
      [|done].
    simpl. intros [= <-].
    assert (rest <> []) as Hne'.
    { eapply sliding_loop_nonempty; [|exact Hrest]. lia. }
    rewrite without_overlap_cons by done.
    rewrite (IH (start + step) rest) by (lia || done).
    rewrite iloc_rows by lia. rewrite take_take.
    replace (Z.to_nat step `min` Z.to_nat (Z.min (start + ws) (len df) - start))%nat
      with (Z.to_nat step) by lia.
    replace (Z.to_nat (start + step)) with (Z.to_nat start + Z.to_nat step)%nat by lia.
    rewrite <- drop_drop. apply take_drop.
Qed.

(** X5.  For [1 <= step <= window_size] the batches, with the overlap removed,
    are the sorted dataset: the first [step] records of every batch but the
    last, followed by the last batch, give back every record once and in
    order.  With [step = window_size] the batches themselves do. *)
Theorem sliding_window_batches_without_overlap
    (df : DataFrame) (time_col : string) (window_size step : Z)
    (sort_ascending : bool) (sorted : DataFrame) :
  sort_values df time_col sort_ascending = Returned sorted ->
  1 <= step <= window_size ->
  exists batches,
    (forall fuel, (Z.to_nat (len sorted) < fuel)%nat ->
       sliding_window_batches fuel df time_col window_size step sort_ascending
         = Some (Returned batches)) /\
    without_overlap step batches = rows sorted /\
    (step = window_size -> concat (map rows batches) = rows sorted).
Proof.
  intros Hsort Hsw.
  destruct (sliding_loop_terminates sorted (len sorted) window_size step ltac:(lia)
              (S (Z.to_nat (len sorted))) 0) as [bs Hbs]; [lia|].
  exists bs. split; [|split].
  - intros fuel Hfuel. unfold sliding_window_batches. rewrite Hsort. unfold reset_index.
    destruct (sliding_loop_terminates sorted (len sorted) window_size step ltac:(lia)
                fuel 0) as [bs' Hbs']; [lia|].
    rewrite Hbs'. simpl. do 2 f_equal. eapply sliding_loop_fuel_irrelevant; eauto.
  - by rewrite (sliding_loop_without_overlap sorted window_size step Hsw _ 0 bs ltac:(lia) Hbs).
  - intros ->.
    pose proof (sliding_loop_without_overlap sorted window_size window_size Hsw _ 0 bs
                  ltac:(lia) Hbs) as Hwo.
    change (drop (Z.to_nat 0) (rows sorted)) with (rows sorted) in Hwo. rewrite <- Hwo.
    clear Hwo.
    assert (forall b, b ∈ bs -> (length (rows b) <= Z.to_nat window_size)%nat) as Hlen.
    { intros b Hb. apply list_elem_of_lookup in Hb as [k Hk].
      destruct (sliding_loop_spec sorted window_size window_size ltac:(lia) ltac:(lia)
                  (S (Z.to_nat (len sorted))) 0 ltac:(lia) ltac:(lia))
        as (bs2 & Hbs2 & _ & Hspec & _).
      assert (bs2 = bs) as -> by (eapply sliding_loop_fuel_irrelevant; eauto).
      destruct (Hspec k b Hk) as (Hs & -> & _).
      assert (0 <= 0 + Z.of_nat k * window_size) by nia.
      rewrite iloc_rows by lia. rewrite length_take. lia. }
    clear Hbs. induction bs as [|b bs IH]; [done|].
    destruct bs as [|b' bs'].
    + simpl. by rewrite app_nil_r.
    + rewrite without_overlap_cons by done. cbn [map concat]. f_equal.
      * symmetry. apply take_ge. apply Hlen. left.
      * apply IH. intros b0 Hb0. apply Hlen. by right.
Qed.

(** The overlap removed at three records, a window of 2 and a step of 1. *)
Lemma sliding_window_batches_without_overlap_witness :
  exists batches,
    (forall fuel, (Z.to_nat (len example_times_sorted) < fuel)%nat ->
       sliding_window_batches fuel example_times "t" 2 1 true = Some (Returned batches)) /\
    without_overlap 1 batches = rows example_times_sorted /\
    (1 = 2 -> concat (map rows batches) = rows example_times_sorted).
Proof.
  apply (sliding_window_batches_without_overlap example_times "t" 2 1 true
           example_times_sorted).
  - by vm_compute.
  - lia.
Defined.

Lemma sliding_loop_zero_window df step :
  1 <= step ->
  forall fuel start bs,
    0 <= start ->
    sliding_loop fuel df (len df) 0 step start = Some bs ->
    Forall (fun b => rows b = []) bs /\
    Z.of_nat (length bs) = Z.max 0 ((len df - start + step - 1) / step).
Proof.
  intros Hstep. induction fuel as [|fuel IH]; intros start bs Hstart; [done|].
  simpl. rewrite Z.add_0_r. destruct (Z.ltb_spec start (len df)) as [Hlt|Hge].
  2:{ intros [= <-]. split; [constructor|]. simpl.
      assert ((len df - start + step - 1) / step < 1); [|lia].
      apply Z.div_lt_upper_bound; lia. }
  destruct (Z.eqb_spec (Z.min start (len df)) (len df)); [lia|].
  destruct (sliding_loop fuel df (len df) 0 step (start + step)) as [rest|] eqn:Hrest;
    [|done].
  simpl. intros [= <-]. destruct (IH (start + step) rest ltac:(lia) Hrest) as [Hall Hcount].
  split.
  - constructor; [|done]. unfold reset_index. rewrite iloc_rows by lia.
    by rewrite Z.min_l, Z.sub_diag by lia.
  - simpl length. rewrite Nat2Z.inj_succ, Hcount.
    replace (len df - start + step - 1) with ((len df - (start + step) + step - 1) + 1 * step)
      by lia.
    rewrite Z.div_add by lia.
    assert (0 <= (len df - (start + step) + step - 1) / step); [|lia].
    apply Z.div_pos; lia.
Qed.

(** X6.  [window_size] is not validated either.  For [step >= 1] the call returns
    whatever the window.  With a window of 0 it returns [ceil(n / step)]
    batches, all of them empty; a negative window is read as a Python
    negative index, so the first batch holds the first [n + window_size]
    records of the sorted dataset. *)
Theorem sliding_window_batches_window_not_validated
    (df : DataFrame) (time_col : string) (window_size step : Z)
    (sort_ascending : bool) (sorted : DataFrame) :
  sort_values df time_col sort_ascending = Returned sorted ->
  1 <= step ->
  exists batches,
    (forall fuel, (Z.to_nat (len sorted) < fuel)%nat ->
       sliding_window_batches fuel df time_col window_size step sort_ascending
         = Some (Returned batches)) /\
    (window_size = 0 ->
       Forall (fun b => rows b = []) batches /\
       Z.of_nat (length batches) = (len sorted + step - 1) / step) /\
    (window_size < 0 -> 0 < len sorted ->
       exists b rest,
         batches = b :: rest /\
         rows b = take (Z.to_nat (len sorted + window_size)) (rows sorted)).
Proof.
  intros Hsort Hstep.
  destruct (sliding_loop_terminates sorted (len sorted) window_size step Hstep
              (S (Z.to_nat (len sorted))) 0) as [bs Hbs]; [lia|].
  exists bs. split; [|split].
  - intros fuel Hfuel. unfold sliding_window_batches. rewrite Hsort. unfold reset_index.
    destruct (sliding_loop_terminates sorted (len sorted) window_size step Hstep
                fuel 0) as [bs' Hbs']; [lia|].
    rewrite Hbs'. simpl. do 2 f_equal. eapply sliding_loop_fuel_irrelevant; eauto.
  - intros ->. destruct (sliding_loop_zero_window sorted step Hstep _ 0 bs ltac:(lia) Hbs)
      as [Hall Hcount].
    split; [done|]. rewrite Hcount, Z.sub_0_r.
    apply Z.max_r. apply Z.div_pos; unfold len; lia.
  - intros Hneg Hn. simpl in Hbs. rewrite Z.add_0_l in Hbs.
    destruct (Z.ltb_spec 0 (len sorted)); [|lia].
    destruct (Z.eqb_spec (Z.min window_size (len sorted)) (len sorted)); [lia|].
    destruct (sliding_loop _ _ _ _ _ _) as [rest|]; [|done].
    simpl in Hbs. injection Hbs as <-. eexists _, rest. split; [done|].
    unfold reset_index, iloc. simpl. rewrite Z.min_l by lia.
    unfold slice_bound. destruct (Z.ltb_spec 0 0); [lia|].
    destruct (Z.ltb_spec window_size 0); [|lia].
    rewrite Z.min_l by (unfold len; lia). simpl. f_equal.
    fold (len sorted). lia.
Qed.

(** At three records: a window of 0 and a step of 2. *)
Lemma sliding_window_batches_window_not_validated_witness :
  exists batches,
    (forall fuel, (Z.to_nat (len example_times_sorted) < fuel)%nat ->
       sliding_window_batches fuel example_times "t" 0 2 true = Some (Returned batches)) /\
    (0 = 0 ->
       Forall (fun b => rows b = []) batches /\
       Z.of_nat (length batches) = (len example_times_sorted + 2 - 1) / 2) /\
    (0 < 0 -> 0 < len example_times_sorted ->
       exists b rest,
         batches = b :: rest /\
         rows b = take (Z.to_nat (len example_times_sorted + 0)) (rows example_times_sorted)).
Proof.
  apply (sliding_window_batches_window_not_validated example_times "t" 0 2 true
           example_times_sorted).
  - by vm_compute.
  - lia.
Defined.

(** A window of -1 over three records: the first batch has two records. *)
Example sliding_window_negative_window :
  sliding_window_batches 4 example_times "t" (-1) 1 true =
  Some (Returned
    [ {| columns := ["t"]; rows := [ {[ "t" := VNum 10 ]}; {[ "t" := VNum 20 ]} ] |};
      {| columns := ["t"]; rows := [] |};
      {| columns := ["t"]; rows := [] |} ]).
Proof. by vm_compute. Qed.

(** ** The contingency table: labels, cells, transposition *)

Lemma zip_series df row col :
  zip (series df row) (series df col) = map (fun r => (cell r row, cell r col)) (rows df).
Proof. unfold series. induction (rows df) as [|r l IH]; [done|]. simpl. by rewrite IH. Qed.

Lemma elem_of_kept_pairs df row col p :
  p ∈ kept_pairs (series df row) (series df col) <->
  exists r, r ∈ rows df /\ complete row col r /\ p = (cell r row, cell r col).
Proof.
  unfold kept_pairs. rewrite zip_series, list_elem_of_filter, list_elem_of_fmap. split.
  - intros [Hnn (r & -> & Hr)]. by exists r.
  - intros (r & Hr & Hc & ->). split; [done|]. by exists r.
Qed.

Lemma count_pair_series df row col vr vc :
  is_null vr = false -> is_null vc = false ->
  count_pair vr vc (kept_pairs (series df row) (series df col))
  = Z.of_nat (length (filter (fun r => cell r row = vr /\ cell r col = vc) (rows df))).
Proof.
  intros Hr Hc. unfold count_pair, kept_pairs. rewrite zip_series. f_equal.
  induction (rows df) as [|r l IH]; [done|].
  simpl. rewrite (filter_cons (fun r => _ /\ _)), (filter_cons both_notnull).
  destruct (decide (cell r row = vr /\ cell r col = vc)) as [[<- <-]|Hne].
  - rewrite decide_True by done. rewrite filter_cons, decide_True by done.
    simpl. by rewrite IH.
  - destruct (decide (both_notnull (cell r row, cell r col))); [|done].
    rewrite filter_cons, decide_False; [done|]. intros [= <- <-]. by apply Hne.
Qed.

Lemma build_contingency_table_returns df row col :
  row ∈ columns df -> col ∈ columns df ->
  build_contingency_table df row col = Returned (crosstab (series df row) (series df col)).
Proof.
  intros Hr Hc. unfold build_contingency_table, has_column.
  by rewrite !bool_decide_eq_true_2 by done.
Qed.

(** X8.  The table that [build_contingency_table] returns is rectangular, has no
    negative count and no row or column that adds up to zero; its row labels
    are exactly the values of the row column in the complete records, each
    once, in ascending order, and likewise its column labels. *)
Theorem build_contingency_table_labels (df : DataFrame) (row col : string) :
  row ∈ columns df -> col ∈ columns df ->
  exists t,
    build_contingency_table df row col = Returned t /\
    valid_table t /\
    NoDup (index t) /\ Sorted value_le (index t) /\
    NoDup (labels t) /\ Sorted value_le (labels t) /\
    (forall v, v ∈ index t <->
       exists r, r ∈ rows df /\ complete row col r /\ cell r row = v) /\
    (forall v, v ∈ labels t <->
       exists r, r ∈ rows df /\ complete row col r /\ cell r col = v).
Proof.
  intros Hr Hc. eexists. split; [by apply build_contingency_table_returns|].
  split; [apply crosstab_valid|]. unfold crosstab. simpl.
  split; [apply unique_sorted_NoDup|]. split; [apply unique_sorted_Sorted|].
  split; [apply unique_sorted_NoDup|]. split; [apply unique_sorted_Sorted|].
  split.
  - intros v. rewrite elem_of_unique_sorted, list_elem_of_fmap. split.
    + intros (p & -> & Hp). apply elem_of_kept_pairs in Hp as (r & ? & ? & ->).
      by exists r.
    + intros (r & ? & ? & <-). exists (cell r row, cell r col). split; [done|].
      apply elem_of_kept_pairs. by exists r.
  - intros v. rewrite elem_of_unique_sorted, list_elem_of_fmap. split.
    + intros (p & -> & Hp). apply elem_of_kept_pairs in Hp as (r & ? & ? & ->).
      by exists r.
    + intros (r & ? & ? & <-). exists (cell r row, cell r col). split; [done|].
      apply elem_of_kept_pairs. by exists r.
Qed.

(** The labels at the survey of three records. *)
Lemma build_contingency_table_labels_witness :
  exists t,
    build_contingency_table example_survey "region" "mood" = Returned t /\
    valid_table t /\
    NoDup (index t) /\ Sorted value_le (index t) /\
    NoDup (labels t) /\ Sorted value_le (labels t) /\
    (forall v, v ∈ index t <->
       exists r, r ∈ rows example_survey /\ complete "region" "mood" r /\
                 cell r "region" = v) /\
    (forall v, v ∈ labels t <->
       exists r, r ∈ rows example_survey /\ complete "region" "mood" r /\
                 cell r "mood" = v).
Proof.
  apply (build_contingency_table_labels example_survey "region" "mood").
  - repeat constructor.
  - repeat constructor.
Defined.

(** X9.  Every cell of the table is the number of records that carry its row
    label and its column label. *)
Theorem build_contingency_table_cells (df : DataFrame) (row col : string) :
  row ∈ columns df -> col ∈ columns df ->
  exists t,
    build_contingency_table df row col = Returned t /\
    forall (i j : nat) vr vc,
      index t !! i = Some vr -> labels t !! j = Some vc ->
      exists cells,
        counts t !! i = Some cells /\
        cells !! j = Some (Z.of_nat (length (filter
                            (fun r => cell r row = vr /\ cell r col = vc) (rows df)))).
Proof.
  intros Hr Hc. eexists. split; [by apply build_contingency_table_returns|].
  unfold crosstab. simpl. intros i j vr vc Hi Hj.
  eexists. split; [by rewrite list_lookup_fmap, Hi|].
  rewrite list_lookup_fmap, Hj. simpl. f_equal.
  apply count_pair_series.
  - apply list_elem_of_lookup_2, elem_of_unique_sorted, list_elem_of_fmap in Hi
      as (p & -> & Hp).
    apply list_elem_of_filter in Hp as [[? ?] _]. done.
  - apply list_elem_of_lookup_2, elem_of_unique_sorted, list_elem_of_fmap in Hj
      as (p & -> & Hp).
    apply list_elem_of_filter in Hp as [[? ?] _]. done.
Qed.

(** The cells at the survey of three records. *)
Lemma build_contingency_table_cells_witness :
  exists t,
    build_contingency_table example_survey "region" "mood" = Returned t /\
    forall (i j : nat) vr vc,
      index t !! i = Some vr -> labels t !! j = Some vc ->
      exists cells,
        counts t !! i = Some cells /\
        cells !! j = Some (Z.of_nat (length (filter
                            (fun r => cell r "region" = vr /\ cell r "mood" = vc)
                            (rows example_survey)))).
Proof.
  apply (build_contingency_table_cells example_survey "region" "mood").
  - repeat constructor.
  - repeat constructor.
Defined.

Lemma kept_pairs_swap rs cs :
  kept_pairs cs rs = map prod_swap (kept_pairs rs cs).
Proof.
  unfold kept_pairs. revert cs. induction rs as [|r rs IH]; intros [|c cs]; try done.
  simpl. rewrite !filter_cons.
  destruct (decide (both_notnull (c, r))) as [[? ?]|Hn],
           (decide (both_notnull (r, c))) as [[? ?]|Hn']; simpl in *.
  - by rewrite IH.
  - exfalso. by apply Hn'.
  - exfalso. by apply Hn.
  - apply IH.
Qed.

Lemma count_pair_swap r c ps :
  count_pair c r (map prod_swap ps) = count_pair r c ps.
Proof.
  unfold count_pair. f_equal. induction ps as [|[a b] ps IH]; [done|].
  simpl. rewrite !filter_cons. simpl.
  destruct (decide ((b, a) = (c, r))) as [[= -> ->]|Hn].
  - rewrite decide_True by done. simpl. by rewrite IH.
  - rewrite decide_False; [done|]. intros [= -> ->]. by apply Hn.
Qed.

Lemma map_seq_lookup {A B} (l : list A) (F : nat -> B) (G : A -> B) :
  (forall (j : nat) c, l !! j = Some c -> F j = G c) ->
  map F (seq 0 (length l)) = map G l.
Proof.
  revert F. induction l as [|x l IH]; intros F HF; [done|].
  simpl. rewrite <- seq_shift, map_map. f_equal.
  - by apply (HF 0%nat).
  - apply IH. intros j c Hj. by apply (HF (S j)).
Qed.

Lemma crosstab_transpose rs cs :
  crosstab cs rs = transpose_table (crosstab rs cs).
Proof.
  unfold crosstab, transpose_table. simpl. rewrite kept_pairs_swap.
  set (ps := kept_pairs rs cs).
  assert (map fst (map prod_swap ps) = map snd ps) as ->.
  { rewrite map_map. apply map_ext. by intros [? ?]. }
  assert (map snd (map prod_swap ps) = map fst ps) as ->.
  { rewrite map_map. apply map_ext. by intros [? ?]. }
  f_equal. symmetry. apply map_seq_lookup. intros j c Hj.
  rewrite map_map. apply map_ext. intros r.
  rewrite count_pair_swap. apply nth_lookup_Some. by rewrite list_lookup_fmap, Hj.
Qed.

(** X10.  Exchanging the two columns transposes the table: the same counts, with
    rows and columns exchanged. *)
Theorem build_contingency_table_transpose (df : DataFrame) (row col : string) :
  row ∈ columns df -> col ∈ columns df ->
  exists t,
    build_contingency_table df row col = Returned t /\
    build_contingency_table df col row = Returned (transpose_table t).
Proof.
  intros Hr Hc. eexists. split; [by apply build_contingency_table_returns|].
  rewrite build_contingency_table_returns by done. f_equal. apply crosstab_transpose.
Qed.

(** The transposed table of the survey. *)
Lemma build_contingency_table_transpose_witness :
  exists t,
    build_contingency_table example_survey "region" "mood" = Returned t /\
    build_contingency_table example_survey "mood" "region" = Returned (transpose_table t).
Proof.
  apply (build_contingency_table_transpose example_survey "region" "mood").
  - repeat constructor.
  - repeat constructor.
Defined.

(** ** The chi-square test: when it raises, and its degenerate cases *)

Lemma any_zero_iff t :
  any_zero (expected_freq t) = true <->
  table_sum t <> 0 /\
  exists ri cj, ri ∈ row_margins t /\ cj ∈ col_margins t /\ ri * cj = 0.
Proof.
  unfold any_zero, expected_freq. rewrite existsb_exists. split.
  - intros (e & He & Hz). apply in_map_iff in He as (ri & <- & Hri).
    apply existsb_exists in Hz as (x & Hx & Hz).
    apply in_map_iff in Hx as (cj & <- & Hcj).
    apply freq_is_zero_div in Hz as [Hn Hz].
    split; [done|]. exists ri, cj. by rewrite <- !list_elem_of_In in *.
  - intros (Hn & ri & cj & Hri & Hcj & Hz).
    exists (map (fun cj => freq_div (ri * cj) (table_sum t)) (col_margins t)). split.
    + apply in_map_iff. exists ri. split; [done|]. by apply list_elem_of_In.
    + apply existsb_exists. exists (freq_div (ri * cj) (table_sum t)). split.
      * apply in_map_iff. exists cj. split; [done|]. by apply list_elem_of_In.
      * by apply freq_is_zero_div.
Qed.

Lemma row_margins_nonneg t :
  nonneg_table t -> Forall (fun m => 0 <= m) (row_margins t).
Proof.
  intros Hnn. unfold row_margins. apply Forall_fmap.
  eapply Forall_impl; [exact Hnn|]. intros r Hr. simpl. by apply zsum_nonneg.
Qed.

Lemma table_sum_nonneg t : nonneg_table t -> 0 <= table_sum t.
Proof. intros Hnn. by apply zsum_nonneg, row_margins_nonneg. Qed.

(** The tables of counts on which [chi2_contingency] stops: no cell at all,
    or a positive total with a row or a column that adds up to zero. *)
Lemma not_testable_iff t :
  wf_table t -> nonneg_table t ->
  ~ testable t <->
  size t = 0 \/ (0 < table_sum t /\ (0 ∈ row_margins t \/ 0 ∈ col_margins t)).
Proof.
  intros [Hlen Hw] Hnn. pose proof (table_sum_nonneg t Hnn) as Hsum.
  unfold testable. rewrite (nonneg_not_negative t Hnn).
  destruct (decide (size t = 0)) as [Hsz|Hsz]; [split; [by left|by intros _ (_ & ? & _)]|].
  assert (exists ri, ri ∈ row_margins t) as [r0 Hr0].
  { unfold row_margins. destruct (counts t) as [|x l] eqn:E.
    - unfold size in Hsz. rewrite <- Hlen in Hsz. simpl in Hsz. lia.
    - exists (zsum x). left. }
  assert (exists cj, cj ∈ col_margins t) as [c0 Hc0].
  { unfold col_margins. destruct (labels t) as [|x l] eqn:E.
    - unfold size in Hsz. rewrite E in Hsz. simpl in Hsz. lia.
    - eexists. simpl. left. }
  destruct (any_zero (expected_freq t)) eqn:Hz.
  - apply any_zero_iff in Hz as (Hn & ri & cj & Hri & Hcj & Hmul).
    split; [|by intros _ (_ & _ & ?)]. intros _. right. split; [lia|].
    apply Z.mul_eq_0 in Hmul as [->| ->]; [by left|by right].
  - split; [intros []; by repeat split|]. intros [?|[Hpos Hzero]]; [done|]. exfalso.
    assert (any_zero (expected_freq t) = true) as Hz'; [|congruence].
    apply any_zero_iff. split; [lia|].
    destruct Hzero as [H0|H0].
    + exists 0, c0. split; [done|]. split; [done|lia].
    + exists r0, 0. split; [done|]. split; [done|lia].
Qed.

Lemma mapM_length {A B} (f : A -> outcome B) (l : list A) ys :
  mapM f l = Returned ys -> length ys = length l.
Proof.
  revert ys. induction l as [|x l IH]; intros ys; simpl.
  - by intros [= <-].
  - destruct (f x) as [y|]; [|done]. simpl.
    destruct (mapM f l) as [k|]; [|done]. simpl. intros [= <-]. simpl. by rewrite (IH k).
Qed.

Section MoreTests.

Variable pearson : bool -> list (list Z) -> list (list freq) -> Z -> float * float.
Variable hypergeom : Z -> Z -> Z -> Z -> float * float.

Lemma chi_square_test_testable correction t :
  testable t ->
  exists r, chi_square_test pearson t correction = Returned r /\
    chi2_contingency pearson correction t = Returned r.
Proof.
  intros Ht. destruct (chi2_contingency_returns pearson correction t Ht) as (r & Hr & _).
  unfold chi_square_test. destruct Ht as (_ & Hsz & _).
  destruct (Z.eqb_spec (size t) 0); [done|]. rewrite Hr. simpl. exists r. by destruct r.
Qed.

Lemma chi_square_test_not_testable correction t :
  ~ testable t -> chi_square_test pearson t correction = Raised ValueError.
Proof.
  intros Ht. unfold chi_square_test. destruct (Z.eqb_spec (size t) 0); [done|].
  by rewrite (chi2_contingency_raises pearson correction t Ht).
Qed.

(** X11.  On a rectangular table of counts, [chi_square_test] raises exactly when
    the table has no cell, or has a positive total and a row or a column that
    adds up to zero; what it raises is always [ValueError], and otherwise it
    returns. *)
Theorem chi_square_test_raises_iff (t : Table) (correction : bool) :
  wf_table t -> nonneg_table t ->
  (chi_square_test pearson t correction = Raised ValueError <->
     size t = 0 \/ (0 < table_sum t /\ (0 ∈ row_margins t \/ 0 ∈ col_margins t))) /\
  ((exists r, chi_square_test pearson t correction = Returned r) <->
     size t <> 0 /\ (table_sum t = 0 \/
                     ((0 ∉ row_margins t) /\ (0 ∉ col_margins t)))) /\
  (forall e, chi_square_test pearson t correction = Raised e -> e = ValueError).
Proof.
  intros Hwf Hnn. pose proof (not_testable_iff t Hwf Hnn) as Hiff.
  pose proof (table_sum_nonneg t Hnn) as Hsum.
  destruct (decide (testable t)) as [Ht|Ht].
  - destruct (chi_square_test_testable correction t Ht) as (r & -> & _).
    assert (~ (size t = 0 \/ 0 < table_sum t /\
               (0 ∈ row_margins t \/ 0 ∈ col_margins t))) as Hno by tauto.
    split; [split; [done|tauto]|]. split; [|done]. split; [|by exists r].
    intros _. split; [tauto|].
    destruct (decide (table_sum t = 0)); [by left|right]. split; intros ?; apply Hno; right;
      (split; [lia|tauto]).
  - rewrite (chi_square_test_not_testable correction t Ht).
    split; [split; [tauto|done]|]. split; [|by intros e [= <-]].
    split; [by intros [? ?]|]. intros [Hsz Hok]. exfalso.
    apply Hiff in Ht as [?|[Hpos Hz]]; [done|]. destruct Hok as [?|[? ?]]; [lia|tauto].
Qed.

(** X12.  On a valid table with a single row or a single column the test is
    degenerate: it returns a statistic of [0.0], a p-value of [1.0] and no
    degree of freedom, whatever the numerical kernel. *)
Theorem chi_square_test_single_row_or_column (t : Table) (correction : bool) :
  valid_table t ->
  Z.min (Z.of_nat (length (index t))) (Z.of_nat (length (labels t))) = 1 ->
  exists r,
    chi_square_test pearson t correction = Returned r /\
    chi2 r = PrimFloat.zero /\ p_value r = PrimFloat.one /\ dof r = 0.
Proof.
  intros Hv Hk. assert (size t <> 0) as Hsz by (unfold size; lia).
  pose proof (valid_testable t Hv Hsz) as Ht.
  destruct (chi_square_test_testable correction t Ht) as (r & Hr & Hr').
  destruct (chi2_contingency_returns pearson correction t Ht) as (r' & Hr'' & Hdof & _ & Hdeg).
  assert (r' = r) as -> by congruence.
  exists r. split; [done|]. assert (dof r = 0) as H0 by nia.
  destruct (Hdeg H0) as [? ?]. done.
Qed.

(** X13.  A table that has cells but only zeros is not refused: the test returns,
    and every expected frequency it reports is undefined (NaN). *)
Theorem chi_square_test_zero_total (t : Table) (correction : bool) :
  nonneg_table t -> size t <> 0 -> table_sum t = 0 ->
  exists r,
    chi_square_test pearson t correction = Returned r /\
    Forall (Forall (fun x => x = FUndef)) (expected r).
Proof.
  intros Hnn Hsz Hn.
  assert (testable t) as Ht.
  { split; [by apply nonneg_not_negative|]. split; [done|].
    destruct (any_zero (expected_freq t)) eqn:Hz; [|done].
    apply any_zero_iff in Hz as [? _]. done. }
  destruct (chi_square_test_testable correction t Ht) as (r & Hr & Hr').
  destruct (chi2_contingency_returns pearson correction t Ht) as (r' & Hr'' & _ & Hexp & _).
  assert (r' = r) as -> by congruence.
  exists r. split; [done|]. rewrite Hexp. unfold expected_freq. rewrite Hn.
  apply Forall_fmap, Forall_forall. intros ri _. simpl.
  apply Forall_fmap, Forall_forall. intros cj _. done.
Qed.

End MoreTests.

(** The characterisation at the table with an unobserved column. *)
Lemma chi_square_test_raises_iff_witness :
  (chi_square_test sample_pearson sparse_column true = Raised ValueError <->
     size sparse_column = 0 \/
     (0 < table_sum sparse_column /\
      (0 ∈ row_margins sparse_column \/ 0 ∈ col_margins sparse_column))) /\
  ((exists r, chi_square_test sample_pearson sparse_column true = Returned r) <->
     size sparse_column <> 0 /\
     (table_sum sparse_column = 0 \/
      ((0 ∉ row_margins sparse_column) /\ (0 ∉ col_margins sparse_column)))) /\
  (forall e, chi_square_test sample_pearson sparse_column true = Raised e ->
     e = ValueError).
Proof.
  apply (chi_square_test_raises_iff sample_pearson sparse_column true).
  - split; [reflexivity|]. by repeat constructor.
  - repeat constructor; lia.
Defined.

(** The degenerate result at the table [[4, 6]]. *)
Lemma chi_square_test_single_row_or_column_witness :
  exists r,
    chi_square_test sample_pearson single_row_table true = Returned r /\
    chi2 r = PrimFloat.zero /\ p_value r = PrimFloat.one /\ dof r = 0.
Proof.
  apply (chi_square_test_single_row_or_column sample_pearson single_row_table true).
  - split; [split; [reflexivity|by repeat constructor]|].
    split; [repeat constructor; lia|].
    split; repeat constructor; vm_compute; lia.
  - reflexivity.
Defined.

(** The undefined expected frequencies at the table [[0, 0]]. *)
Lemma chi_square_test_zero_total_witness :
  exists r,
    chi_square_test sample_pearson zero_row_table true = Returned r /\
    Forall (Forall (fun x => x = FUndef)) (expected r).
Proof.
  apply (chi_square_test_zero_total sample_pearson zero_row_table true).
  - repeat constructor; lia.
  - by vm_compute.
  - reflexivity.
Defined.

(** ** Signs of binary64 values *)

Lemma ltb_zero_negative x :
  PrimFloat.ltb x PrimFloat.zero = sf_negative (FloatOps.Prim2SF x).
Proof.
  rewrite FloatAxioms.ltb_spec.
  change (FloatOps.Prim2SF PrimFloat.zero) with (SpecFloat.S754_zero false).
  unfold SpecFloat.SFltb.
  destruct (FloatOps.Prim2SF x) as [s|s| |s m e]; simpl; try reflexivity; by destruct s.
Qed.

Lemma binary_round_aux_sign s m e l :
  sf_sign (SpecFloat.binary_round_aux FloatOps.prec FloatOps.emax s m e l) = true ->
  s = true.
Proof.
  unfold SpecFloat.binary_round_aux.
  destruct (SpecFloat.shr_fexp FloatOps.prec FloatOps.emax m e l) as [mrs' e'].
  destruct (SpecFloat.shr_fexp FloatOps.prec FloatOps.emax _ e' SpecFloat.loc_Exact)
    as [mrs'' e''].
  destruct (SpecFloat.shr_m mrs''); simpl; try discriminate; auto.
  destruct (e'' <=? FloatOps.emax - FloatOps.prec)%Z; simpl; auto.
Qed.

Lemma of_uint63_sign n : sf_sign (FloatOps.Prim2SF (PrimFloat.of_uint63 n)) = false.
Proof.
  rewrite FloatAxioms.of_uint63_spec. unfold SpecFloat.binary_normalize.
  pose proof (Uint63.to_Z_bounded n) as Hb.
  change (Uint63Axioms.to_Z n) with (Uint63.to_Z n).
  destruct (Uint63.to_Z n) as [|q|q] eqn:E; [reflexivity| |lia].
  unfold SpecFloat.binary_round. destruct (SpecFloat.shl_align _ _ _) as [mz ez].
  destruct (sf_sign _) eqn:H; [|reflexivity].
  by apply binary_round_aux_sign in H.
Qed.

Lemma sf_negative_sign f : sf_negative f = true -> sf_sign f = true.
Proof. by destruct f. Qed.

(** A quotient is not below zero when the dividend is not and the divisor
    carries no sign. *)
Lemma div_not_negative x y :
  PrimFloat.ltb x PrimFloat.zero = false -> sf_sign (FloatOps.Prim2SF y) = false ->
  PrimFloat.ltb (PrimFloat.div x y) PrimFloat.zero = false.
Proof.
  rewrite !ltb_zero_negative, FloatAxioms.div_spec.
  unfold FloatAxioms.SF64div, SpecFloat.SFdiv.
  destruct (FloatOps.Prim2SF x) as [sx|sx| |sx mx ex],
           (FloatOps.Prim2SF y) as [sy|sy| |sy my ey];
    simpl; intros Hx Hy; subst; try reflexivity.
  destruct (SpecFloat.SFdiv_core_binary _ _ _ _ _ _) as [[mz ez] lz].
  destruct (sf_negative _) eqn:H; [|reflexivity].
  by apply sf_negative_sign, binary_round_aux_sign in H.
Qed.

Lemma ltb_leb x y : PrimFloat.ltb x y = true -> PrimFloat.leb x y = true.
Proof.
  rewrite FloatAxioms.ltb_spec, FloatAxioms.leb_spec.
  unfold SpecFloat.SFltb, SpecFloat.SFleb.
  by destruct (SpecFloat.SFcompare _ _) as [[]|].
Qed.

Lemma SFcompare_refl f :
  f <> SpecFloat.S754_nan -> SpecFloat.SFcompare f f = Some Eq.
Proof.
  destruct f as [s|s| |s m e]; simpl; try done.
  - by destruct s.
  - intros _. rewrite Z.compare_refl, Pos.compare_cont_refl. by destruct s.
Qed.

Lemma is_nan_spec x :
  PrimFloat.is_nan x = true -> FloatOps.Prim2SF x = SpecFloat.S754_nan.
Proof.
  unfold PrimFloat.is_nan. rewrite FloatAxioms.eqb_spec. unfold SpecFloat.SFeqb.
  intros H. destruct (FloatOps.Prim2SF x) as [s|s| |s m e] eqn:E; [| |done|];
    by rewrite SFcompare_refl in H.
Qed.

(** [min(1.0, x)] of Python is a number, at most 1; it is [1.0] when [x] is
    NaN. *)
Lemma py_min_one x :
  PrimFloat.leb (py_min PrimFloat.one x) PrimFloat.one = true /\
  (FloatOps.Prim2SF x = SpecFloat.S754_nan -> py_min PrimFloat.one x = PrimFloat.one).
Proof.
  unfold py_min. split.
  - destruct (PrimFloat.ltb x PrimFloat.one) eqn:H; [by apply ltb_leb|reflexivity].
  - intros Hn. rewrite FloatAxioms.ltb_spec, Hn. reflexivity.
Qed.

(** ** Cramer's V, Fisher and the adjusted p-values *)

Section EffectSizes.

Variable pearson : bool -> list (list Z) -> list (list freq) -> Z -> float * float.
Variable hypergeom : Z -> Z -> Z -> Z -> float * float.


Lemma chi2_contingency_statistic correction t r :
  (forall y o e d, PrimFloat.ltb (fst (pearson y o e d)) PrimFloat.zero = false) ->
  chi2_contingency pearson correction t = Returned r ->
  PrimFloat.ltb (chi2 r) PrimFloat.zero = false.
Proof.
  intros Hk. unfold chi2_contingency. destruct (any_negative t); [done|].
  destruct (size t =? 0); [done|]. destruct (any_zero _); [done|].
  destruct (_ =? 0).
  - by intros [= <-].
  - specialize (Hk (((Z.of_nat (length (index t)) * Z.of_nat (length (labels t))
                      - (Z.of_nat (length (index t)) + Z.of_nat (length (labels t)))
                      + 2 - 1) =? 1) && correction)
                   (counts t) (expected_freq t)
                   (Z.of_nat (length (index t)) * Z.of_nat (length (labels t))
                      - (Z.of_nat (length (index t)) + Z.of_nat (length (labels t)))
                      + 2 - 1)).
    destruct (pearson _ _ _ _) as [stat pv]. by intros [= <-].
Qed.


(** X18.  Every adjusted p-value that [pairwise_chi2_posthoc] returns is a number
    at most 1.  A NaN p-value of a pair is not kept: its adjusted value is
    [1.0], and the pair is significant only if [1.0 < alpha]. *)
Theorem pairwise_chi2_posthoc_p_adj (t : Table) (alpha : float) (res : list PosthocRow) :
  pairwise_chi2_posthoc pearson t alpha = Returned res ->
  Forall (fun row =>
            PrimFloat.leb (p_adj row) PrimFloat.one = true /\
            (PrimFloat.is_nan (p row) = true ->
               p_adj row = PrimFloat.one /\
               significant row = PrimFloat.ltb PrimFloat.one alpha)) res.
Proof.
  unfold pairwise_chi2_posthoc.
  destruct (mapM (pair_test pearson t) (row_pairs (index t))) as [raw|]; [|done].
  simpl. intros [= <-]. apply Forall_fmap, Forall_forall. intros r Hr. simpl.
  assert (0 < Z.of_nat (length raw)) as Hm.
  { destruct raw; [by apply not_elem_of_nil in Hr|simpl; lia]. }
  destruct (bonferroni_fields alpha _ r Hm) as (_ & Hadj & Hsig).
  set (m := Z.of_nat (length raw)) in *. set (row := bonferroni alpha m r) in *.
  rewrite Hsig, Hadj.
  destruct (py_min_one (PrimFloat.mul (p row) (float_of_int m))) as [Hle Hnan].
  split; [done|]. intros Hp. apply is_nan_spec in Hp.
  rewrite Hnan; [done|]. rewrite FloatAxioms.mul_spec, Hp. reflexivity.
Qed.

(** X14.  On a 2 x 2 table of counts with a row or a column that adds up to zero,
    [fisher_test_if_applicable] does not raise: it returns a NaN odds ratio
    with a p-value of [1.0], without consulting the kernel; the chi-square
    test raises on the same table when some count is positive. *)
Theorem fisher_test_zero_margin (t : Table) :
  wf_table t -> nonneg_table t -> shape t = (2%nat, 2%nat) ->
  0 ∈ row_margins t \/ 0 ∈ col_margins t ->
  fisher_test_if_applicable hypergeom t
    = Returned (Some (mkFisherResult PrimFloat.nan PrimFloat.one)) /\
  (0 < table_sum t -> chi_square_test pearson t true = Raised ValueError).
Proof.
  intros Hwf Hnn Hshape Hz. split.
  - destruct Hwf as [Hlen Hw]. unfold shape in Hshape. injection Hshape as HR HC.
    unfold fisher_test_if_applicable, shape. rewrite HR, HC.
    rewrite bool_decide_eq_true_2 by done.
    unfold row_margins, col_margins in Hz. rewrite HC in Hz, Hw. rewrite HR in Hlen.
    unfold nonneg_table in Hnn.
    destruct (counts t) as [|r1 [|r2 [|? ?]]]; try done.
    apply Forall_cons in Hw as [H1 Hw]. apply Forall_cons in Hw as [H2 _].
    apply Forall_cons in Hnn as [N1 Hnn]. apply Forall_cons in Hnn as [N2 _].
    destruct r1 as [|a [|b [|? ?]]]; try done.
    destruct r2 as [|c [|d [|? ?]]]; try done.
    apply Forall_cons in N1 as [Ha N1]. apply Forall_cons in N1 as [Hb _].
    apply Forall_cons in N2 as [Hc N2]. apply Forall_cons in N2 as [Hd _].
    unfold fisher_exact.
    replace ((a <? 0) || (b <? 0) || (c <? 0) || (d <? 0)) with false
      by (symmetry; rewrite !orb_false_iff, !Z.ltb_ge; lia).
    assert ((a + c =? 0) || (b + d =? 0) || (a + b =? 0) || (c + d =? 0) = true) as ->.
    { rewrite !orb_true_iff, !Z.eqb_eq. simpl in Hz.
      rewrite !elem_of_cons, !elem_of_nil in Hz. lia. }
    done.
  - intros Hpos. apply chi_square_test_not_testable.
    apply (not_testable_iff t Hwf Hnn). right. done.
Qed.

End EffectSizes.


(** The adjusted p-values at the 3 x 2 table. *)
Lemma pairwise_chi2_posthoc_p_adj_witness :
  exists res,
    pairwise_chi2_posthoc sample_pearson dense_rows default_alpha = Returned res /\
    Forall (fun row =>
              PrimFloat.leb (p_adj row) PrimFloat.one = true /\
              (PrimFloat.is_nan (p row) = true ->
                 p_adj row = PrimFloat.one /\
                 significant row = PrimFloat.ltb PrimFloat.one default_alpha)) res.
Proof.
  eexists. split; [by vm_compute|].
  apply (pairwise_chi2_posthoc_p_adj sample_pearson dense_rows default_alpha).
  by vm_compute.
Defined.

(** Fisher at the table [[1, 0], [2, 0]]. *)
Lemma fisher_test_zero_margin_witness :
  fisher_test_if_applicable sample_hypergeom sparse_column
    = Returned (Some (mkFisherResult PrimFloat.nan PrimFloat.one)) /\
  (0 < table_sum sparse_column ->
   chi_square_test sample_pearson sparse_column true = Raised ValueError).
Proof.
  apply (fisher_test_zero_margin sample_pearson sample_hypergeom sparse_column).
  - split; [reflexivity|]. by repeat constructor.
  - repeat constructor; lia.
  - reflexivity.
  - right. apply list_elem_of_lookup. exists 1%nat. reflexivity.
Defined.

(** ** The post-hoc tests and rows that share an empty column *)

Lemma elem_of_row_pairs (l : list value) a b :
  (a, b) ∈ row_pairs l <->
  exists i j : nat, (i < j)%nat /\ l !! i = Some a /\ l !! j = Some b.
Proof.
  induction l as [|x l IH]; simpl.
  - split; [by intros ?%not_elem_of_nil|]. by intros (i & j & _ & ? & _).
  - rewrite elem_of_app, list_elem_of_fmap, IH. split.
    + intros [(y & [= -> ->] & Hy)|(i & j & Hij & Hi & Hj)].
      * apply list_elem_of_lookup in Hy as [j Hj]. exists 0%nat, (S j).
        split; [lia|]. done.
      * exists (S i), (S j). split; [lia|]. done.
    + intros (i & j & Hij & Hi & Hj). destruct j as [|j]; [lia|]. simpl in Hj.
      destruct i as [|i]; simpl in Hi.
      * left. injection Hi as ->. exists b. split; [done|].
        by eapply list_elem_of_lookup_2.
      * right. exists i, j. split; [lia|]. done.
Qed.

Lemma filter_label_NoDup (idx : list value) (cnts : list (list Z)) (i : nat) a r :
  NoDup idx -> idx !! i = Some a -> cnts !! i = Some r ->
  List.filter (fun ir : value * list Z => bool_decide (fst ir = a)) (zip idx cnts)
  = [(a, r)].
Proof.
  revert cnts i. induction idx as [|x idx IH]; intros cnts i Hnd Hi Hr; [done|].
  destruct cnts as [|y cnts]; [done|]. apply NoDup_cons in Hnd as [Hx Hnd].
  destruct i as [|i]; simpl in Hi, Hr.
  - injection Hi as ->. injection Hr as ->. simpl.
    rewrite bool_decide_eq_true_2 by done. f_equal.
    clear IH Hnd. revert cnts. induction idx as [|z idx IH]; intros cnts; [done|].
    destruct cnts as [|w cnts]; [done|]. simpl.
    rewrite bool_decide_eq_false_2.
    + apply IH. intros ?. apply Hx. by right.
    + simpl. intros ->. apply Hx. left.
  - simpl. rewrite bool_decide_eq_false_2.
    + by apply (IH cnts i).
    + simpl. intros ->. apply Hx. by eapply list_elem_of_lookup_2.
Qed.

Lemma loc_rows_pair (t : Table) (i j : nat) a b r1 r2 :
  NoDup (index t) ->
  index t !! i = Some a -> index t !! j = Some b ->
  counts t !! i = Some r1 -> counts t !! j = Some r2 ->
  loc_rows t [a; b] = {| index := [a; b]; labels := labels t; counts := [r1; r2] |}.
Proof.
  intros Hnd Hi Hj Hr1 Hr2. unfold loc_rows. simpl.
  rewrite (filter_label_NoDup _ _ i a r1), (filter_label_NoDup _ _ j b r2) by done.
  done.
Qed.

Lemma two_rows_not_testable (a b : value) (L : list value) (r1 r2 : list Z) :
  L <> [] -> length r1 = length L -> length r2 = length L ->
  Forall (fun x => 0 <= x) r1 -> Forall (fun x => 0 <= x) r2 ->
  0 < zsum r1 -> 0 < zsum r2 ->
  ~ testable {| index := [a; b]; labels := L; counts := [r1; r2] |} <->
  exists c : nat, r1 !! c = Some 0 /\ r2 !! c = Some 0.
Proof.
  intros HL H1 H2 N1 N2 S1 S2.
  set (sub := {| index := [a; b]; labels := L; counts := [r1; r2] |}).
  assert (wf_table sub) as Hwf by (split; [done|by repeat constructor]).
  assert (nonneg_table sub) as Hnn by by repeat constructor.
  rewrite (not_testable_iff sub Hwf Hnn).
  assert (size sub <> 0) as Hsz.
  { unfold size. simpl. destruct L; [done|]. simpl. lia. }
  assert (table_sum sub = zsum r1 + zsum r2) as Hsum.
  { unfold table_sum. simpl. lia. }
  assert (0 ∉ row_margins sub) as Hrow.
  { unfold row_margins. simpl. rewrite !elem_of_cons, elem_of_nil. lia. }
  assert (forall c (x : Z) r, Forall (fun x => 0 <= x) r -> r !! c = Some x -> 0 <= x) as Hge.
  { intros c x r Hr Hx. eapply (proj1 (Forall_forall _ _) Hr).
    by eapply list_elem_of_lookup_2. }
  split.
  - intros [?|[_ [?|Hcol]]]; [done|done|].
    unfold col_margins in Hcol. simpl in Hcol.
    apply list_elem_of_fmap in Hcol as (c & Hc & Hin).
    apply elem_of_seq in Hin as [_ Hin]. simpl in Hin.
    destruct (lookup_lt_is_Some_2 r1 c) as [x Hx]; [lia|].
    destruct (lookup_lt_is_Some_2 r2 c) as [y Hy]; [lia|].
    rewrite (nth_lookup_Some _ _ _ _ Hx), (nth_lookup_Some _ _ _ _ Hy) in Hc.
    pose proof (Hge _ _ _ N1 Hx). pose proof (Hge _ _ _ N2 Hy).
    exists c. assert (x = 0) as -> by lia. assert (y = 0) as -> by lia. done.
  - intros (c & Hx & Hy). right. split; [lia|]. right.
    unfold col_margins. simpl. apply list_elem_of_fmap. exists c. split.
    + rewrite (nth_lookup_Some _ _ _ _ Hx), (nth_lookup_Some _ _ _ _ Hy). lia.
    + apply elem_of_seq. apply lookup_lt_Some in Hx. lia.
Qed.

(** On a valid table with distinct row labels, a pair of rows whose
    sub-table is not testable is a pair of rows with a shared empty column. *)
Lemma pair_not_testable_iff (t : Table) :
  valid_table t -> NoDup (index t) -> labels t <> [] ->
  Exists (fun ab => ~ testable (loc_rows t [fst ab; snd ab])) (row_pairs (index t))
  <-> shared_zero t.
Proof.
  intros ([Hlen Hw] & Hnn & Hrow & _) Hnd HL.
  assert (forall i r, counts t !! i = Some r ->
            length r = length (labels t) /\ Forall (fun x => 0 <= x) r /\ 0 < zsum r)
    as Hrows.
  { intros i r Hr. apply list_elem_of_lookup_2 in Hr. split; [|split].
    - by eapply (proj1 (Forall_forall _ _) Hw).
    - by eapply (proj1 (Forall_forall _ _) Hnn).
    - eapply (proj1 (Forall_forall _ _) Hrow). unfold row_margins.
      apply list_elem_of_fmap. by exists r. }
  rewrite Exists_exists. split.
  - intros ([a b] & Hab & Hnt). simpl in Hnt.
    apply elem_of_row_pairs in Hab as (i & j & Hij & Hi & Hj).
    destruct (lookup_lt_is_Some_2 (counts t) i) as [r1 Hr1].
    { rewrite Hlen. by eapply lookup_lt_Some. }
    destruct (lookup_lt_is_Some_2 (counts t) j) as [r2 Hr2].
    { rewrite Hlen. by eapply lookup_lt_Some. }
    rewrite (loc_rows_pair t i j a b r1 r2) in Hnt by done.
    destruct (Hrows _ _ Hr1) as (? & ? & ?). destruct (Hrows _ _ Hr2) as (? & ? & ?).
    apply two_rows_not_testable in Hnt as (c & ? & ?); try done.
    by exists i, j, c, r1, r2.
  - intros (i & j & c & r1 & r2 & Hij & Hr1 & Hr2 & H1 & H2).
    destruct (lookup_lt_is_Some_2 (index t) i) as [a Hi].
    { rewrite <- Hlen. by eapply lookup_lt_Some. }
    destruct (lookup_lt_is_Some_2 (index t) j) as [b Hj].
    { rewrite <- Hlen. by eapply lookup_lt_Some. }
    exists (a, b). split.
    + apply elem_of_row_pairs. by exists i, j.
    + simpl. rewrite (loc_rows_pair t i j a b r1 r2) by done.
      destruct (Hrows _ _ Hr1) as (? & ? & ?). destruct (Hrows _ _ Hr2) as (? & ? & ?).
      apply two_rows_not_testable; try done. by exists c.
Qed.

Lemma pairs_testable_iff (t : Table) :
  valid_table t -> NoDup (index t) -> labels t <> [] ->
  Forall (fun ab => testable (loc_rows t [fst ab; snd ab])) (row_pairs (index t))
  <-> ~ shared_zero t.
Proof.
  intros Hv Hnd HL. rewrite <- (pair_not_testable_iff t Hv Hnd HL). split.
  - intros Hall Hex. apply Exists_exists in Hex as (ab & Hab & Hnt).
    by apply Hnt, (proj1 (Forall_forall _ _) Hall).
  - intros Hno. apply Forall_forall. intros ab Hab.
    destruct (decide (testable (loc_rows t [fst ab; snd ab]))) as [|Hnt]; [done|].
    exfalso. apply Hno, Exists_exists. by exists ab.
Qed.

Section Posthoc.

Variable pearson : bool -> list (list Z) -> list (list freq) -> Z -> float * float.

(** X17.  On a valid table with distinct row labels and at least one column,
    [pairwise_chi2_posthoc] raises [ValueError] exactly when two rows are
    both zero in some column, and returns a result for every pair of rows
    otherwise. *)
Theorem pairwise_chi2_posthoc_shared_zero (t : Table) (alpha : float) :
  valid_table t -> NoDup (index t) -> labels t <> [] ->
  (pairwise_chi2_posthoc pearson t alpha = Raised ValueError <-> shared_zero t) /\
  ((exists res, pairwise_chi2_posthoc pearson t alpha = Returned res /\
                Z.of_nat (length res) = choose2 (Z.of_nat (length (index t))))
   <-> ~ shared_zero t).
Proof.
  intros Hv Hnd HL.
  pose proof (pair_not_testable_iff t Hv Hnd HL) as Hex.
  pose proof (pairs_testable_iff t Hv Hnd HL) as Hall.
  destruct (decide (Forall (fun ab => testable (loc_rows t [fst ab; snd ab]))
                           (row_pairs (index t)))) as [Hok|Hno].
  - destruct (pair_tests_return pearson t Hok) as (raw & Hraw & _).
    pose proof (mapM_length _ _ _ Hraw) as Hlen.
    unfold pairwise_chi2_posthoc. rewrite Hraw. simpl.
    apply Hall in Hok. split; [split; [done|tauto]|]. split; [done|]. intros _.
    eexists. split; [done|]. by rewrite length_map, Hlen, row_pairs_length.
  - apply not_Forall_Exists in Hno; [|apply _].
    rewrite (pairwise_chi2_posthoc_raises pearson t alpha Hno).
    apply Hex in Hno. split; [tauto|]. split; [by intros (? & ? & _)|tauto].
Qed.

End Posthoc.

(** The post-hoc tests at the table whose rows [a] and [b] are both zero in
    column [y]. *)
Lemma pairwise_chi2_posthoc_shared_zero_witness :
  (pairwise_chi2_posthoc sample_pearson sparse_rows default_alpha = Raised ValueError
     <-> shared_zero sparse_rows) /\
  ((exists res,
      pairwise_chi2_posthoc sample_pearson sparse_rows default_alpha = Returned res /\
      Z.of_nat (length res) = choose2 (Z.of_nat (length (index sparse_rows))))
   <-> ~ shared_zero sparse_rows).
Proof.
  apply (pairwise_chi2_posthoc_shared_zero sample_pearson sparse_rows default_alpha).
  - apply sparse_rows_valid.
  - simpl. repeat (apply NoDup_cons; split;
      [rewrite ?elem_of_cons, ?elem_of_nil; intuition congruence|]).
    apply NoDup_nil_2.
  - done.
Defined.

(** ** The summary of a batch *)

Lemma crosstab_size_iff df row col :
  size (crosstab (series df row) (series df col)) <> 0 <->
  Exists (complete row col) (rows df).
Proof.
  unfold size, crosstab. simpl. rewrite Exists_exists. split.
  - intros Hsz.
    destruct (unique_sorted (map fst (kept_pairs (series df row) (series df col))))
      as [|v l] eqn:E; [simpl in Hsz; lia|].
    assert (v ∈ v :: l) as Hv by left. rewrite <- E in Hv.
    apply elem_of_unique_sorted, list_elem_of_fmap in Hv as (q & _ & Hq).
    apply elem_of_kept_pairs in Hq as (r & ? & ? & _). by exists r.
  - intros (r & Hr & Hc).
    assert ((cell r row, cell r col) ∈ kept_pairs (series df row) (series df col)) as Hq.
    { apply elem_of_kept_pairs. by exists r. }
    assert (cell r row ∈ unique_sorted (map fst (kept_pairs (series df row) (series df col))))
      as H1.
    { apply elem_of_unique_sorted, list_elem_of_fmap.
      by exists (cell r row, cell r col). }
    assert (cell r col ∈ unique_sorted (map snd (kept_pairs (series df row) (series df col))))
      as H2.
    { apply elem_of_unique_sorted, list_elem_of_fmap.
      by exists (cell r row, cell r col). }
    destruct (unique_sorted (map fst _)); [by apply not_elem_of_nil in H1|].
    destruct (unique_sorted (map snd _)); [by apply not_elem_of_nil in H2|].
    simpl. lia.
Qed.

Lemma size_labels t : size t <> 0 -> labels t <> [].
Proof. unfold size. intros Hsz Hnil. rewrite Hnil in Hsz. simpl in Hsz. lia. Qed.

Section Summaries.

Variable pearson : bool -> list (list Z) -> list (list freq) -> Z -> float * float.
Variable hypergeom : Z -> Z -> Z -> Z -> float * float.

Hypothesis pearson_not_negative :
  forall y o e d, PrimFloat.ltb (fst (pearson y o e d)) PrimFloat.zero = false.

Lemma cramers_v_testable t : testable t -> exists v, cramers_v pearson t = Returned v.
Proof.
  intros Ht. destruct (chi2_contingency_returns pearson true t Ht) as (r & Hr & _).
  pose proof (chi2_contingency_statistic pearson true t r pearson_not_negative Hr) as Hs.
  unfold cramers_v. rewrite Hr. simpl.
  destruct (table_sum t =? 0); [by eexists|]. destruct (_ =? 1); [by eexists|].
  unfold math_sqrt. rewrite div_not_negative; [by eexists|done|apply of_uint63_sign].
Qed.

Lemma fisher_test_returns t :
  wf_table t -> nonneg_table t ->
  exists o, fisher_test_if_applicable hypergeom t = Returned o /\
            (is_Some o <-> shape t = (2%nat, 2%nat)).
Proof.
  intros [Hlen Hw] Hnn. unfold fisher_test_if_applicable.
  case_bool_decide as Hshape.
  - unfold shape in Hshape. injection Hshape as HR HC.
    rewrite HR in Hlen. rewrite HC in Hw. unfold nonneg_table in Hnn.
    destruct (counts t) as [|r1 [|r2 [|? ?]]]; try done.
    apply Forall_cons in Hw as [H1 Hw]. apply Forall_cons in Hw as [H2 _].
    apply Forall_cons in Hnn as [N1 Hnn]. apply Forall_cons in Hnn as [N2 _].
    destruct r1 as [|a [|b [|? ?]]]; try done.
    destruct r2 as [|c [|d [|? ?]]]; try done.
    apply Forall_cons in N1 as [Ha N1]. apply Forall_cons in N1 as [Hb _].
    apply Forall_cons in N2 as [Hc N2]. apply Forall_cons in N2 as [Hd _].
    unfold fisher_exact.
    replace ((a <? 0) || (b <? 0) || (c <? 0) || (d <? 0)) with false
      by (symmetry; rewrite !orb_false_iff, !Z.ltb_ge; lia).
    assert (shape t = (2%nat, 2%nat)) as Hs by (unfold shape; congruence).
    destruct ((a + c =? 0) || (b + d =? 0) || (a + b =? 0) || (c + d =? 0)).
    + simpl. eexists. split; [done|]. split; [done|intros _; by eexists].
    + destruct (hypergeom a b c d) as [o pv]. simpl. eexists. split; [done|].
      split; [done|intros _; by eexists].
  - exists None. split; [done|]. split; [by intros [? ?]|done].
Qed.

(** X19.  [summarize_batch] raises [KeyError] exactly when one of the two columns
    is missing (where [build_contingency_table] raises it too).  On a frame
    that has both, it raises [ValueError] when no record is complete (where
    [build_contingency_table] returns an empty table) or when two rows of
    the table are both zero in some column, and it returns otherwise. *)
Theorem summarize_batch_outcome (df : DataFrame) (row col : string) :
  let t := crosstab (series df row) (series df col) in
  (summarize_batch pearson hypergeom df row col = Raised KeyError
     <-> row ∉ columns df \/ col ∉ columns df) /\
  (summarize_batch pearson hypergeom df row col = Raised ValueError
     <-> row ∈ columns df /\ col ∈ columns df /\
         (~ Exists (complete row col) (rows df) \/ shared_zero t)) /\
  ((exists s, summarize_batch pearson hypergeom df row col = Returned s)
     <-> row ∈ columns df /\ col ∈ columns df /\
         Exists (complete row col) (rows df) /\ ~ shared_zero t).
Proof.
  intros t. unfold summarize_batch, getitem, has_column.
  destruct (decide (row ∈ columns df)) as [Hr|Hr].
  2:{ rewrite (bool_decide_eq_false_2 (row ∈ columns df)) by done. simpl.
      split; [split; [intros _; by left|done]|].
      split; split; try done; try tauto. by intros [? ?]. }
  rewrite (bool_decide_eq_true_2 (row ∈ columns df)) by done. simpl.
  destruct (decide (col ∈ columns df)) as [Hc|Hc].
  2:{ rewrite (bool_decide_eq_false_2 (col ∈ columns df)) by done. simpl.
      split; [split; [intros _; by right|done]|].
      split; split; try done; try tauto. by intros [? ?]. }
  rewrite (bool_decide_eq_true_2 (col ∈ columns df)) by done. simpl.
  fold t. pose proof (crosstab_size_iff df row col) as Hsize. fold t in Hsize.
  pose proof (crosstab_valid (series df row) (series df col)) as Hv. fold t in Hv.
  split; [split; [|tauto]|].
  { unfold chi_square_test. destruct (size t =? 0); [done|].
    destruct (chi2_contingency pearson true t) as [r|e] eqn:E; simpl.
    - destruct (fisher_test_returns t) as (o & -> & _); [apply Hv|apply Hv|]. simpl.
      destruct (cramers_v_testable t) as [v ->].
      { destruct (decide (testable t)) as [|Hn]; [done|].
        by rewrite (chi2_contingency_raises pearson true t Hn) in E. }
      simpl. destruct (pairwise_chi2_posthoc pearson t default_alpha) as [res|e] eqn:Ep;
        [done|].
      simpl. intros [= ->]. exfalso.
      destruct (decide (Forall (fun ab => testable (loc_rows t [fst ab; snd ab]))
                               (row_pairs (index t)))) as [Hok|Hno].
      + destruct (pair_tests_return pearson t Hok) as (raw & Hraw & _).
        unfold pairwise_chi2_posthoc in Ep. by rewrite Hraw in Ep.
      + apply not_Forall_Exists in Hno; [|apply _].
        by rewrite (pairwise_chi2_posthoc_raises pearson t default_alpha Hno) in Ep.
    - destruct (decide (testable t)) as [Ht|Hn].
      + destruct (chi2_contingency_returns pearson true t Ht) as (? & ? & _). congruence.
      + rewrite (chi2_contingency_raises pearson true t Hn) in E. injection E as <-.
        done. }
  destruct (decide (size t = 0)) as [Hsz|Hsz].
  { assert (~ Exists (complete row col) (rows df)) as Hnone by tauto.
    unfold chi_square_test. rewrite Hsz. simpl.
    split; [split; [tauto|done]|]. split; [by intros [? ?]|tauto]. }
  assert (Exists (complete row col) (rows df)) as Hsome by tauto.
  assert (NoDup (index t)) as Hnd by apply unique_sorted_NoDup.
  pose proof (size_labels t Hsz) as HL.
  pose proof (valid_testable t Hv Hsz) as Ht.
  destruct (chi_square_test_testable pearson true t Ht) as (r & -> & _). simpl.
  destruct (fisher_test_returns t) as (o & -> & _); [apply Hv|apply Hv|]. simpl.
  destruct (cramers_v_testable t Ht) as [v ->]. simpl.
  destruct (decide (Forall (fun ab => testable (loc_rows t [fst ab; snd ab]))
                           (row_pairs (index t)))) as [Hok|Hno].
  - destruct (pair_tests_return pearson t Hok) as (raw & Hraw & _).
    unfold pairwise_chi2_posthoc. rewrite Hraw. simpl.
    apply (pairs_testable_iff t Hv Hnd HL) in Hok.
    split; [split; [done|tauto]|]. split; [tauto|]. intros _. by eexists.
  - apply not_Forall_Exists in Hno; [|apply _].
    rewrite (pairwise_chi2_posthoc_raises pearson t default_alpha Hno). simpl.
    apply (pair_not_testable_iff t Hv Hnd HL) in Hno.
    split; [split; [tauto|done]|]. split; [by intros [? ?]|tauto].
Qed.

End Summaries.

Section SummaryFields.

Variable pearson : bool -> list (list Z) -> list (list freq) -> Z -> float * float.
Variable hypergeom : Z -> Z -> Z -> Z -> float * float.

(** X20.  What a summary holds: the table [build_contingency_table] builds on the
    batch, and what the four tests return on that table with their defaults.
    The table counts every complete record once and there is at least one;
    the degrees of freedom are [(R - 1) * (C - 1)]; the Fisher entry is
    present exactly for a 2 x 2 table; the post-hoc frame has one line per
    pair of rows. *)
Theorem summarize_batch_fields (df : DataFrame) (row col : string) (s : Summary) :
  summarize_batch pearson hypergeom df row col = Returned s ->
  let t := sm_table s in
  build_contingency_table df row col = Returned t /\
  chi_square_test pearson t true = Returned (sm_chi2 s) /\
  fisher_test_if_applicable hypergeom t = Returned (sm_fisher s) /\
  cramers_v pearson t = Returned (sm_cramers_v s) /\
  pairwise_chi2_posthoc pearson t default_alpha = Returned (sm_posthoc s) /\
  table_sum t = Z.of_nat (length (filter (complete row col) (rows df))) /\
  0 < table_sum t /\
  dof (sm_chi2 s)
    = (Z.of_nat (length (index t)) - 1) * (Z.of_nat (length (labels t)) - 1) /\
  (is_Some (sm_fisher s) <-> shape t = (2%nat, 2%nat)) /\
  Z.of_nat (length (sm_posthoc s)) = choose2 (Z.of_nat (length (index t))).
Proof.
  unfold summarize_batch, getitem, build_contingency_table.
  destruct (has_column df row); [|done]. destruct (has_column df col); [|done]. simpl.
  set (t := crosstab (series df row) (series df col)).
  destruct (chi_square_test pearson t true) as [r|] eqn:Etest; [|done]. simpl.
  destruct (fisher_test_if_applicable hypergeom t) as [o|] eqn:Efisher; [|done]. simpl.
  destruct (cramers_v pearson t) as [v|] eqn:Ev; [|done]. simpl.
  destruct (pairwise_chi2_posthoc pearson t default_alpha) as [ph|] eqn:Eph; [|done].
  simpl. intros [= <-]. simpl.
  pose proof (crosstab_valid (series df row) (series df col)) as Hv. fold t in Hv.
  assert (size t <> 0) as Hsz.
  { intros Hsz. unfold chi_square_test in Etest. by rewrite Hsz in Etest. }
  repeat (split; [done|]).
  split; [|split; [|split; [|split]]].
  - unfold t. rewrite crosstab_sum, kept_pairs_series. done.
  - by apply valid_table_sum_pos.
  - destruct (chi_square_test_testable pearson true t (valid_testable t Hv Hsz))
      as (r' & Hr' & Hc).
    destruct (chi2_contingency_returns pearson true t (valid_testable t Hv Hsz))
      as (r'' & Hr'' & Hdof & _).
    assert (r' = r) as <- by congruence. assert (r'' = r') as <- by congruence.
    exact Hdof.
  - destruct (fisher_test_returns hypergeom t) as (o' & Ho' & Hiff);
      [apply Hv|apply Hv|]. congruence.
  - unfold pairwise_chi2_posthoc in Eph.
    destruct (mapM (pair_test pearson t) (row_pairs (index t))) as [raw|] eqn:Eraw;
      [|done].
    simpl in Eph. injection Eph as <-.
    by rewrite length_map, (mapM_length _ _ _ Eraw), row_pairs_length.
Qed.

End SummaryFields.

(** The outcome at the survey of three records. *)
Lemma summarize_batch_outcome_witness :
  let t := crosstab (series example_survey "region") (series example_survey "mood") in
  (summarize_batch const_pearson sample_hypergeom example_survey "region" "mood"
     = Raised KeyError
     <-> "region" ∉ columns example_survey \/ "mood" ∉ columns example_survey) /\
  (summarize_batch const_pearson sample_hypergeom example_survey "region" "mood"
     = Raised ValueError
     <-> "region" ∈ columns example_survey /\ "mood" ∈ columns example_survey /\
         (~ Exists (complete "region" "mood") (rows example_survey) \/ shared_zero t)) /\
  ((exists s, summarize_batch const_pearson sample_hypergeom example_survey "region" "mood"
              = Returned s)
     <-> "region" ∈ columns example_survey /\ "mood" ∈ columns example_survey /\
         Exists (complete "region" "mood") (rows example_survey) /\ ~ shared_zero t).
Proof.
  apply (summarize_batch_outcome const_pearson sample_hypergeom).
  intros y o e d. reflexivity.
Defined.

(** The summary of the survey of three records. *)
Lemma summarize_batch_fields_witness :
  exists s,
    summarize_batch sample_pearson sample_hypergeom example_survey "region" "mood"
      = Returned s /\
    let t := sm_table s in
    build_contingency_table example_survey "region" "mood" = Returned t /\
    chi_square_test sample_pearson t true = Returned (sm_chi2 s) /\
    fisher_test_if_applicable sample_hypergeom t = Returned (sm_fisher s) /\
    cramers_v sample_pearson t = Returned (sm_cramers_v s) /\
    pairwise_chi2_posthoc sample_pearson t default_alpha = Returned (sm_posthoc s) /\
    table_sum t
      = Z.of_nat (length (filter (complete "region" "mood") (rows example_survey))) /\
    0 < table_sum t /\
    dof (sm_chi2 s)
      = (Z.of_nat (length (index t)) - 1) * (Z.of_nat (length (labels t)) - 1) /\
    (is_Some (sm_fisher s) <-> shape t = (2%nat, 2%nat)) /\
    Z.of_nat (length (sm_posthoc s)) = choose2 (Z.of_nat (length (index t))).
Proof.
  eexists. split; [by vm_compute|].
  apply (summarize_batch_fields sample_pearson sample_hypergeom example_survey
           "region" "mood").
  by vm_compute.
Defined.

(** ** From the cleaned dataset to the tests of each batch *)

Lemma define_batches_by_column_keyed df c :
  c ∈ columns df ->
  define_batches_by_column df c
  = Returned (map (keyed_batch df c) (unique_sorted (notnull (series df c)))).
Proof.
  intros Hc. unfold define_batches_by_column, has_column, groupby, reset_index.
  rewrite bool_decide_eq_true_2 by done. by rewrite map_map.
Qed.

Lemma keyed_batches_sizes df c :
  zsum (map len (map (keyed_batch df c) (unique_sorted (notnull (series df c)))))
  = Z.of_nat (length (filter (fun r => is_null (cell r c) = false) (rows df))).
Proof.
  rewrite map_map. unfold len, keyed_batch, rows_with. simpl.
  rewrite (zsum_count_keys (fun r => cell r c) _ (rows df)) by apply unique_sorted_NoDup.
  f_equal. apply length_filter_ext. intros r Hr.
  rewrite elem_of_unique_sorted, elem_of_notnull. split; [tauto|].
  intros Hnn. split; [|done]. apply list_elem_of_fmap. by exists r.
Qed.

Lemma cleaned_notnull v : is_null (cleaned v) = false.
Proof. done. Qed.

(** Cleaning, then batching by a cleaned key: every record ends up in a
    batch, and the records of the batches are cleaned records. *)
Lemma clean_then_batches df cols key :
  Forall (fun c => c ∈ columns df) cols -> key ∈ cols ->
  exists df' batches,
    clean_categorical_columns df cols = Returned df' /\
    define_batches_by_column df' key = Returned batches /\
    zsum (map len batches) = len df /\
    Forall (fun b => columns b = columns df /\ rows b <> [] /\
                     forall r c, r ∈ rows b -> c ∈ cols -> is_null (cell r c) = false)
           batches.
Proof.
  intros Hcols Hkey.
  set (df' := {| columns := columns df; rows := map (clean_row cols) (rows df) |}).
  assert (forall r c, r ∈ rows df' -> c ∈ cols -> is_null (cell r c) = false) as Hnn.
  { intros r c Hr Hc. simpl in Hr. apply list_elem_of_fmap in Hr as (r0 & -> & _).
    rewrite clean_row_cell, bool_decide_eq_true_2 by done. apply cleaned_notnull. }
  assert (key ∈ columns df') as Hk.
  { simpl. by eapply (proj1 (Forall_forall _ _) Hcols). }
  exists df', (map (keyed_batch df' key) (unique_sorted (notnull (series df' key)))).
  split; [by apply clean_categorical_columns_rows|].
  split; [by apply define_batches_by_column_keyed|]. split.
  - rewrite keyed_batches_sizes, filter_all.
    + unfold len. simpl. by rewrite length_map.
    + apply Forall_forall. intros r Hr. by apply Hnn.
  - apply Forall_forall. intros b Hb. apply list_elem_of_fmap in Hb as (k & -> & Hk').
    split; [done|]. split.
    + simpl. apply rows_with_nonempty.
      apply elem_of_unique_sorted, elem_of_notnull in Hk' as [Hk' _]. exact Hk'.
    + intros r c Hr Hc. apply Hnn; [|done]. simpl in Hr. unfold rows_with in Hr.
      by apply list_elem_of_filter in Hr as [_ Hr].
Qed.

Section Pipeline.

Variable pearson : bool -> list (list Z) -> list (list freq) -> Z -> float * float.

Hypothesis pearson_not_negative :
  forall y o e d, PrimFloat.ltb (fst (pearson y o e d)) PrimFloat.zero = false.

(** X21.  The loop of [run_example] cannot fail before the summary: once the
    dataset is cleaned on columns that include the batch key and the two
    analysed columns, batching returns batches that hold every record of the
    dataset, none empty; and on every batch [build_contingency_table] returns
    a table that counts all the records of the batch, on which
    [chi_square_test] and [cramers_v] both return. *)
Theorem cleaned_batches_are_testable (df : DataFrame) (cols : list string)
    (key row col : string) :
  Forall (fun c => c ∈ columns df) cols -> key ∈ cols -> row ∈ cols -> col ∈ cols ->
  exists df' batches,
    clean_categorical_columns df cols = Returned df' /\
    define_batches_by_column df' key = Returned batches /\
    zsum (map len batches) = len df /\
    Forall (fun b =>
              0 < len b /\
              exists t r v,
                build_contingency_table b row col = Returned t /\
                table_sum t = len b /\
                chi_square_test pearson t true = Returned r /\
                cramers_v pearson t = Returned v) batches.
Proof.
  intros Hcols Hkey Hrow Hcol.
  destruct (clean_then_batches df cols key Hcols Hkey)
    as (df' & batches & Hclean & Hdef & Hsum & Hall).
  exists df', batches. repeat (split; [done|]).
  eapply Forall_impl; [exact Hall|]. intros b (Hcb & Hne & Hnn). split.
  { unfold len. destruct (rows b); [done|]. simpl. lia. }
  set (t := crosstab (series b row) (series b col)).
  assert (Forall (complete row col) (rows b)) as Hcomplete.
  { apply Forall_forall. intros r Hr. split; by apply Hnn. }
  assert (size t <> 0) as Hsz.
  { apply crosstab_size_iff. destruct (rows b) as [|r l]; [done|].
    apply Forall_cons in Hcomplete as [? _]. by left. }
  pose proof (valid_testable t (crosstab_valid _ _) Hsz) as Ht.
  destruct (chi_square_test_testable pearson true t Ht) as (r & Hr & _).
  destruct (cramers_v_testable pearson pearson_not_negative t Ht) as [v Hv].
  exists t, r, v. split; [|split; [|done]].
  - apply build_contingency_table_returns; rewrite Hcb.
    + by eapply (proj1 (Forall_forall _ _) Hcols).
    + by eapply (proj1 (Forall_forall _ _) Hcols).
  - unfold t. rewrite crosstab_sum, kept_pairs_series. unfold len. f_equal. f_equal.
    by apply filter_all.
Qed.

End Pipeline.

Section LoadedData.

Variable read_csv : string -> option string -> outcome DataFrame.

(** X22.  A dataset that [load_csv] returns is the one the reader parsed and has
    at least one record; cleaned on its key column and batched by it, it
    gives at least one batch, and the batches hold all its records. *)
Theorem load_csv_then_batches (path : string) (encoding : option string)
    (df : DataFrame) (key : string) :
  load_csv read_csv path encoding = Returned df -> key ∈ columns df ->
  read_csv path encoding = Returned df /\ 0 < len df /\
  exists df' batches,
    clean_categorical_columns df [key] = Returned df' /\
    define_batches_by_column df' key = Returned batches /\
    batches <> [] /\ Forall (fun b => 0 < len b) batches /\
    zsum (map len batches) = len df.
Proof.
  unfold load_csv. intros Hload Hkey.
  destruct (read_csv path encoding) as [df0|] eqn:Hread; [|done]. simpl in Hload.
  destruct (df_empty df0) eqn:Hempty; [done|]. injection Hload as ->.
  split; [done|].
  assert (0 < len df) as Hlen.
  { unfold df_empty in Hempty. apply orb_false_iff in Hempty as [Hrows _].
    apply bool_decide_eq_false in Hrows. unfold len. destruct (rows df); [done|].
    simpl. lia. }
  split; [done|].
  destruct (clean_then_batches df [key] key) as (df' & batches & Hclean & Hdef & Hsum & Hall).
  { by apply Forall_singleton. }
  { left. }
  exists df', batches. repeat (split; [done|]). split; [|split; [|done]].
  - intros ->. simpl in Hsum. lia.
  - eapply Forall_impl; [exact Hall|]. intros b (_ & Hne & _). unfold len.
    destruct (rows b); [done|]. simpl. lia.
Qed.

End LoadedData.

(** The pipeline at the frame with keys [A, A, B, B, B]. *)
Lemma cleaned_batches_are_testable_witness :
  exists df' batches,
    clean_categorical_columns example_keys ["key"; "x"] = Returned df' /\
    define_batches_by_column df' "key" = Returned batches /\
    zsum (map len batches) = len example_keys /\
    Forall (fun b =>
              0 < len b /\
              exists t r v,
                build_contingency_table b "key" "x" = Returned t /\
                table_sum t = len b /\
                chi_square_test const_pearson t true = Returned r /\
                cramers_v const_pearson t = Returned v) batches.
Proof.
  apply (cleaned_batches_are_testable const_pearson).
  - intros y o e d. reflexivity.
  - repeat constructor.
  - left.
  - left.
  - right. left.
Defined.

(** Loading the survey and batching it by region. *)
Lemma load_csv_then_batches_witness :
  sample_read_csv "survey.csv" (Some "utf-8") = Returned example_survey /\
  0 < len example_survey /\
  exists df' batches,
    clean_categorical_columns example_survey ["region"] = Returned df' /\
    define_batches_by_column df' "region" = Returned batches /\
    batches <> [] /\ Forall (fun b => 0 < len b) batches /\
    zsum (map len batches) = len example_survey.
Proof.
  apply (load_csv_then_batches sample_read_csv "survey.csv" (Some "utf-8")
           example_survey "region").
  - reflexivity.
  - left.
Defined.

(** ** One-way ANOVA: the groups it tests *)

Lemma mapM_total {A B} (f : A -> outcome B) (g : A -> B) (l : list A) :
  Forall (fun x => f x = Returned (g x)) l -> mapM f l = Returned (map g l).
Proof.
  induction 1 as [|x l Hx Hl IH]; [done|]. simpl. rewrite Hx. simpl. by rewrite IH.
Qed.

Lemma group_values df numeric_col category_col k :
  dropna (series {| columns := columns df; rows := rows_with category_col k (rows df) |}
                 numeric_col)
  = anova_values df numeric_col category_col k.
Proof.
  unfold dropna, notnull, series, anova_values, rows_with. simpl.
  induction (rows df) as [|r l IH]; [done|].
  rewrite (filter_cons (fun r => cell r category_col = k)),
          (filter_cons (fun r => _ /\ _)).
  destruct (decide (cell r category_col = k)) as [Hk|Hk].
  - simpl. rewrite filter_cons.
    destruct (decide (is_null (cell r numeric_col) = false)) as [Hn|Hn].
    + rewrite decide_True by done. simpl. by rewrite IH.
    + rewrite decide_False by tauto. exact IH.
  - rewrite decide_False by tauto. exact IH.
Qed.

Lemma nonempty_groups_map {A} (G : A -> list value) (l : list A) :
  nonempty_groups (map G l) = map G (filter (fun k => G k <> []) l).
Proof.
  unfold nonempty_groups. induction l as [|k l IH]; [done|].
  simpl. rewrite !filter_cons. destruct (decide (G k <> [])); simpl; by rewrite IH.
Qed.

Lemma bind_pair_eta {A B} (m : outcome (A * B)) :
  ('(a, b) ← m; Returned (a, b)) = m.
Proof. by destruct m as [[a b]|e]. Qed.

Lemma elem_of_anova_categories df numeric_col category_col k :
  k ∈ anova_categories df numeric_col category_col <->
  exists r, r ∈ rows df /\ complete category_col numeric_col r /\ cell r category_col = k.
Proof.
  unfold anova_categories, anova_values.
  rewrite list_elem_of_filter, elem_of_unique_sorted, elem_of_notnull. split.
  - intros [Hne [_ Hnull]].
    destruct (filter _ (rows df)) as [|r l] eqn:E; [done|].
    assert (r ∈ r :: l) as Hr by left. rewrite <- E in Hr.
    apply list_elem_of_filter in Hr as [[Hk Hn] Hr].
    exists r. split; [done|]. split; [|done]. split; [|done]. by rewrite Hk.
  - intros (r & Hr & [Hc Hn] & <-). split; [|split; [|done]].
    + intros Hnil. apply fmap_nil_inv in Hnil.
      assert (r ∈ filter (fun r0 => cell r0 category_col = cell r category_col /\
                                    is_null (cell r0 numeric_col) = false) (rows df)) as Hin.
      { by apply list_elem_of_filter. }
      rewrite Hnil in Hin. by apply not_elem_of_nil in Hin.
    + apply list_elem_of_fmap. by exists r.
Qed.

Section AnovaFacts.

Variable f_oneway : list (list value) -> outcome (float * float).

Lemma anova_groups_returns df numeric_col category_col :
  numeric_col ∈ columns df ->
  anova_groups df numeric_col category_col
  = Returned (map (anova_values df numeric_col category_col)
                  (unique_sorted (notnull (series df category_col)))).
Proof.
  intros Hn. unfold anova_groups, groupby.
  rewrite (mapM_total _ (fun vg : value * DataFrame => dropna (series (snd vg) numeric_col))).
  - rewrite map_map. f_equal. apply map_ext. intros k. simpl. apply group_values.
  - apply Forall_forall. intros [k g] Hg. apply list_elem_of_fmap in Hg as (k' & [= -> ->] & _).
    simpl. unfold has_column. simpl. by rewrite bool_decide_eq_true_2.
Qed.

(** X23.  The one-way ANOVA runs on the records that have both a category and a
    value, and on no other: with the two columns present, the groups handed
    to the F test are one per category that has a value, each the values of
    that category in the order of the records, none empty and without nulls,
    and together as many values as there are such records.  With fewer than
    two such categories the function returns [(NaN, NaN)] without running the
    test; otherwise it returns or raises what the test does. *)
Theorem anova_numeric_by_category_groups (df : DataFrame)
    (numeric_col category_col : string) :
  category_col ∈ columns df -> numeric_col ∈ columns df ->
  let cats := anova_categories df numeric_col category_col in
  let gs := map (anova_values df numeric_col category_col) cats in
  NoDup cats /\
  (forall k, k ∈ cats <->
     exists r, r ∈ rows df /\ complete category_col numeric_col r /\
               cell r category_col = k) /\
  Forall (fun g => g <> [] /\ Forall (fun v => is_null v = false) g) gs /\
  zsum (map (fun g => Z.of_nat (length g)) gs)
    = Z.of_nat (length (filter (complete category_col numeric_col) (rows df))) /\
  anova_numeric_by_category f_oneway df numeric_col category_col
    = if Z.of_nat (length cats) <? 2 then Returned (PrimFloat.nan, PrimFloat.nan)
      else f_oneway gs.
Proof.
  intros Hc Hn cats gs.
  assert (NoDup cats) as Hnd.
  { unfold cats, anova_categories. apply NoDup_filter, unique_sorted_NoDup. }
  split; [done|]. split; [apply elem_of_anova_categories|]. split; [|split].
  - unfold gs. apply Forall_fmap, Forall_forall. intros k Hk. simpl.
    unfold cats, anova_categories in Hk. apply list_elem_of_filter in Hk as [Hne _].
    split; [done|]. unfold anova_values. apply Forall_fmap, Forall_forall.
    intros r Hr. simpl. by apply list_elem_of_filter in Hr as [[_ ?] _].
  - unfold gs. rewrite map_map. unfold anova_values.
    rewrite (zsum_map_ext _
               (fun k => Z.of_nat (length (filter
                  (fun r => cell r category_col = k /\ is_null (cell r numeric_col) = false)
                  (rows df))))).
    2:{ intros k _. by rewrite length_map. }
    rewrite (zsum_count_by (fun r => cell r category_col)
               (fun r => is_null (cell r numeric_col) = false) cats (rows df) Hnd).
    f_equal. apply length_filter_ext. intros r Hr.
    unfold cats. rewrite elem_of_anova_categories. unfold complete. split.
    + intros [(r' & _ & [Hc' _] & Heq) Hnum]. split; [|done]. by rewrite <- Heq.
    + intros [Hcat Hnum]. split; [|done]. by exists r.
  - unfold anova_numeric_by_category, has_column.
    rewrite bool_decide_eq_true_2 by done.
    rewrite anova_groups_returns by done. simpl.
    rewrite nonempty_groups_map. fold (anova_categories df numeric_col category_col).
    fold cats. rewrite length_map. fold gs.
    destruct (Z.of_nat (length cats) <? 2); [done|]. apply bind_pair_eta.
Qed.

(** X24.  Missing columns.  Without the category column the function raises
    [KeyError].  Without the numeric column it raises [KeyError] only when
    some record has a category; when none has (no record at all, or only
    null categories) the missing column goes unnoticed and the result is
    [(NaN, NaN)]. *)
Theorem anova_numeric_by_category_missing_column (df : DataFrame)
    (numeric_col category_col : string) :
  (category_col ∉ columns df ->
     anova_numeric_by_category f_oneway df numeric_col category_col = Raised KeyError) /\
  (category_col ∈ columns df -> numeric_col ∉ columns df ->
     (Exists (fun r => is_null (cell r category_col) = false) (rows df) ->
        anova_numeric_by_category f_oneway df numeric_col category_col = Raised KeyError) /\
     (Forall (fun r => is_null (cell r category_col) = true) (rows df) ->
        anova_numeric_by_category f_oneway df numeric_col category_col
        = Returned (PrimFloat.nan, PrimFloat.nan))).
Proof.
  unfold anova_numeric_by_category, has_column. split.
  - intros Hc. by rewrite bool_decide_eq_false_2.
  - intros Hc Hn. rewrite bool_decide_eq_true_2 by done.
    unfold anova_groups, groupby. split.
    + intros Hex. apply Exists_exists in Hex as (r & Hr & Hnull).
      assert (cell r category_col ∈ unique_sorted (notnull (series df category_col))) as Hk.
      { apply elem_of_unique_sorted, elem_of_notnull. split; [|done].
        apply list_elem_of_fmap. by exists r. }
      destruct (unique_sorted (notnull (series df category_col))) as [|k l];
        [by apply not_elem_of_nil in Hk|].
      simpl. unfold has_column. simpl. by rewrite bool_decide_eq_false_2.
    + intros Hall.
      destruct (unique_sorted (notnull (series df category_col))) as [|k l] eqn:E; [done|].
      exfalso. assert (k ∈ k :: l) as Hk by left. rewrite <- E in Hk.
      apply elem_of_unique_sorted, elem_of_notnull in Hk as [Hk Hnull].
      apply list_elem_of_fmap in Hk as (r & -> & Hr).
      apply (proj1 (Forall_forall _ _) Hall) in Hr. congruence.
Qed.

End AnovaFacts.

(** The groups at five records: two kinds with a price, one record without
    a kind and one without a price. *)
Lemma anova_numeric_by_category_groups_witness :
  let cats := anova_categories example_prices "price" "kind" in
  let gs := map (anova_values example_prices "price" "kind") cats in
  NoDup cats /\
  (forall k, k ∈ cats <->
     exists r, r ∈ rows example_prices /\ complete "kind" "price" r /\
               cell r "kind" = k) /\
  Forall (fun g => g <> [] /\ Forall (fun v => is_null v = false) g) gs /\
  zsum (map (fun g => Z.of_nat (length g)) gs)
    = Z.of_nat (length (filter (complete "kind" "price") (rows example_prices))) /\
  anova_numeric_by_category sample_f_oneway example_prices "price" "kind"
    = if Z.of_nat (length cats) <? 2 then Returned (PrimFloat.nan, PrimFloat.nan)
      else sample_f_oneway gs.
Proof.
  apply (anova_numeric_by_category_groups sample_f_oneway example_prices "price" "kind").
  - left.
  - right. left.
Defined.

(** A frame without a numeric column: with a category, and without any. *)
Lemma anova_numeric_by_category_missing_column_witness :
  anova_numeric_by_category sample_f_oneway example_keys_BA "price" "key"
    = Raised KeyError /\
  anova_numeric_by_category sample_f_oneway
      {| columns := ["key"]; rows := [ {[ "key" := VNaN ]} ] |} "price" "key"
    = Returned (PrimFloat.nan, PrimFloat.nan).
Proof.
  split.
  - apply (anova_numeric_by_category_missing_column sample_f_oneway example_keys_BA
             "price" "key").
    + left.
    + apply not_elem_of_cons. split; [done|apply not_elem_of_nil].
    + left. reflexivity.
  - apply (anova_numeric_by_category_missing_column sample_f_oneway
             {| columns := ["key"]; rows := [ {[ "key" := VNaN ]} ] |} "price" "key").
    + left.
    + apply not_elem_of_cons. split; [done|apply not_elem_of_nil].
    + repeat constructor.
Defined.
